(** * deployment-check: resource descriptors, status predicates,
      delete-and-wait, cleanup, the HTTP probe and the pod-error monitor.

    A shallow embedding of the Go sources of the Kuberhealthy deployment
    check.  Pure builders and predicates are plain functions.  Code that
    talks to the cluster, the clock or the network runs over an explicit
    [World]: the requests issued so far, the objects of the namespace and the
    rounds of environment behaviour that remain before the caller's context
    is done. *)

From Stdlib Require Import ZArith String Ascii List Bool Lia.
From stdpp Require Import base option strings gmap list pretty.
Import ListNotations.

Open Scope string_scope.
Open Scope list_scope.
Open Scope Z_scope.

(** ** Go primitives *)

Module Go.

(** Conversion of an [int] to [int32]: the low 32 bits, two's complement. *)
Definition int32 (z : Z) : Z := (z + 2 ^ 31) mod 2 ^ 32 - 2 ^ 31.

Definition in_int32 (z : Z) : Prop := - 2 ^ 31 <= z < 2 ^ 31.

(** [math.Ceil(float64(n) / float64(2))].  For |n| <= 2^53 the conversion
    to float64, the division by two and the ceiling are all exact, so the
    result is the integer ceiling of n/2. *)
Definition ceilHalf (n : Z) : Z := (n + 1) / 2.

(** [strconv.Itoa] and the [%d] verb. *)
Definition itoa (z : Z) : string := pretty z.

(** [time.Duration] values are nanosecond counts. *)
Definition Second : Z := 1000000000.
Definition Minute : Z := 60 * Second.

(** [strings.HasPrefix]. *)
Fixpoint hasPrefix (s p : string) : bool :=
  match p, s with
  | EmptyString, _ => true
  | String c p', String d s' => if Ascii.eqb c d then hasPrefix s' p' else false
  | String _ _, EmptyString => false
  end.

(** [strings.Contains]. *)
Fixpoint contains (s sub : string) : bool :=
  hasPrefix s sub ||
  match s with
  | EmptyString => false
  | String _ s' => contains s' sub
  end.

(** [strings.ToLower] maps every code point of the UTF-8 string through
    [unicode.ToLower].  The ASCII letters A-Z are lowered byte by byte.  Two
    code points outside ASCII have an ASCII letter as their lower case: the
    Kelvin sign U+212A (bytes E2 84 AA) becomes [k] and the dotted capital I
    U+0130 (bytes C4 B0) becomes [i]; both are replaced here.  Every other
    code point outside ASCII, and every byte that is not valid UTF-8, comes
    out of [strings.ToLower] as bytes of value 128 or more; the model keeps
    their bytes as they are.  The result therefore has the same ASCII bytes
    in the same order, separated at the same places by bytes that are not
    ASCII, as the result of [strings.ToLower]: a search for an ASCII
    substring, the one use the check makes of it, gives the same answer. *)
Definition lowerAscii (c : ascii) : ascii :=
  let n := nat_of_ascii c in
  if (Nat.leb 65 n && Nat.leb n 90)%bool then ascii_of_nat (n + 32) else c.

(** The UTF-8 bytes of U+0130. *)
Definition isDottedCapitalI (c1 c2 : ascii) : bool :=
  (Nat.eqb (nat_of_ascii c1) 196 && Nat.eqb (nat_of_ascii c2) 176)%bool.

(** The UTF-8 bytes of U+212A. *)
Definition isKelvinSign (c1 c2 c3 : ascii) : bool :=
  (Nat.eqb (nat_of_ascii c1) 226 && Nat.eqb (nat_of_ascii c2) 132
   && Nat.eqb (nat_of_ascii c3) 170)%bool.

Fixpoint toLower (s : string) : string :=
  match s with
  | EmptyString => EmptyString
  | String c1 s1 =>
      match s1 with
      | EmptyString => String (lowerAscii c1) (toLower s1)
      | String c2 s2 =>
          if isDottedCapitalI c1 c2 then String "i" (toLower s2)
          else
            match s2 with
            | EmptyString => String (lowerAscii c1) (toLower s1)
            | String c3 s3 =>
                if isKelvinSign c1 c2 c3 then String "k" (toLower s3)
                else String (lowerAscii c1) (toLower s1)
            end
      end
  end.

(** [strings.Join]. *)
Fixpoint join (l : list string) (sep : string) : string :=
  match l with
  | [] => ""
  | [x] => x
  | x :: rest => x +:+ sep +:+ join rest sep
  end.

(** A Go [error] is observed through its message; [nil] is [None]. *)
Definition error : Type := option string.

End Go.

(** ** The Kubernetes objects the check builds and inspects *)

Record IntOrString := mkIntOrString { IntVal : Z; StrVal : string }.

Record RollingUpdateDeployment := mkRollingUpdate {
  MaxUnavailable : option IntOrString;
  MaxSurge : option IntOrString
}.

Inductive DeploymentStrategyType := StrategyUnset | RollingUpdateDeploymentStrategyType.

Record DeploymentStrategy := mkStrategy {
  StrategyType : DeploymentStrategyType;
  RollingUpdate : option RollingUpdateDeployment
}.

Record Probe := mkProbe {
  InitialDelaySeconds : Z;
  TimeoutSeconds : Z;
  PeriodSeconds : Z;
  SuccessThreshold : Z;
  FailureThreshold : Z
}.

Record ResourceRequirements := mkResources {
  RequestMilliCPU : Z;
  RequestMemory : Z;
  LimitMilliCPU : Z;
  LimitMemory : Z
}.

Record Container := mkContainer {
  ContainerName : string;
  Image : string;
  ImagePullPolicy : string;
  Ports : list Z;
  Resources : ResourceRequirements;
  Env : list (string * string);
  LivenessProbe : option Probe;
  ReadinessProbe : option Probe
}.

Inductive RestartPolicy := RestartPolicyUnset | RestartPolicyAlways.

Record PodSpec := mkPodSpec {
  Containers : list Container;
  NodeSelector : option (gmap string string);
  PodRestartPolicy : RestartPolicy;
  TerminationGracePeriodSeconds : option Z;
  ServiceAccountName : string;
  Tolerations : list string;
  ImagePullSecrets : list string
}.

Record ObjectMeta := mkMeta {
  Name : string;
  Namespace : string;
  Labels : gmap string string
}.

Record PodTemplateSpec := mkTemplate {
  TemplateMeta : ObjectMeta;
  TemplateSpec : PodSpec
}.

Record DeploymentSpec := mkDeploymentSpec {
  Strategy : DeploymentStrategy;
  MinReadySeconds : Z;
  SpecReplicas : option Z;
  Selector : option (gmap string string);
  Template : PodTemplateSpec
}.

Inductive DeploymentConditionType :=
  DeploymentAvailable | DeploymentProgressing | DeploymentReplicaFailure.

Inductive ConditionStatus := ConditionTrue | ConditionFalse | ConditionUnknown.

Record DeploymentCondition := mkCondition {
  CondType : DeploymentConditionType;
  CondStatus : ConditionStatus
}.

Record DeploymentStatus := mkStatus {
  Conditions : list DeploymentCondition;
  Replicas : Z;
  UpdatedReplicas : Z;
  AvailableReplicas : Z;
  ReadyReplicas : Z;
  UnavailableReplicas : Z;
  ObservedGeneration : Z
}.

Record Deployment := mkDeployment {
  DeploymentMeta : ObjectMeta;
  Spec : DeploymentSpec;
  Status : DeploymentStatus
}.

(** The zero values Go gives to a freshly allocated object. *)
Definition zeroMeta : ObjectMeta := mkMeta "" "" ∅.
Definition zeroPodSpec : PodSpec := mkPodSpec [] None RestartPolicyUnset None "" [] [].
Definition zeroStatus : DeploymentStatus := mkStatus [] 0 0 0 0 0 0.
Definition zeroSpec : DeploymentSpec :=
  mkDeploymentSpec (mkStrategy StrategyUnset None) 0 None None
    (mkTemplate zeroMeta zeroPodSpec).
Definition zeroDeployment : Deployment := mkDeployment zeroMeta zeroSpec zeroStatus.

(** ** Configuration and runner (checkConfig.go, checkRunner.go) *)

Record CheckConfig := mkConfig {
  CheckImageURL : string;
  CheckImageURLRollTo : string;
  CheckImagePullSecret : string;
  CheckDeploymentName : string;
  CheckServiceName : string;
  CheckContainerPort : Z;
  CheckLoadBalancerPort : Z;
  CheckNamespace : string;
  CheckDeploymentReplicas : Z;
  CheckDeploymentTolerations : list string;
  CheckDeploymentNodeSelectors : gmap string string;
  CheckServiceAccount : string;
  MillicoreRequest : Z;
  MillicoreLimit : Z;
  MemoryRequest : Z;
  MemoryLimit : Z;
  CheckTimeLimit : Z;
  RollingUpdateEnabled : bool;
  AdditionalEnvVars : gmap string string
}.

Record CheckRunner := mkRunner {
  cfg : CheckConfig;
  nowUnix : Z
}.

(** ** Resource descriptors (deploymentConfig.go) *)

Definition deploymentLabelKey : string := "deployment-timestamp".
Definition deploymentLabelValueBase : string := "unix-".
Definition deploymentMinReadySeconds : Z := 5.
Definition deploymentMaxSurgeDefault : Z := 2.
Definition deploymentMaxUnavailableDefault : Z := 2.
Definition deploymentImagePullPolicy : string := "IfNotPresent".
Definition probeFailureThreshold : Z := 5.
Definition probeSuccessThreshold : Z := 1.
Definition probeInitialDelaySeconds : Z := 2.
Definition probeTimeoutSeconds : Z := 2.
Definition probePeriodSeconds : Z := 15.

Definition createContainerConfig (r : CheckRunner) (imageURL : string) : Container :=
  let probe :=
    mkProbe probeInitialDelaySeconds probeTimeoutSeconds probePeriodSeconds
            probeSuccessThreshold probeFailureThreshold in
  {| ContainerName := "deployment-container";
     Image := imageURL;
     ImagePullPolicy := deploymentImagePullPolicy;
     Ports := [CheckContainerPort (cfg r)];
     Resources := mkResources (MillicoreRequest (cfg r)) (MemoryRequest (cfg r))
                              (MillicoreLimit (cfg r)) (MemoryLimit (cfg r));
     Env := map_to_list (AdditionalEnvVars (cfg r));
     LivenessProbe := Some probe;
     ReadinessProbe := Some probe |}.

(** The rolling-update value for [replicas]: the ceiling of half the replica
    count, replaced by the fallback when that ceiling is below one.  The
    descriptor stores it through [int32(...)], exact while the value fits 32
    bits (Go leaves the conversion of a larger float to the platform). *)
Definition rollingValue (replicas fallback : Z) : Z :=
  let v := Go.ceilHalf replicas in
  if v <? 1 then fallback else v.

Definition maxSurgeFor (replicas : Z) : Z :=
  rollingValue replicas deploymentMaxSurgeDefault.

Definition maxUnavailableFor (replicas : Z) : Z :=
  rollingValue replicas deploymentMaxUnavailableDefault.

Definition runLabels (r : CheckRunner) : gmap string string :=
  <["source" := "kuberhealthy"]>
    (<[deploymentLabelKey := deploymentLabelValueBase +:+ Go.itoa (nowUnix r)]> ∅).

Definition createDeploymentConfig (r : CheckRunner) (image : string) : Deployment :=
  if Nat.eqb (String.length image) 0 then
    (* the warning is logged and the empty object returned *)
    zeroDeployment
  else
    let container := createContainerConfig r image in
    let nodeSelectors :=
      if Nat.eqb (size (CheckDeploymentNodeSelectors (cfg r))) 0
      then None else Some (CheckDeploymentNodeSelectors (cfg r)) in
    let podSpec :=
      {| Containers := [container];
         NodeSelector := nodeSelectors;
         PodRestartPolicy := RestartPolicyAlways;
         TerminationGracePeriodSeconds := Some 1;
         ServiceAccountName := CheckServiceAccount (cfg r);
         Tolerations := CheckDeploymentTolerations (cfg r);
         ImagePullSecrets :=
           if Nat.eqb (String.length (CheckImagePullSecret (cfg r))) 0
           then [] else [CheckImagePullSecret (cfg r)] |} in
    let labels := runLabels r in
    let podTemplateSpec :=
      mkTemplate (mkMeta (CheckDeploymentName (cfg r)) (CheckNamespace (cfg r)) labels)
                 podSpec in
    let maxSurge := maxSurgeFor (CheckDeploymentReplicas (cfg r)) in
    let maxUnavailable := maxUnavailableFor (CheckDeploymentReplicas (cfg r)) in
    let rollingUpdateSpec :=
      {| MaxUnavailable :=
           Some (mkIntOrString (Go.int32 maxUnavailable) (Go.itoa maxUnavailable));
         MaxSurge :=
           Some (mkIntOrString (Go.int32 maxSurge) (Go.itoa maxSurge)) |} in
    let deployStrategy :=
      mkStrategy RollingUpdateDeploymentStrategyType (Some rollingUpdateSpec) in
    let deploySpec :=
      {| Strategy := deployStrategy;
         MinReadySeconds := deploymentMinReadySeconds;
         SpecReplicas := Some (Go.int32 (CheckDeploymentReplicas (cfg r)));
         Selector := Some labels;
         Template := podTemplateSpec |} in
    {| DeploymentMeta :=
         mkMeta (CheckDeploymentName (cfg r)) (CheckNamespace (cfg r)) ∅;
       Spec := deploySpec;
       Status := zeroStatus |}.

(** The max-surge and max-unavailable integers of a built descriptor. *)
Definition surgeOf (d : Deployment) : option Z :=
  ru ← RollingUpdate (Strategy (Spec d)); IntVal <$> MaxSurge ru.

Definition unavailableOf (d : Deployment) : option Z :=
  ru ← RollingUpdate (Strategy (Spec d)); IntVal <$> MaxUnavailable ru.

(** ** Status predicates (deploymentOperations.go) *)

(** The body of the [for] loop of [deploymentAvailable]: every failed test is
    a [continue] to the next condition. *)
Fixpoint availableLoop (conds : list DeploymentCondition)
    (st : DeploymentStatus) (replicas : Z) : bool :=
  match conds with
  | [] => false
  | condition :: rest =>
      match CondType condition with
      | DeploymentAvailable =>
          match CondStatus condition with
          | ConditionTrue =>
              if negb (Replicas st =? Go.int32 replicas) then availableLoop rest st replicas
              else if negb (AvailableReplicas st =? Go.int32 replicas) then availableLoop rest st replicas
              else if negb (ReadyReplicas st =? Go.int32 replicas) then availableLoop rest st replicas
              else if negb (ObservedGeneration st =? 1) then availableLoop rest st replicas
              else true
          | _ => availableLoop rest st replicas
          end
      | _ => availableLoop rest st replicas
      end
  end.

Definition deploymentAvailable (deployment : option Deployment) (replicas : Z) : bool :=
  match deployment with
  | None => false
  | Some d => availableLoop (Conditions (Status d)) (Status d) replicas
  end.

Definition rolledPodsAreReady (deployment : option Deployment) (replicas : Z) : bool :=
  match deployment with
  | None => false
  | Some d =>
      let st := Status d in
      if negb (Replicas st =? Go.int32 replicas) then false
      else if negb (UpdatedReplicas st =? Go.int32 replicas) then false
      else if negb (AvailableReplicas st =? Go.int32 replicas) then false
      else if negb (ReadyReplicas st =? Go.int32 replicas) then false
      else if UnavailableReplicas st >=? 1 then false
      else if ObservedGeneration st <=? 1 then false
      else true
  end.

(** ** Pods and events as the pod-error inspection reads them *)

Record Event := mkEvent {
  EventReason : string;
  EventMessage : string;
  LastTimestamp : Z
}.

(** What listing the events of one pod answers. *)
Inductive EventsResult :=
| EventsOk (items : list Event)
| EventsNotFound
| EventsErr (msg : string).

Record ContainerStateWaiting := mkWaiting {
  WaitingReason : string;
  WaitingMessage : string
}.

Record ContainerState := mkState {
  Waiting : option ContainerStateWaiting;
  Running : bool;
  Terminated : option string
}.

Record ContainerStatus := mkContainerStatus {
  StatusName : string;
  Ready : bool;
  State : ContainerState
}.

Record Pod := mkPod {
  PodName : string;
  NodeName : string;
  Phase : string;
  PodReason : string;
  PodMessage : string;
  ContainerStatuses : list ContainerStatus;
  PodEvents : EventsResult
}.

Definition PodFailed : string := "Failed".

(** ** The environment

    One [Tick] is one round of what the outside world does: how the API
    server answers the request of that round, what the clock reads, how the
    endpoint answers a GET and which channel wakes a watch select.  A
    standalone request takes one tick, and so does every iteration of a
    polling or select loop.  The caller's context is done exactly when no
    tick is left: the check always runs under the deadline that [main] puts
    on its context, so only finitely many rounds happen before it, and a done
    context stays done.  The clock readings are the environment's; [paced]
    below is the further assumption that they honour the sleeps. *)

Inductive GetResult :=
| GetStatus (code : Z)
| GetError (msg : string).

Inductive SelectCase :=
| WatchEvent (obj : option Deployment)   (* [None]: not a deployment object *)
| PodErrorSignal (podErr : Go.error).

Record Tick := mkTick {
  apiErr : Go.error;      (* the error of this round's API request, if any *)
  lingers : bool;         (* an accepted delete leaves the object listed *)
  clock : Z;              (* the reading of [time.Now()], in nanoseconds *)
  httpGet : GetResult;    (* the outcome of [http.Get] *)
  woken : SelectCase      (* the channel that wakes a watch select *)
}.

(** The requests and effects a run performs, in order. *)
Inductive Call :=
| DeleteService (name : string)
| ListServices (name : string)
| DeleteDeployment (name : string)
| ListDeployments (name : string)
| CreateDeployment (d : Deployment)
| GetDeployment (name : string)
| UpdateDeployment (d : Deployment)
| WatchDeployments (name : string)
| ListPods (selector : string)
| HttpGet (address : string)
| Sleep (d : Z)
| GoMonitor (deadline divisor : Z) (reason : string).

Record Store := mkStore {
  services : list string;          (* names of the services of the namespace *)
  deployments : list Deployment;   (* the deployments of the namespace *)
  podView : string + list Pod;     (* the answer to listing this run's pods *)
  trace : list Call
}.

Record World := mkWorld {
  script : list Tick;
  store : Store
}.

Definition emit (c : Call) (st : Store) : Store :=
  mkStore (services st) (deployments st) (podView st) (trace st ++ [c]).

Definition ctxDone (w : World) : bool :=
  match script w with [] => true | _ => false end.

(** A small state monad over the world. *)
Definition M (A : Type) : Type := World -> A * World.

Definition ret {A} (a : A) : M A := fun w => (a, w).

Definition bind {A B} (m : M A) (k : A -> M B) : M B :=
  fun w => let '(a, w') := m w in k a w'.

Notation "'let*' x ':=' m 'in' k" := (bind m (fun x => k))
  (at level 10, x name, m at level 100, k at level 200).
Notation "'exec' m 'in' k" := (bind m (fun _ => k))
  (at level 10, m at level 100, k at level 200).

Definition call (c : Call) : M unit :=
  fun w => (tt, mkWorld (script w) (emit c (store w))).

(** Takes the tick of a standalone request; [None] once the context is done. *)
Definition nextTick : M (option Tick) :=
  fun w =>
    match script w with
    | [] => (None, w)
    | t :: rest => (Some t, mkWorld rest (store w))
    end.

Definition contextError : string := "context deadline exceeded".

(** A name between double quotes, as the API server prints it. *)
Definition quoted (name : string) : string :=
  String (ascii_of_nat 34) (name +:+ String (ascii_of_nat 34) "").

Definition deploymentName (d : Deployment) : string := Name (DeploymentMeta d).

(** ** Delete and wait (serviceOperations.go, deploymentOperations.go)

    The service and the deployment are deleted by two functions of the same
    shape; [ResourceClient] holds what differs between the two typed
    clients. *)

Record ResourceClient := mkClient {
  kindName : string;
  deleteCall : string -> Call;
  listCall : string -> Call;
  listed : Store -> list string;           (* names of the objects present *)
  removed : string -> Store -> Store       (* the store without that object *)
}.

Definition withoutService (name : string) (st : Store) : Store :=
  mkStore (List.filter (fun n => negb (String.eqb n name)) (services st))
          (deployments st) (podView st) (trace st).

(** The deployment delete asks for background propagation: the deployment
    object goes at once and its pods are collected afterwards, at a time the
    cluster chooses.  The store records the deployment as gone and leaves
    its pod listing as it was: what listing the pods answers after an
    accepted delete is the cluster's business, and no property below draws
    a conclusion about the pods from it. *)
Definition withoutDeployment (name : string) (st : Store) : Store :=
  mkStore (services st)
          (List.filter (fun d => negb (String.eqb (deploymentName d) name)) (deployments st))
          (podView st) (trace st).

Definition serviceClient : ResourceClient :=
  mkClient "service" DeleteService ListServices services withoutService.

Definition deploymentClient : ResourceClient :=
  mkClient "deployment" DeleteDeployment ListDeployments
           (fun st => map deploymentName (deployments st)) withoutDeployment.

(** The answer of the API server to a delete request, and its effect. *)
Definition serveDelete (rc : ResourceClient) (name : string) (t : Tick)
    (st : Store) : Go.error * Store :=
  match apiErr t with
  | Some e => (Some e, st)
  | None =>
      if existsb (String.eqb name) (listed rc st)
      then (None, if lingers t then st else removed rc name st)
      else (Some (kindName rc +:+ "s " +:+ quoted name +:+ " not found"), st)
  end.

(** [deleteService] / [deleteDeployment]: the delete request itself. *)
Definition deleteResource (rc : ResourceClient) (name : string) : M Go.error :=
  exec call (deleteCall rc name) in
  let* t := nextTick in
  match t with
  | None => ret (Some contextError)
  | Some t =>
      fun w => let '(e, st) := serveDelete rc name t (store w) in
               (e, mkWorld (script w) st)
  end.

(** The items a list request with the field selector [metadata.name=name]
    returns. *)
Definition listItems (rc : ResourceClient) (name : string) (st : Store) : list string :=
  List.filter (fun n => String.eqb n name) (listed rc st).

(** The [for range] over the listed items: on the first item with the
    wanted name the delete is issued again and the scan stops. *)
Fixpoint rescan (rc : ResourceClient) (name : string) (t : Tick)
    (items : list string) (st : Store) : bool * Store :=
  match items with
  | [] => (false, st)
  | item :: rest =>
      if String.eqb item name
      then (true, snd (serveDelete rc name t (emit (deleteCall rc name) st)))
      else rescan rc name t rest st
  end.

Definition timedOutWaiting (rc : ResourceClient) : string :=
  "timed out while waiting for " +:+ kindName rc +:+ " to delete".

(** The polling loop: one tick per iteration, none left when [ctx.Done()]
    is ready. *)
Fixpoint waitDeleted (rc : ResourceClient) (name : string)
    (s : list Tick) (st : Store) : Go.error * World :=
  match s with
  | [] => (Some (timedOutWaiting rc), mkWorld [] st)
  | t :: rest =>
      let st := emit (Sleep (5 * Go.Second)) st in
      let st := emit (listCall rc name) st in
      match apiErr t with
      | Some _ => waitDeleted rc name rest st
      | None =>
          let '(exists_, st) := rescan rc name t (listItems rc name st) st in
          if negb exists_ then (None, mkWorld rest st)
          else waitDeleted rc name rest st
      end
  end.

Definition deleteAndWait (rc : ResourceClient) (name : string) : M Go.error :=
  exec deleteResource rc name in
  fun w => waitDeleted rc name (script w) (store w).

Definition deleteService (r : CheckRunner) : M Go.error :=
  deleteResource serviceClient (CheckServiceName (cfg r)).

Definition deleteDeployment (r : CheckRunner) : M Go.error :=
  deleteResource deploymentClient (CheckDeploymentName (cfg r)).

Definition deleteServiceAndWait (r : CheckRunner) : M Go.error :=
  deleteAndWait serviceClient (CheckServiceName (cfg r)).

Definition deleteDeploymentAndWait (r : CheckRunner) : M Go.error :=
  deleteAndWait deploymentClient (CheckDeploymentName (cfg r)).

(** ** Cleanup (checkConfig.go) *)

Definition cleanup (r : CheckRunner) : M Go.error :=
  let resultErr := "" in
  let* serviceErr := deleteServiceAndWait r in
  let resultErr :=
    match serviceErr with
    | Some e => resultErr +:+ "error cleaning up service: " +:+ e
    | None => resultErr
    end in
  let* deploymentErr := deleteDeploymentAndWait r in
  let resultErr :=
    match deploymentErr with
    | Some e =>
        (if negb (Nat.eqb (String.length resultErr) 0)
         then resultErr +:+ " | " else resultErr)
        +:+ "error cleaning up deployment: " +:+ e
    | None => resultErr
    end in
  if negb (Nat.eqb (String.length resultErr) 0)
  then ret (Some resultErr)
  else ret None.

(** ** Error decoration with a pod snapshot *)

Definition describeContainerState (status : ContainerStatus) : string :=
  match Terminated (State status) with
  | Some reason =>
      let reason := if Nat.eqb (String.length reason) 0 then "terminated" else reason in
      "terminated:" +:+ reason
  | None =>
      match Waiting (State status) with
      | Some wait =>
          let reason := WaitingReason wait in
          let reason := if Nat.eqb (String.length reason) 0 then "waiting" else reason in
          "waiting:" +:+ reason
      | None => if Running (State status) then "running" else "unknown"
      end
  end.

Definition formatDeploymentPodSummary (pod : Pod) : string :=
  let nodeName := NodeName pod in
  let nodeName := if Nat.eqb (String.length nodeName) 0 then "unscheduled" else nodeName in
  let readyCount := List.length (List.filter (fun status => Ready status) (ContainerStatuses pod)) in
  let totalCount := List.length (ContainerStatuses pod) in
  let containerStates :=
    map (fun status => StatusName status +:+ "=" +:+ describeContainerState status)
        (ContainerStatuses pod) in
  let containerStates :=
    if Nat.eqb (List.length containerStates) 0 then ["none"] else containerStates in
  let reason := PodReason pod in
  let reason := if Nat.eqb (String.length reason) 0 then "none" else reason in
  "pod=" +:+ PodName pod +:+ " node=" +:+ nodeName +:+ " phase=" +:+ Phase pod
  +:+ " reason=" +:+ reason
  +:+ " ready=" +:+ Go.itoa (Z.of_nat readyCount) +:+ "/" +:+ Go.itoa (Z.of_nat totalCount)
  +:+ " containers=[" +:+ Go.join containerStates "," +:+ "]".

Definition runLabelSelector (r : CheckRunner) : string :=
  deploymentLabelKey +:+ "=" +:+ deploymentLabelValueBase +:+ Go.itoa (nowUnix r).

(** The pod listing runs under a context of its own (five seconds from
    [context.Background()]), so it takes no tick of the caller's context. *)
Definition deploymentPodSummary (r : CheckRunner) : M string :=
  exec call (ListPods (runLabelSelector r)) in
  fun w =>
    match podView (store w) with
    | inl err => ("failed to list deployment pods: " +:+ err, w)
    | inr items =>
        if Nat.eqb (List.length items) 0 then ("no deployment pods found", w)
        else (Go.join (map formatDeploymentPodSummary items) "; ", w)
    end.

Definition decorateDeploymentError (r : CheckRunner) (stage : string)
    (err : Go.error) : M Go.error :=
  match err with
  | None => ret None
  | Some e =>
      let* podSummary := deploymentPodSummary r in
      ret (Some (stage +:+ " failed: " +:+ e +:+ "; pod status: " +:+ podSummary))
  end.

(** ** The HTTP probe *)

Definition requestBackoffTimeout : Z := 3 * Go.Minute.
Definition requestBackoffMaxRetries : Z := 10.
Definition StatusOK : Z := 200.
Definition StatusBadGateway : Z := 502.

(** How one call of [requestServiceEndpoint] left its loop. *)
Inductive ProbeExit :=
| ExitBlankAddress
| ExitSuccess
| ExitContextDone
| ExitTimedOut
| ExitMaxRetries.

(** The retry loop.  [attempt] counts from one; an iteration takes one tick
    for its clock reading and its GET. *)
Fixpoint requestLoop (r : CheckRunner) (address : string) (deadline : Z)
    (attempt : Z) (s : list Tick) (st : Store) : (ProbeExit * Go.error) * World :=
  match s with
  | [] =>
      (* case <-ctx.Done() *)
      let '(cleanupErr, w) := cleanup r (mkWorld [] st) in
      match cleanupErr with
      | Some e =>
          ((ExitContextDone,
            Some ("context expired while waiting for " +:+ Go.itoa StatusOK +:+ " from "
                  +:+ address +:+ " and cleanup failed: " +:+ e)), w)
      | None =>
          ((ExitContextDone,
            Some ("context expired while waiting for " +:+ Go.itoa StatusOK +:+ " from "
                  +:+ address)), w)
      end
  | t :: rest =>
      if clock t >? deadline then
        let '(cleanupErr, w) := cleanup r (mkWorld rest st) in
        match cleanupErr with
        | Some e =>
            ((ExitTimedOut, Some ("backoff loop timed out and cleanup failed: " +:+ e)), w)
        | None =>
            ((ExitTimedOut,
              Some ("backoff loop for a " +:+ Go.itoa StatusOK
                    +:+ " response took too long and timed out")), w)
        end
      else if attempt >? requestBackoffMaxRetries then
        ((ExitMaxRetries,
          Some ("could not successfully make an HTTP request after "
                +:+ Go.itoa (attempt - 1) +:+ " attempts")), mkWorld rest st)
      else
        let st := emit (HttpGet address) st in
        match httpGet t with
        | GetStatus code =>
            if code =? StatusOK then ((ExitSuccess, None), mkWorld rest st)
            else
              (* a 502 is renamed for the debug log; any other status retries *)
              let retrySleepSeconds := attempt * 5 in
              requestLoop r address deadline (attempt + 1) rest
                          (emit (Sleep (retrySleepSeconds * Go.Second)) st)
        | GetError _ =>
            let retrySleepSeconds := attempt * 5 in
            requestLoop r address deadline (attempt + 1) rest
                        (emit (Sleep (retrySleepSeconds * Go.Second)) st)
        end
  end.

(** The address the loop requests. *)
Definition normalizeAddress (address : string) : string :=
  if negb (Go.hasPrefix address "http://") then "http://" +:+ address else address.

(** The loop with the exit it took; [time.Now()] before the loop takes the
    tick of a standalone reading. *)
Definition requestServiceEndpointExit (r : CheckRunner) (address : string)
    : M (ProbeExit * Go.error) :=
  if Nat.eqb (String.length address) 0 then
    ret (ExitBlankAddress, Some "given blank service address for HTTP call")
  else
    let address := normalizeAddress address in
    let* t := nextTick in
    let start := match t with Some t => clock t | None => 0 end in
    let deadline := start + requestBackoffTimeout in
    fun w => requestLoop r address deadline 1 (script w) (store w).

Definition requestServiceEndpoint (r : CheckRunner) (address : string) : M Go.error :=
  let* res := requestServiceEndpointExit r address in ret (snd res).

(** ** Pod-error inspection and the monitor goroutine *)

Definition errDeploymentCreatePod : string := "pod in the process of creating deployment".
Definition errDeploymentUpdatePod : string := "pod in the process of updating deployment".

Definition isErrorReason (reason : string) : bool :=
  let checkerReason := Go.toLower reason in
  Go.contains checkerReason "err" || Go.contains checkerReason "failed"
  || Go.contains checkerReason "backoff".

(** The scan for the most recent error event: (time, reason, message). *)
Definition recentEvent (items : list Event) : Z * string * string :=
  fold_left
    (fun acc ev =>
       let '(recentEventTime, eventReason, eventMsg) := acc in
       if negb (isErrorReason (EventReason ev)) then acc
       else if LastTimestamp ev >? recentEventTime
            then (LastTimestamp ev, EventReason ev, EventMessage ev)
            else acc)
    items (0, "", "").

Definition containerLine (pod : Pod) (containerName reason msg : string) : string :=
  "pod: " +:+ PodName pod +:+ " node: " +:+ NodeName pod +:+ " container: "
  +:+ containerName +:+ " reason: " +:+ reason +:+ " msg: " +:+ msg.

(** The inner loop over the container statuses of one pod. *)
Fixpoint checkContainers (pod : Pod) (reason : string)
    (statuses : list ContainerStatus) : Go.error :=
  match statuses with
  | [] => None
  | containerStat :: rest =>
      match Waiting (State containerStat) with
      | None => checkContainers pod reason rest
      | Some wait =>
          if String.eqb (WaitingReason wait) "" then checkContainers pod reason rest
          else if negb (Ready containerStat)
                  && negb (String.eqb (WaitingReason wait) "ContainerCreating")
          then Some ("pod state error: "
                     +:+ containerLine pod (StatusName containerStat)
                           (WaitingReason wait) (WaitingMessage wait)
                     +:+ "; stage: " +:+ reason)
          else
            match PodEvents pod with
            | EventsErr e => Some e
            | EventsNotFound => checkContainers pod reason rest
            | EventsOk items =>
                let '(_, eventReason, eventMsg) := recentEvent items in
                if negb (Nat.eqb (String.length eventReason) 0)
                then Some ("pod event error: "
                           +:+ containerLine pod (StatusName containerStat)
                                 eventReason eventMsg
                           +:+ "; stage: " +:+ reason)
                else checkContainers pod reason rest
            end
      end
  end.

Fixpoint checkPods (reason : string) (items : list Pod) : Go.error :=
  match items with
  | [] => None
  | pod :: rest =>
      match checkContainers pod reason (ContainerStatuses pod) with
      | Some e => Some e
      | None =>
          if String.eqb (Phase pod) PodFailed
          then Some ("pod failed: pod: " +:+ PodName pod +:+ " node: " +:+ NodeName pod
                     +:+ " reason: " +:+ PodReason pod +:+ " msg: " +:+ PodMessage pod
                     +:+ "; stage: " +:+ reason)
          else checkPods reason rest
      end
  end.

(** [checkDeploymentPodEvent] on the answer of the pod listing. *)
Definition checkDeploymentPodEvent (reason : string)
    (listing : string + list Pod) : Go.error :=
  match listing with
  | inl err => Some err
  | inr items => checkPods reason items
  end.

(** One round of the monitor: the clock it reads and the pods it is shown. *)
Record Observation := mkObservation {
  obsClock : Z;
  obsPods : string + list Pod
}.

Inductive MonitorEnd :=
| MonitorExited                 (* its context was cancelled; nothing was sent *)
| MonitorSent (podErr : string) (* this error went onto the result channel *).

(** [time.Until(deadline) < r.cfg.CheckTimeLimit / time.Duration(divisor)],
    guarded by [divisor > 0]; Go's integer division truncates. *)
Definition evaluating (r : CheckRunner) (deadline divisor : Z) (o : Observation) : bool :=
  (divisor >? 0) && (deadline - obsClock o <? Z.quot (CheckTimeLimit (cfg r)) divisor).

(** The monitor runs under a context of its own, cancelled when the wait
    that started it returns: its rounds are the observations it is given. *)
Fixpoint monitorDeploymentPodErrors (r : CheckRunner) (deadline divisor : Z)
    (reason : string) (s : list Observation) : MonitorEnd :=
  match s with
  | [] => MonitorExited
  | o :: rest =>
      if evaluating r deadline divisor o then
        match checkDeploymentPodEvent reason (obsPods o) with
        | Some podErr => MonitorSent podErr
        | None => monitorDeploymentPodErrors r deadline divisor reason rest
        end
      else monitorDeploymentPodErrors r deadline divisor reason rest
  end.

(** The divisor and the stage error each wait hands to its monitor. *)
Definition createMonitorDivisor : Z := 2.
Definition updateMonitorDivisor : Z := 3.

(** ** Create and update of the deployment, with their waits *)

Definition serveCreate (d : Deployment) (t : Tick) (st : Store)
    : (string + Deployment) * Store :=
  match apiErr t with
  | Some e => (inl e, st)
  | None =>
      if existsb (String.eqb (deploymentName d)) (map deploymentName (deployments st))
      then (inl ("deployments.apps " +:+ quoted (deploymentName d) +:+ " already exists"), st)
      else (inr d, mkStore (services st) (deployments st ++ [d]) (podView st) (trace st))
  end.

(** A request that returns an object: its call, its tick, its answer. *)
Definition request {A} (c : Call) (serve : Tick -> Store -> (string + A) * Store)
    : M (string + A) :=
  exec call c in
  let* t := nextTick in
  match t with
  | None => ret (inl contextError)
  | Some t =>
      fun w => let '(a, st) := serve t (store w) in (a, mkWorld (script w) st)
  end.

Definition serveWatch (t : Tick) (st : Store) : (string + unit) * Store :=
  match apiErr t with
  | Some e => (inl e, st)
  | None => (inr tt, st)
  end.

(** The [case <-ctx.Done()] branch of the two waits: cleanup first; its
    failure is returned alone, otherwise the decorated expiry error. *)
Definition contextDoneBranch (r : CheckRunner) (stage verb : string) : M Go.error :=
  let* cleanupErr := cleanup r in
  match cleanupErr with
  | Some e => ret (Some ("failed to clean up after " +:+ stage +:+ ": " +:+ e))
  | None =>
      decorateDeploymentError r stage
        (Some ("context expired while waiting for deployment to " +:+ verb))
  end.

(** The select loop of [createDeploymentAndWait]: a tick is one wake-up, by
    a watch event or by what the monitor goroutine put on its channel; with
    no tick left [ctx.Done()] fires. *)
Fixpoint createWaitLoop (r : CheckRunner) (s : list Tick) (st : Store)
    : (option Deployment * Go.error) * World :=
  match s with
  | [] =>
      let '(err, w) := contextDoneBranch r "deployment create" "create" (mkWorld [] st) in
      ((None, err), w)
  | t :: rest =>
      match woken t with
      | WatchEvent None => createWaitLoop r rest st
      | WatchEvent (Some deploymentEvent) =>
          if deploymentAvailable (Some deploymentEvent) (CheckDeploymentReplicas (cfg r))
          then ((Some deploymentEvent, None), mkWorld rest st)
          else createWaitLoop r rest st
      | PodErrorSignal None => createWaitLoop r rest st
      | PodErrorSignal (Some podErr) =>
          let '(err, w) :=
            decorateDeploymentError r "deployment create" (Some podErr) (mkWorld rest st) in
          ((None, err), w)
      end
  end.

(** The client never answers a nil object together with a nil error, so
    the nil tests after [Create] and [Get] have no case here. *)
Definition createDeploymentAndWait (r : CheckRunner) (deadline : Z)
    : M (option Deployment * Go.error) :=
  let deploymentConfig := createDeploymentConfig r (CheckImageURL (cfg r)) in
  let* created := request (CreateDeployment deploymentConfig) (serveCreate deploymentConfig) in
  match created with
  | inl e => ret (None, Some ("failed to create deployment: " +:+ e))
  | inr deployment =>
      exec call (GoMonitor deadline createMonitorDivisor errDeploymentCreatePod) in
      let* watching := request (WatchDeployments (deploymentName deployment)) serveWatch in
      match watching with
      | inl e => ret (None, Some ("failed to watch deployment: " +:+ e))
      | inr _ => fun w => createWaitLoop r (script w) (store w)
      end
  end.

Definition serveGet (name : string) (t : Tick) (st : Store)
    : (string + Deployment) * Store :=
  match apiErr t with
  | Some e => (inl e, st)
  | None =>
      match find (fun d => String.eqb (deploymentName d) name) (deployments st) with
      | Some d => (inr d, st)
      | None => (inl ("deployments.apps " +:+ quoted name +:+ " not found"), st)
      end
  end.

Definition serveUpdate (d : Deployment) (t : Tick) (st : Store)
    : (string + Deployment) * Store :=
  match apiErr t with
  | Some e => (inl e, st)
  | None =>
      if existsb (String.eqb (deploymentName d)) (map deploymentName (deployments st))
      then (inr d,
            mkStore (services st)
              (map (fun old => if String.eqb (deploymentName old) (deploymentName d)
                               then d else old) (deployments st))
              (podView st) (trace st))
      else (inl ("deployments.apps " +:+ quoted (deploymentName d) +:+ " not found"), st)
  end.

Fixpoint updateWaitLoop (r : CheckRunner) (s : list Tick) (st : Store)
    : (option Deployment * Go.error) * World :=
  match s with
  | [] =>
      let '(err, w) := contextDoneBranch r "deployment update" "update" (mkWorld [] st) in
      ((None, err), w)
  | t :: rest =>
      match woken t with
      | WatchEvent None => updateWaitLoop r rest st
      | WatchEvent (Some deploymentEvent) =>
          if rolledPodsAreReady (Some deploymentEvent) (CheckDeploymentReplicas (cfg r))
          then ((Some deploymentEvent, None), mkWorld rest st)
          else updateWaitLoop r rest st
      | PodErrorSignal None => updateWaitLoop r rest st
      | PodErrorSignal (Some podErr) =>
          let '(err, w) :=
            decorateDeploymentError r "deployment update" (Some podErr) (mkWorld rest st) in
          ((None, err), w)
      end
  end.

Definition updateDeploymentAndWait (r : CheckRunner) (deadline : Z)
    : M (option Deployment * Go.error) :=
  let name := CheckDeploymentName (cfg r) in
  let* fetched := request (GetDeployment name) (serveGet name) in
  match fetched with
  | inl e => ret (None, Some ("failed to fetch deployment for update: " +:+ e))
  | inr current =>
      let updatedConfig := createDeploymentConfig r (CheckImageURLRollTo (cfg r)) in
      if Nat.eqb (List.length (Containers (TemplateSpec (Template (Spec updatedConfig))))) 0
      then ret (None, Some "updated deployment config did not include containers")
      else
        let current :=
          mkDeployment (DeploymentMeta current)
            (mkDeploymentSpec (Strategy (Spec updatedConfig))
               (MinReadySeconds (Spec updatedConfig))
               (SpecReplicas (Spec updatedConfig))
               (Selector (Spec current))
               (Template (Spec updatedConfig)))
            (Status current) in
        let* updated := request (UpdateDeployment current) (serveUpdate current) in
        match updated with
        | inl e => ret (None, Some ("failed to update deployment: " +:+ e))
        | inr deployment =>
            exec call (GoMonitor deadline updateMonitorDivisor errDeploymentUpdatePod) in
            let* watching := request (WatchDeployments (deploymentName deployment)) serveWatch in
            match watching with
            | inl e => ret (None, Some ("failed to watch deployment update: " +:+ e))
            | inr _ => fun w => updateWaitLoop r (script w) (store w)
            end
        end
  end.

(** ** Sample runs *)

(** The defaults of [parseConfig]. *)
Definition defaultConfig : CheckConfig :=
  {| CheckImageURL := "nginxinc/nginx-unprivileged:1.17.8";
     CheckImageURLRollTo := "nginxinc/nginx-unprivileged:1.17.9";
     CheckImagePullSecret := "";
     CheckDeploymentName := "deployment-deployment";
     CheckServiceName := "deployment-svc";
     CheckContainerPort := 8080;
     CheckLoadBalancerPort := 80;
     CheckNamespace := "kuberhealthy";
     CheckDeploymentReplicas := 2;
     CheckDeploymentTolerations := [];
     CheckDeploymentNodeSelectors := ∅;
     CheckServiceAccount := "default";
     MillicoreRequest := 15;
     MillicoreLimit := 75;
     MemoryRequest := 20 * 1024 * 1024;
     MemoryLimit := 75 * 1024 * 1024;
     CheckTimeLimit := 15 * Go.Minute;
     RollingUpdateEnabled := false;
     AdditionalEnvVars := ∅ |}.

Definition defaultRunner : CheckRunner := mkRunner defaultConfig 1700000000.



Definition emptyStore : Store := mkStore [] [] (inr []) [].

(** A round in which the API answers, the clock reads [now] and the
    endpoint answers [get]. *)
Definition round (now : Z) (get : GetResult) : Tick :=
  mkTick None false now get (WatchEvent None).

(** A round that wakes a watch select with [sel]. *)
Definition wake (sel : SelectCase) : Tick :=
  mkTick None false 0 (GetError "connection refused") sel.

(** ** Vocabulary of the properties *)

(** The three requirements of availability, as the spec lists them. *)
Definition availableConditionTrue (st : DeploymentStatus) : bool :=
  existsb
    (fun c =>
       match CondType c, CondStatus c with
       | DeploymentAvailable, ConditionTrue => true
       | _, _ => false
       end)
    (Conditions st).

Definition replicaCountsMatch (st : DeploymentStatus) (replicas : Z) : bool :=
  (Replicas st =? replicas) && (AvailableReplicas st =? replicas)
  && (ReadyReplicas st =? replicas).

Definition firstGeneration (st : DeploymentStatus) : bool :=
  ObservedGeneration st =? 1.

Definition availableStatus : DeploymentStatus :=
  mkStatus [mkCondition DeploymentProgressing ConditionTrue;
            mkCondition DeploymentAvailable ConditionTrue] 2 2 2 2 0 1.

Definition rolledStatus : DeploymentStatus := mkStatus [] 2 2 2 2 0 2.

(** The store after the further calls [tr]. *)
Definition addTrace (st : Store) (tr : list Call) : Store :=
  mkStore (services st) (deployments st) (podView st) (trace st ++ tr).

(** A typed client is well behaved when its objects do not depend on the
    record of calls and removing an object leaves that record alone. *)
Record ClientOk (rc : ResourceClient) : Prop := {
  listed_addTrace : forall st tr, listed rc (addTrace st tr) = listed rc st;
  removed_trace : forall n st, trace (removed rc n st) = trace st
}.

(** The calls one polling round of [rc] can make. *)
Definition pollCall (rc : ResourceClient) (name : string) (c : Call) : Prop :=
  c = Sleep (5 * Go.Second) \/ c = listCall rc name \/ c = deleteCall rc name.

(** The resource [name] is not among the objects of its kind. *)
Definition absent (rc : ResourceClient) (name : string) (st : Store) : Prop :=
  ~ In name (listed rc st).

(** The verification rounds: a sleep and a list request each. *)
Fixpoint polls (rc : ResourceClient) (name : string) (n : nat) : list Call :=
  match n with
  | O => []
  | S n' => Sleep (5 * Go.Second) :: listCall rc name :: polls rc name n'
  end.

(** What [cleanup] reports for the results of its two deletions. *)
Definition aggregated (serviceErr deploymentErr : Go.error) : Go.error :=
  match serviceErr, deploymentErr with
  | None, None => None
  | Some a, None => Some ("error cleaning up service: " +:+ a)
  | None, Some b => Some ("error cleaning up deployment: " +:+ b)
  | Some a, Some b =>
      Some ("error cleaning up service: " +:+ a
            +:+ " | error cleaning up deployment: " +:+ b)
  end.

(** A round in which the API request fails. *)
Definition failing (e : string) : Tick :=
  mkTick (Some e) false 0 (GetError "connection refused") (WatchEvent None).

Definition quietRound : Tick := round 0 (GetError "connection refused").

(** The calls the retry loop itself makes. *)
Definition probeCall (c : Call) : Prop :=
  (exists a, c = HttpGet a) \/ (exists d, c = Sleep d).

Definition maxRetriesMessage : string :=
  "could not successfully make an HTTP request after 10 attempts".

(** What holds of a run of the probe that started in store [st]: up to the
    world [w0] only GETs and sleeps were made; then, depending on the exit,
    either [cleanup] ran from [w0] and produced the final world, or the
    final world is [w0] itself. *)
Definition exitFacts (r : CheckRunner) (st : Store)
    (res : (ProbeExit * Go.error) * World) : Prop :=
  exists tr w0,
    trace (store w0) = trace st ++ tr /\ Forall probeCall tr /\
    match fst (fst res) with
    | ExitBlankAddress => False
    | ExitSuccess => snd (fst res) = None /\ snd res = w0
    | ExitContextDone =>
        (exists ce, cleanup r w0 = (ce, snd res)) /\
        exists m, snd (fst res) = Some m /\ Go.hasPrefix m "context expired" = true
    | ExitTimedOut =>
        (exists ce, cleanup r w0 = (ce, snd res)) /\
        exists m, snd (fst res) = Some m /\ Go.hasPrefix m "backoff loop" = true
    | ExitMaxRetries =>
        snd (fst res) = Some maxRetriesMessage /\ snd res = w0
    end.

Definition cleanupExpiredMessage : string :=
  "error cleaning up service: timed out while waiting for service to delete"
  +:+ " | error cleaning up deployment: timed out while waiting for deployment to delete".

Definition createExpiryMessage : string :=
  "failed to clean up after deployment create: " +:+ cleanupExpiredMessage.

(** A wake-up that does not end the create wait. *)
Definition quiet (r : CheckRunner) (t : Tick) : Prop :=
  match woken t with
  | WatchEvent None => True
  | WatchEvent (Some d) =>
      deploymentAvailable (Some d) (CheckDeploymentReplicas (cfg r)) = false
  | PodErrorSignal None => True
  | PodErrorSignal (Some _) => False
  end.

(** The record of calls only grows. *)
Definition extends (st : Store) (w' : World) : Prop :=
  exists tr, trace (store w') = trace st ++ tr.

Definition grows {A} (m : M A) : Prop :=
  forall w, extends (store w) (snd (m w)).

(** A pod whose container cannot pull its image. *)
Definition backoffPod : Pod :=
  mkPod "deployment-deployment-5d4f8c7b9-x2x7k" "node-1" "Pending" "" ""
    [mkContainerStatus "deployment-container" false
       (mkState (Some (mkWaiting "ImagePullBackOff" "Back-off pulling image")) false None)]
    (EventsOk []).

Definition backoffMessage (stage : string) : string :=
  "pod state error: pod: deployment-deployment-5d4f8c7b9-x2x7k node: node-1"
  +:+ " container: deployment-container reason: ImagePullBackOff"
  +:+ " msg: Back-off pulling image; stage: " +:+ stage.

(** An observation the monitor passes over: outside the window, or inside
    it with no pod error found. *)
Definition passedOver (r : CheckRunner) (deadline divisor : Z) (reason : string)
    (o : Observation) : Prop :=
  evaluating r deadline divisor o = false
  \/ checkDeploymentPodEvent reason (obsPods o) = None.


(** ** The service descriptor and the service predicates
       (serviceConfig.go, serviceOperations.go) *)

Record ServicePort := mkServicePort {
  Port : Z;
  TargetPort : IntOrString;
  Protocol : string
}.

Inductive ServiceType := ServiceTypeUnset | ServiceTypeClusterIP.

Record ServiceSpec := mkServiceSpec {
  ServiceKind : ServiceType;
  ServicePorts : list ServicePort;
  ServiceSelector : gmap string string;
  ClusterIP : string
}.

Record Service := mkService {
  ServiceMeta : ObjectMeta;
  ServiceSpecOf : ServiceSpec
}.

Definition ProtocolTCP : string := "TCP".

Definition createServiceConfig (r : CheckRunner) (labels : gmap string string) : Service :=
  let basicPort :=
    {| Port := CheckLoadBalancerPort (cfg r);
       TargetPort := mkIntOrString (CheckContainerPort (cfg r))
                                   (Go.itoa (CheckContainerPort (cfg r)));
       Protocol := ProtocolTCP |} in
  let ports := [] ++ [basicPort] in
  let serviceSpec :=
    {| ServiceKind := ServiceTypeClusterIP;
       ServicePorts := ports;
       ServiceSelector := labels;
       ClusterIP := "" |} in
  {| ServiceMeta := mkMeta (CheckServiceName (cfg r)) (CheckNamespace (cfg r)) ∅;
     ServiceSpecOf := serviceSpec |}.

Definition serviceAvailable (service : option Service) : bool :=
  match service with
  | None => false
  | Some svc => negb (Nat.eqb (String.length (ClusterIP (ServiceSpecOf svc))) 0)
  end.

(** [getServiceClusterIP]: [fetched] is what the Get request for the
    configured service name answers (an error, or the object, possibly nil);
    the request is made only when [service] is not nil. *)
Definition getServiceClusterIP (service : option Service)
    (fetched : string + option Service) : string * Go.error :=
  match service with
  | None => ("", Some "service reference was nil")
  | Some _ =>
      match fetched with
      | inl err => ("", Some ("failed to fetch service for cluster IP: " +:+ err))
      | inr None => ("", Some "failed to get service, received nil")
      | inr (Some svc) =>
          if negb (Nat.eqb (String.length (ClusterIP (ServiceSpecOf svc))) 0)
          then (ClusterIP (ServiceSpecOf svc), None)
          else ("", Some "service cluster IP address is empty")
      end
  end.

(** ** Parsing of the list-valued settings (checkConfig.go) *)

(** [strings.Split] on a one-byte separator. *)
Fixpoint splitOn (sep : ascii) (s : string) : list string :=
  match s with
  | EmptyString => [""]
  | String c rest =>
      if Ascii.eqb c sep then "" :: splitOn sep rest
      else
        match splitOn sep rest with
        | head :: tail => String c head :: tail
        | [] => [String c ""]
        end
  end.

Definition comma : ascii := ascii_of_nat 44.
Definition equalsSign : ascii := ascii_of_nat 61.
Definition colon : ascii := ascii_of_nat 58.

(** The loop shared by [parseNodeSelectors] and [parseAdditionalEnvVars]:
    an entry that is not exactly [key=value] is skipped with a warning, and
    a key that is already present is kept as it is. *)
Definition addPair (vars : gmap string string) (entry : string) : gmap string string :=
  match splitOn equalsSign entry with
  | [key; value] =>
      match vars !! key with
      | Some _ => vars
      | None => <[key := value]> vars
      end
  | _ => vars
  end.

Definition parseNodeSelectors (raw : string) : string + gmap string string :=
  let entries := splitOn comma raw in
  if Nat.eqb (List.length entries) 0 then inl "no node selectors provided"
  else inr (fold_left addPair entries ∅).

Definition parseAdditionalEnvVars (raw : string) : string + gmap string string :=
  let entries := splitOn comma raw in
  if Nat.eqb (List.length entries) 0 then inl "no additional env vars provided"
  else inr (fold_left addPair entries ∅).

Inductive TolerationOperator := TolerationOpUnset | TolerationOpExists | TolerationOpEqual.

Record Toleration := mkToleration {
  TolerationKey : string;
  Operator : TolerationOperator;
  TolerationValue : string;
  Effect : string
}.

(** [parts[0]]: the first part of a split, which is never empty. *)
Definition firstPart (parts : list string) : string :=
  match parts with
  | [] => ""
  | p :: _ => p
  end.

(** The toleration one entry of the list gives. *)
Definition tolerationOf (entry : string) : Toleration :=
  let parts := splitOn equalsSign entry in
  match parts with
  | [key; valueEffectRaw] =>
      match splitOn colon valueEffectRaw with
      | [value; effect] => mkToleration key TolerationOpEqual value effect
      | _ => mkToleration key TolerationOpEqual valueEffectRaw ""
      end
  | _ => mkToleration (firstPart parts) TolerationOpExists "" ""
  end.

Definition parseTolerations (raw : string) : string + list Toleration :=
  let entries := splitOn comma raw in
  if Nat.eqb (List.length entries) 0 then inl "no tolerations provided"
  else inr (fold_left (fun tolerations entry => tolerations ++ [tolerationOf entry])
                      entries []).

(** ** The image and replica settings (checkConfig.go, parseConfig) *)

Definition defaultCheckDeploymentReplicas : Z := 2.


(** The replica count [parseConfig] settles on.  [replicaValue] is the
    integer [strconv.Atoi] read from CHECK_DEPLOYMENT_REPLICAS, [None] when
    the variable is unset; [int] has 64 bits on the platforms the check is
    built for, so any value below 2^63 can arrive here. *)
Definition parseReplicas (replicaValue : option Z) : string + Z :=
  match replicaValue with
  | None => inr defaultCheckDeploymentReplicas
  | Some v =>
      if v <? 1
      then inl ("CHECK_DEPLOYMENT_REPLICAS must be >= 1, got " +:+ Go.itoa v)
      else inr v
  end.

(** ** Further vocabulary *)

(** A wake-up that does not end the update wait. *)
Definition quietRoll (r : CheckRunner) (t : Tick) : Prop :=
  match woken t with
  | WatchEvent None => True
  | WatchEvent (Some d) =>
      rolledPodsAreReady (Some d) (CheckDeploymentReplicas (cfg r)) = false
  | PodErrorSignal None => True
  | PodErrorSignal (Some _) => False
  end.





(** A status as a deployment of two pods reports it once all are up, and
    one as it reports it after a completed rollout. *)
Definition twoAvailable : Deployment := mkDeployment zeroMeta zeroSpec availableStatus.
Definition twoRolled : Deployment := mkDeployment zeroMeta zeroSpec rolledStatus.

(** A replica count that differs from 2 and has the same low 32 bits. *)
Definition wrappedTwo : Z := 2 ^ 32 + 2.


(** The well-formed [key=value] entries of a list, in order. *)
Definition keyValuePairs (raw : string) : list (string * string) :=
  omap (fun entry =>
          match splitOn equalsSign entry with
          | [key; value] => Some (key, value)
          | _ => None
          end)
       (splitOn comma raw).

(** The text of [s] before the first [sep]. *)
Fixpoint upTo (sep : ascii) (s : string) : string :=
  match s with
  | EmptyString => ""
  | String c rest => if Ascii.eqb c sep then "" else String c (upTo sep rest)
  end.

(** The number of [sep] bytes in [s]. *)
Fixpoint countOf (sep : ascii) (s : string) : nat :=
  match s with
  | EmptyString => 0%nat
  | String c rest => ((if Ascii.eqb c sep then 1 else 0) + countOf sep rest)%nat
  end.

Definition isHttpGet (c : Call) : bool :=
  match c with HttpGet _ => true | _ => false end.

Definition isDeleteCall (c : Call) : bool :=
  match c with DeleteService _ | DeleteDeployment _ => true | _ => false end.

(** What a run of the retry loop adds to the record of calls: GETs of the
    one address, at most one per remaining attempt, and other calls. *)
Definition getsBounded (address : string) (budget : nat) (tr : list Call) : Prop :=
  (List.length (List.filter isHttpGet tr) <= budget)%nat
  /\ forall a, In (HttpGet a) tr -> a = address.

(** The calls of a probe that fails [failures] times from [attempt] on:
    a GET and the backoff sleep of five seconds per attempt made so far. *)
Fixpoint backoffCalls (address : string) (attempt : Z) (failures : nat) : list Call :=
  match failures with
  | O => []
  | S n =>
      HttpGet address :: Sleep (attempt * 5 * Go.Second)
      :: backoffCalls address (attempt + 1) n
  end.

(** A round of the probe inside the window whose GET does not answer 200. *)
Definition retryRound (deadline : Z) (t : Tick) : Prop :=
  clock t <= deadline /\ httpGet t <> GetStatus StatusOK.

(** A round in which the API accepts a request and a delete takes effect at
    once. *)
Definition cooperative (t : Tick) : Prop :=
  apiErr t = None /\ lingers t = false.

(** A round in which the API accepts a request but a deleted object stays
    listed. *)
Definition lingering (t : Tick) : Prop :=
  apiErr t = None /\ lingers t = true.

(** The calls of [n] polling rounds that each find the object and delete it
    again. *)
Fixpoint repolls (rc : ResourceClient) (name : string) (n : nat) : list Call :=
  match n with
  | O => []
  | S n' =>
      Sleep (5 * Go.Second) :: listCall rc name :: deleteCall rc name
      :: repolls rc name n'
  end.

(** What removing does, for a typed client: the object is gone, the record
    of calls is left alone, and removing what is not there changes nothing. *)
Record ClientRemoves (rc : ResourceClient) : Prop := {
  removed_absent : forall n st, absent rc n (removed rc n st);
  removed_addTrace :
    forall n st tr, removed rc n (addTrace st tr) = addTrace (removed rc n st) tr;
  removed_noop : forall n st, absent rc n st -> removed rc n st = st
}.

(** The objects cleanup may leave behind: all of [before], or all but the
    one named [name]. *)
Definition keptOrWithout {A} (named : A -> string) (name : string)
    (before after : list A) : Prop :=
  after = before
  \/ after = List.filter (fun x => negb (String.eqb (named x) name)) before.

(** A namespace with the check's service and deployment and a service of
    someone else. *)
Definition strayStore : Store :=
  mkStore ["deployment-svc"; "other-svc"]
          [createDeploymentConfig defaultRunner "nginx:latest"] (inr []) [].

(** A round in which a delete is accepted but the object stays listed. *)
Definition lingerRound : Tick :=
  mkTick None true 0 (GetError "connection refused") (WatchEvent None).

(** A pod that is not failed and has no container in a waiting state. *)
Definition running (pod : Pod) : Prop :=
  Phase pod <> PodFailed
  /\ Forall (fun status => Waiting (State status) = None) (ContainerStatuses pod).

(** An observation outside the monitor's window. *)
Definition outsideWindow (r : CheckRunner) (deadline divisor : Z) (o : Observation) : Prop :=
  Z.quot (CheckTimeLimit (cfg r)) divisor <= deadline - obsClock o.

(** The deployment [updateDeploymentAndWait] submits for [current]. *)
Definition rolledFrom (r : CheckRunner) (current : Deployment) : Deployment :=
  let updatedConfig := createDeploymentConfig r (CheckImageURLRollTo (cfg r)) in
  mkDeployment (DeploymentMeta current)
    (mkDeploymentSpec (Strategy (Spec updatedConfig))
       (MinReadySeconds (Spec updatedConfig))
       (SpecReplicas (Spec updatedConfig))
       (Selector (Spec current))
       (Template (Spec updatedConfig)))
    (Status current).

(** * Properties *)

(** ** Arithmetic of the descriptor *)

Lemma int32_id (z : Z) : Go.in_int32 z -> Go.int32 z = z.
Proof.
  unfold Go.in_int32, Go.int32. intros H.
  rewrite Z.mod_small; lia.
Qed.

Lemma ceilHalf_bounds (n : Z) : n <= 2 * Go.ceilHalf n < n + 2.
Proof.
  unfold Go.ceilHalf.
  pose proof (Z.div_mod (n + 1) 2 ltac:(lia)) as Hdm.
  pose proof (Z.mod_pos_bound (n + 1) 2 ltac:(lia)) as Hb.
  lia.
Qed.

Lemma rollingValue_ge_1 (n fallback : Z) :
  1 <= n -> rollingValue n fallback = Go.ceilHalf n /\ 1 <= Go.ceilHalf n.
Proof.
  intros Hn. pose proof (ceilHalf_bounds n) as Hc.
  unfold rollingValue. cbv zeta.
  destruct (Z.ltb_spec (Go.ceilHalf n) 1); split; lia.
Qed.

Lemma nonempty_length (s : string) : s <> "" -> Nat.eqb (String.length s) 0 = false.
Proof. destruct s; [congruence | reflexivity]. Qed.

(** C4, as the spec words it, fails at the default replica count: with two
    replicas the descriptor asks for a surge of 1, not max(ceil(2/2), 2) = 2. *)
Lemma createDeploymentConfig_surge_not_max_default :
  CheckDeploymentReplicas (cfg defaultRunner) = 2 /\
  surgeOf (createDeploymentConfig defaultRunner "nginx:latest") = Some 1 /\
  unavailableOf (createDeploymentConfig defaultRunner "nginx:latest") = Some 1 /\
  Some 1 <> Some (Z.max (Go.ceilHalf 2) deploymentMaxSurgeDefault).
Proof. repeat split; try reflexivity. vm_compute. discriminate. Qed.

(** C4 (amended): for a non-empty image and a replica count N with
    1 <= N < 2^31, the max-surge and the max-unavailable of the descriptor
    both equal ceil(N/2), the least integer v with N <= 2v, and are at least
    1; the fallback of 2 is not used. *)
Theorem createDeploymentConfig_rolling_values (r : CheckRunner) (image : string) :
  image <> "" ->
  1 <= CheckDeploymentReplicas (cfg r) < 2 ^ 31 ->
  let n := CheckDeploymentReplicas (cfg r) in
  let d := createDeploymentConfig r image in
  surgeOf d = Some (Go.ceilHalf n) /\
  unavailableOf d = Some (Go.ceilHalf n) /\
  n <= 2 * Go.ceilHalf n < n + 2 /\
  1 <= Go.ceilHalf n.
Proof.
  intros Himg Hn n d. subst n d.
  pose proof (ceilHalf_bounds (CheckDeploymentReplicas (cfg r))) as Hc.
  destruct (rollingValue_ge_1 (CheckDeploymentReplicas (cfg r)) deploymentMaxSurgeDefault
              ltac:(lia)) as [Hs H1].
  destruct (rollingValue_ge_1 (CheckDeploymentReplicas (cfg r)) deploymentMaxUnavailableDefault
              ltac:(lia)) as [Hu _].
  unfold createDeploymentConfig. rewrite (nonempty_length _ Himg).
  unfold surgeOf, unavailableOf, maxSurgeFor, maxUnavailableFor. cbn.
  rewrite Hs, Hu.
  rewrite int32_id by (unfold Go.in_int32; lia).
  repeat split; lia.
Qed.

Lemma createDeploymentConfig_rolling_values_witness :
  surgeOf (createDeploymentConfig defaultRunner "nginx:latest") = Some (Go.ceilHalf 2) /\
  unavailableOf (createDeploymentConfig defaultRunner "nginx:latest") = Some (Go.ceilHalf 2) /\
  2 <= 2 * Go.ceilHalf 2 < 2 + 2 /\
  1 <= Go.ceilHalf 2.
Proof.
  apply (createDeploymentConfig_rolling_values defaultRunner "nginx:latest").
  - discriminate.
  - simpl. lia.
Defined.

(** ** The two status predicates *)

Lemma availableLoop_spec (conds : list DeploymentCondition) (st : DeploymentStatus)
    (replicas : Z) :
  availableLoop conds st replicas =
  existsb
    (fun c =>
       match CondType c, CondStatus c with
       | DeploymentAvailable, ConditionTrue => true
       | _, _ => false
       end) conds
  && ((Replicas st =? Go.int32 replicas) && (AvailableReplicas st =? Go.int32 replicas)
      && (ReadyReplicas st =? Go.int32 replicas))
  && (ObservedGeneration st =? 1).
Proof.
  induction conds as [|c rest IH]; [reflexivity|].
  cbn [availableLoop existsb].
  destruct (CondType c), (CondStatus c); cbn [orb]; try exact IH.
  rewrite IH.
  destruct (Replicas st =? Go.int32 replicas),
           (AvailableReplicas st =? Go.int32 replicas),
           (ReadyReplicas st =? Go.int32 replicas),
           (ObservedGeneration st =? 1); cbn;
    rewrite ?andb_false_r; reflexivity.
Qed.

(** C6, as the spec words it, fails for a configured count beyond 32
    bits: [parseReplicas] accepts 2^32 + 2, and a deployment that reports
    two replicas, all available and ready, is then found available although
    its counts do not match the configured count. *)
Lemma deploymentAvailable_wrapped_count :
  parseReplicas (Some wrappedTwo) = inr wrappedTwo
  /\ deploymentAvailable (Some twoAvailable) wrappedTwo = true
  /\ replicaCountsMatch (Status twoAvailable) wrappedTwo = false.
Proof. split; [|split]; vm_compute; reflexivity. Qed.

(** C6 (amended): [deploymentAvailable] is the conjunction of the three
    requirements, with the replica, available and ready counts compared to
    the configured count converted to 32 bits: an Available condition that
    is true, counts equal to [int32(replicas)], observed generation 1.  It
    is false as soon as one fails and true only when all hold; a nil
    deployment is never available.  The converted count is the configured
    count itself when that fits 32 bits. *)
Theorem deploymentAvailable_iff_all (d : Deployment) (replicas : Z) :
  deploymentAvailable (Some d) replicas =
    availableConditionTrue (Status d)
    && replicaCountsMatch (Status d) (Go.int32 replicas)
    && firstGeneration (Status d)
  /\ deploymentAvailable None replicas = false
  /\ (Go.in_int32 replicas -> Go.int32 replicas = replicas).
Proof.
  split; [|split; [reflexivity | apply int32_id]].
  unfold deploymentAvailable. rewrite availableLoop_spec. reflexivity.
Qed.

Lemma deploymentAvailable_iff_all_witness :
  deploymentAvailable (Some twoAvailable) 2 =
    availableConditionTrue availableStatus
    && replicaCountsMatch availableStatus (Go.int32 2)
    && firstGeneration availableStatus
  /\ deploymentAvailable None 2 = false
  /\ (Go.in_int32 2 -> Go.int32 2 = 2).
Proof.
  apply (deploymentAvailable_iff_all twoAvailable 2).
Defined.

(** C7, as the spec words it, fails for a configured count beyond 32
    bits: with 2^32 + 2 configured, a deployment whose replica, updated,
    available and ready counts are all 2 passes the rollout test although
    none of them equals the configured count. *)
Lemma rolledPodsAreReady_wrapped_count :
  parseReplicas (Some wrappedTwo) = inr wrappedTwo
  /\ rolledPodsAreReady (Some twoRolled) wrappedTwo = true
  /\ Replicas (Status twoRolled) <> wrappedTwo
  /\ UpdatedReplicas (Status twoRolled) <> wrappedTwo
  /\ AvailableReplicas (Status twoRolled) <> wrappedTwo
  /\ ReadyReplicas (Status twoRolled) <> wrappedTwo.
Proof.
  split; [vm_compute; reflexivity|]. split; [vm_compute; reflexivity|].
  repeat split; vm_compute; discriminate.
Qed.

(** C7 (amended): [rolledPodsAreReady] holds exactly when the replica,
    updated, available and ready counts all equal the configured count
    converted to 32 bits, no replica is unavailable and the observed
    generation is above 1; so it is false whenever the unavailable count is
    at least 1 or the observed generation is at most 1.  The converted count
    is the configured count itself when that fits 32 bits. *)
Theorem rolledPodsAreReady_iff_all (d : option Deployment) (replicas : Z) :
  (rolledPodsAreReady d replicas = true <->
   exists dep, d = Some dep /\
     Replicas (Status dep) = Go.int32 replicas /\
     UpdatedReplicas (Status dep) = Go.int32 replicas /\
     AvailableReplicas (Status dep) = Go.int32 replicas /\
     ReadyReplicas (Status dep) = Go.int32 replicas /\
     ~ 1 <= UnavailableReplicas (Status dep) /\
     ~ ObservedGeneration (Status dep) <= 1)
  /\ (forall dep, d = Some dep ->
        1 <= UnavailableReplicas (Status dep) \/ ObservedGeneration (Status dep) <= 1 ->
        rolledPodsAreReady d replicas = false)
  /\ (Go.in_int32 replicas -> Go.int32 replicas = replicas).
Proof.
  assert (Hchar : forall dep,
    rolledPodsAreReady (Some dep) replicas = true <->
    (Replicas (Status dep) = Go.int32 replicas /\
     UpdatedReplicas (Status dep) = Go.int32 replicas /\
     AvailableReplicas (Status dep) = Go.int32 replicas /\
     ReadyReplicas (Status dep) = Go.int32 replicas /\
     ~ 1 <= UnavailableReplicas (Status dep) /\ ~ ObservedGeneration (Status dep) <= 1)).
  { intros dep. unfold rolledPodsAreReady. cbv zeta.
    generalize (Go.int32 replicas). intros count.
    destruct (Z.eqb_spec (Replicas (Status dep)) count);
    destruct (Z.eqb_spec (UpdatedReplicas (Status dep)) count);
    destruct (Z.eqb_spec (AvailableReplicas (Status dep)) count);
    destruct (Z.eqb_spec (ReadyReplicas (Status dep)) count);
    destruct (Z.geb_spec (UnavailableReplicas (Status dep)) 1);
    destruct (Z.leb_spec (ObservedGeneration (Status dep)) 1);
    cbn; split; intros Hx; try discriminate; try reflexivity;
    try (repeat split; lia); try (exfalso; lia). }
  split; [|split; [|apply int32_id]].
  - destruct d as [dep|].
    + rewrite Hchar. split.
      * intros H. exists dep. split; [reflexivity | exact H].
      * intros (dep' & Heq & H). injection Heq as ->. exact H.
    + cbn. split; [discriminate|]. intros (dep & Heq & _). discriminate.
  - intros dep -> Hbad.
    destruct (rolledPodsAreReady (Some dep) replicas) eqn:E; [|reflexivity].
    apply Hchar in E. exfalso. lia.
Qed.

Lemma rolledPodsAreReady_iff_all_witness :
  rolledPodsAreReady (Some twoRolled) 2 = true.
Proof.
  apply (proj1 (rolledPodsAreReady_iff_all (Some twoRolled) 2)).
  exists twoRolled. split; [reflexivity|].
  repeat split; try (vm_compute; reflexivity); cbn; lia.
Defined.

(** ** The HTTP probe on a blank address *)

(** C10: with an empty address [requestServiceEndpoint] returns its error at
    once and leaves the world as it found it: no tick is taken (the loop is
    not entered) and no call is recorded, so no GET is made and cleanup is
    not invoked. *)
Theorem requestServiceEndpoint_blank_address (r : CheckRunner) (w : World) :
  requestServiceEndpoint r "" w =
    (Some "given blank service address for HTTP call", w)
  /\ fst (fst (requestServiceEndpointExit r "" w)) = ExitBlankAddress.
Proof. split; reflexivity. Qed.

(** ** Delete and wait: what is requested, and when it gives up *)

Lemma addTrace_nil (st : Store) : addTrace st [] = st.
Proof. destruct st. unfold addTrace. cbn. rewrite app_nil_r. reflexivity. Qed.

Lemma addTrace_app (st : Store) (a b : list Call) :
  addTrace (addTrace st a) b = addTrace st (a ++ b).
Proof. unfold addTrace. cbn. rewrite <- app_assoc. reflexivity. Qed.

Lemma emit_addTrace (c : Call) (st : Store) : emit c st = addTrace st [c].
Proof. reflexivity. Qed.

Lemma serviceClient_ok : ClientOk serviceClient.
Proof. split; reflexivity. Qed.

Lemma deploymentClient_ok : ClientOk deploymentClient.
Proof. split; reflexivity. Qed.

Ltac poll_calls :=
  repeat (apply List.Forall_cons; [unfold pollCall; auto |]); apply List.Forall_nil.

Section DeleteAndWait.

Variable rc : ResourceClient.
Variable name : string.
Hypothesis rc_ok : ClientOk rc.

Lemma serveDelete_trace (t : Tick) (st : Store) :
  trace (snd (serveDelete rc name t st)) = trace st.
Proof.
  unfold serveDelete.
  destruct (apiErr t); [reflexivity|].
  destruct (existsb (String.eqb name) (listed rc st)); [|reflexivity].
  destruct (lingers t); [reflexivity|]. cbn. apply (removed_trace rc rc_ok).
Qed.

Lemma rescan_trace (t : Tick) (items : list string) (st : Store) :
  trace (snd (rescan rc name t items st)) = trace st
  \/ trace (snd (rescan rc name t items st)) = trace st ++ [deleteCall rc name].
Proof.
  induction items as [|item rest IH]; cbn [rescan]; [left; reflexivity|].
  destruct (String.eqb item name); [|exact IH].
  right. cbn [snd]. rewrite serveDelete_trace. reflexivity.
Qed.

(** Every call of the polling loop is a sleep, a list or a delete of this
    resource. *)
Lemma waitDeleted_trace (s : list Tick) (st : Store) :
  exists tr, trace (store (snd (waitDeleted rc name s st))) = trace st ++ tr
             /\ Forall (pollCall rc name) tr.
Proof.
  revert st. induction s as [|t rest IH]; intros st; cbn [waitDeleted].
  - exists []. cbn. rewrite app_nil_r. split; [reflexivity | constructor].
  - set (st1 := emit (listCall rc name) (emit (Sleep (5 * Go.Second)) st)).
    assert (Hst1 : trace st1 = trace st ++ [Sleep (5 * Go.Second); listCall rc name]).
    { unfold st1, emit. cbn. rewrite <- app_assoc. reflexivity. }
    assert (Hpre : Forall (pollCall rc name) [Sleep (5 * Go.Second); listCall rc name]).
    { poll_calls. }
    destruct (apiErr t).
    + destruct (IH st1) as (tr & Htr & Hall).
      exists ([Sleep (5 * Go.Second); listCall rc name] ++ tr).
      rewrite Htr, Hst1, <- app_assoc. split; [reflexivity|].
      apply Forall_app; split; assumption.
    + pose proof (rescan_trace t (listItems rc name st1) st1) as Hscan.
      destruct (rescan rc name t (listItems rc name st1) st1) as [found st2].
      cbn [snd] in Hscan.
      assert (Hst2 : exists d, trace st2 = trace st ++ d /\ Forall (pollCall rc name) d).
      { destruct Hscan as [-> | ->].
        - eexists; split; [exact Hst1 | exact Hpre].
        - rewrite Hst1, <- app_assoc. eexists; split; [reflexivity|].
          apply Forall_app; split; [exact Hpre|]. poll_calls. }
      destruct Hst2 as (d & Hd & Hdall).
      destruct found; cbn [negb].
      * destruct (IH st2) as (tr & Htr & Hall).
        exists (d ++ tr). rewrite Htr, Hd, <- app_assoc. split; [reflexivity|].
        apply Forall_app; split; assumption.
      * exists d. cbn. split; assumption.
Qed.

(** The result of the loop is nil or the timed-out error. *)
Lemma waitDeleted_error (s : list Tick) (st : Store) :
  fst (waitDeleted rc name s st) = None
  \/ fst (waitDeleted rc name s st) = Some (timedOutWaiting rc).
Proof.
  revert st. induction s as [|t rest IH]; intros st; cbn [waitDeleted].
  - right. reflexivity.
  - destruct (apiErr t); [apply IH|].
    destruct (rescan rc name t _ _) as [found st2].
    destruct found; cbn [negb]; [apply IH | left; reflexivity].
Qed.

(** With a done context the loop gives up at once. *)
Lemma waitDeleted_done (st : Store) :
  waitDeleted rc name [] st = (Some (timedOutWaiting rc), mkWorld [] st).
Proof. reflexivity. Qed.

Lemma deleteResource_trace (w : World) :
  trace (store (snd (deleteResource rc name w)))
  = trace (store w) ++ [deleteCall rc name]
  /\ script (snd (deleteResource rc name w)) = tail (script w).
Proof.
  unfold deleteResource, bind, call, nextTick. cbn.
  destruct (script w) as [|t rest]; cbn; [split; reflexivity|].
  pose proof (serveDelete_trace t (emit (deleteCall rc name) (store w))) as Ht.
  destruct (serveDelete rc name t (emit (deleteCall rc name) (store w))) as [e st].
  cbn in *. split; [exact Ht | reflexivity].
Qed.

(** The calls of a whole delete-and-wait: the delete request first, then
    polling rounds. *)
Lemma deleteAndWait_trace (w : World) :
  exists tr,
    trace (store (snd (deleteAndWait rc name w)))
    = trace (store w) ++ deleteCall rc name :: tr
    /\ Forall (pollCall rc name) tr.
Proof.
  unfold deleteAndWait, bind.
  pose proof (deleteResource_trace w) as [Ht _].
  destruct (deleteResource rc name w) as [e w1]. cbn [snd] in Ht.
  destruct (waitDeleted_trace (script w1) (store w1)) as (tr & Htr & Hall).
  exists tr. rewrite Htr, Ht, <- app_assoc. split; [reflexivity | exact Hall].
Qed.

Lemma deleteAndWait_error (w : World) :
  fst (deleteAndWait rc name w) = None
  \/ fst (deleteAndWait rc name w) = Some (timedOutWaiting rc).
Proof.
  unfold deleteAndWait, bind.
  destruct (deleteResource rc name w) as [e w1].
  apply waitDeleted_error.
Qed.

(** With a done context a delete-and-wait issues its delete request,
    changes nothing else and reports the timed-out error. *)
Lemma deleteAndWait_done (st : Store) :
  deleteAndWait rc name (mkWorld [] st)
  = (Some (timedOutWaiting rc), mkWorld [] (addTrace st [deleteCall rc name])).
Proof. reflexivity. Qed.

(** *** An absent resource *)

Lemma absent_existsb (st : Store) :
  absent rc name st -> existsb (String.eqb name) (listed rc st) = false.
Proof.
  unfold absent. intros Hn.
  destruct (existsb (String.eqb name) (listed rc st)) eqn:E; [|reflexivity].
  apply existsb_exists in E as (x & Hin & Heq).
  apply String.eqb_eq in Heq. subst x. contradiction.
Qed.

Lemma absent_listItems (st : Store) : absent rc name st -> listItems rc name st = [].
Proof.
  unfold absent, listItems. intros Hn.
  induction (listed rc st) as [|x l IH]; [reflexivity|].
  cbn [List.filter]. destruct (String.eqb_spec x name) as [->|Hne].
  - exfalso. apply Hn. left. reflexivity.
  - apply IH. intros Hin. apply Hn. right. exact Hin.
Qed.

Lemma absent_addTrace (st : Store) (tr : list Call) :
  absent rc name st -> absent rc name (addTrace st tr).
Proof. unfold absent. rewrite (listed_addTrace rc rc_ok). auto. Qed.

Lemma serveDelete_absent (t : Tick) (st : Store) :
  absent rc name st -> snd (serveDelete rc name t st) = st
               /\ fst (serveDelete rc name t st) <> None.
Proof.
  intros Ha. unfold serveDelete.
  destruct (apiErr t); [split; [reflexivity | discriminate]|].
  rewrite (absent_existsb _ Ha). split; [reflexivity | discriminate].
Qed.

Lemma waitDeleted_absent (fails : list Tick) (t : Tick) (rest : list Tick) (st : Store) :
  Forall (fun f => apiErr f <> None) fails ->
  apiErr t = None ->
  absent rc name st ->
  waitDeleted rc name (fails ++ t :: rest) st
  = (None, mkWorld rest (addTrace st (polls rc name (S (List.length fails))))).
Proof.
  intros Hf Ht. revert st.
  induction Hf as [|f fails Hfail _ IH]; intros st Ha.
  - cbn [app waitDeleted List.length polls]. rewrite Ht.
    rewrite !emit_addTrace, addTrace_app. cbn [app].
    rewrite (absent_listItems _ (absent_addTrace _ _ Ha)). cbn. reflexivity.
  - cbn [app waitDeleted List.length].
    destruct (apiErr f) as [e|]; [|congruence].
    rewrite !emit_addTrace, addTrace_app. cbn [app].
    rewrite (IH _ (absent_addTrace _ _ Ha)).
    rewrite addTrace_app. reflexivity.
Qed.

(** Already absent, context live: one delete request (answered "not
    found" or with the round's error, which is only logged), then one
    sleep and one list per round until a list succeeds; the store is kept
    as it was and the result is nil. *)
Lemma deleteAndWait_absent (w : World) (t0 : Tick) (fails : list Tick)
    (t : Tick) (rest : list Tick) :
  script w = t0 :: fails ++ t :: rest ->
  Forall (fun f => apiErr f <> None) fails ->
  apiErr t = None ->
  absent rc name (store w) ->
  deleteAndWait rc name w
  = (None, mkWorld rest
             (addTrace (store w) (deleteCall rc name :: polls rc name (S (List.length fails))))).
Proof.
  intros Hs Hf Ht Ha.
  unfold deleteAndWait, deleteResource, bind, call, nextTick. cbn. rewrite Hs.
  cbn [script store]. rewrite emit_addTrace.
  pose proof (serveDelete_absent t0 _ (absent_addTrace _ [deleteCall rc name] Ha)) as [Hst _].
  destruct (serveDelete rc name t0 (addTrace (store w) [deleteCall rc name])) as [e st].
  cbn in Hst. subst st. cbn [script store].
  rewrite (waitDeleted_absent fails t rest _ Hf Ht (absent_addTrace _ _ Ha)).
  rewrite addTrace_app. reflexivity.
Qed.

End DeleteAndWait.

(** ** Strings *)

Lemma append_cons (x : ascii) (a b : string) : String x a +:+ b = String x (a +:+ b).
Proof. reflexivity. Qed.

Lemma append_empty (b : string) : "" +:+ b = b.
Proof. reflexivity. Qed.

Lemma prefixed_nonblank (x : ascii) (p a : string) :
  negb (Nat.eqb (String.length (String x p +:+ a)) 0) = true.
Proof. reflexivity. Qed.

Lemma append_assoc (a b c : string) : (a +:+ b) +:+ c = a +:+ b +:+ c.
Proof.
  induction a as [|x a IH]; [reflexivity|].
  rewrite !append_cons, IH. reflexivity.
Qed.

Lemma hasPrefix_refl (s : string) : Go.hasPrefix s s = true.
Proof.
  induction s as [|c s IH]; [reflexivity|].
  cbn [Go.hasPrefix]. rewrite Ascii.eqb_refl. exact IH.
Qed.

Lemma hasPrefix_weaken (s p rest : string) :
  Go.hasPrefix s p = true -> Go.hasPrefix (s +:+ rest) p = true.
Proof.
  revert s. induction p as [|c p IH]; intros s H; [destruct (s +:+ rest); reflexivity|].
  destruct s as [|d s]; [discriminate|].
  rewrite append_cons. cbn [Go.hasPrefix] in *.
  destruct (Ascii.eqb c d); [apply IH; exact H | discriminate].
Qed.

Lemma contains_refl (s : string) : Go.contains s s = true.
Proof. destruct s; cbn [Go.contains]; rewrite hasPrefix_refl; reflexivity. Qed.

Lemma contains_append_r (a b : string) : Go.contains (a +:+ b) b = true.
Proof.
  induction a as [|c a IH].
  - rewrite append_empty. apply contains_refl.
  - rewrite append_cons. cbn [Go.contains]. rewrite IH. apply orb_true_r.
Qed.

Lemma contains_append_l (a b sub : string) :
  Go.contains a sub = true -> Go.contains (a +:+ b) sub = true.
Proof.
  induction a as [|c a IH]; intros H.
  - cbn [Go.contains] in H. rewrite orb_false_r in H.
    destruct sub; [|discriminate].
    rewrite append_empty. destruct b; reflexivity.
  - rewrite append_cons. cbn [Go.contains] in *.
    apply orb_true_iff in H as [H|H].
    + rewrite <- append_cons, (hasPrefix_weaken _ _ _ H). reflexivity.
    + rewrite (IH H). apply orb_true_r.
Qed.

Lemma contains_prefix (a b : string) : Go.contains (a +:+ b) a = true.
Proof. apply contains_append_l, contains_refl. Qed.

(** ** Cleanup *)

(** C8: [cleanup] first runs the service deletion, whose calls are the
    service delete request followed by service polling only, and then,
    whatever the service deletion returned, runs the deployment deletion,
    starting with the deployment delete request.  Its result is nil exactly
    when both deletions returned nil, and otherwise one error that carries
    the message of each deletion that failed. *)
Theorem cleanup_order_and_aggregation (r : CheckRunner) (w : World) :
  let svc := CheckServiceName (cfg r) in
  let dep := CheckDeploymentName (cfg r) in
  let serviceRun := deleteServiceAndWait r w in
  let deploymentRun := deleteDeploymentAndWait r (snd serviceRun) in
  cleanup r w = (aggregated (fst serviceRun) (fst deploymentRun), snd deploymentRun)
  /\ (exists tr1 tr2,
        trace (store (snd (cleanup r w)))
        = trace (store w) ++ DeleteService svc :: tr1 ++ DeleteDeployment dep :: tr2
        /\ Forall (pollCall serviceClient svc) tr1
        /\ Forall (pollCall deploymentClient dep) tr2)
  /\ (fst (cleanup r w) = None <-> fst serviceRun = None /\ fst deploymentRun = None)
  /\ (forall a, fst serviceRun = Some a -> exists m,
        fst (cleanup r w) = Some m
        /\ Go.contains m ("error cleaning up service: " +:+ a) = true)
  /\ (forall b, fst deploymentRun = Some b -> exists m,
        fst (cleanup r w) = Some m
        /\ Go.contains m ("error cleaning up deployment: " +:+ b) = true).
Proof.
  intros svc dep serviceRun deploymentRun.
  assert (Hrun : cleanup r w
                 = (aggregated (fst serviceRun) (fst deploymentRun), snd deploymentRun)).
  { unfold cleanup, bind. subst deploymentRun serviceRun.
    destruct (deleteServiceAndWait r w) as [e1 w1]. cbn [fst snd].
    destruct (deleteDeploymentAndWait r w1) as [e2 w2]. cbn [fst snd].
    destruct e1 as [a|], e2 as [b|]; cbn [aggregated].
    all: rewrite ?append_empty, ?prefixed_nonblank.
    all: rewrite ?append_assoc, ?prefixed_nonblank; reflexivity. }
  split; [exact Hrun|].
  rewrite Hrun. cbn [fst snd].
  split; [|split; [|split]].
  - subst deploymentRun serviceRun.
    destruct (deleteAndWait_trace serviceClient svc serviceClient_ok w)
      as (tr1 & Htr1 & Hall1).
    destruct (deleteAndWait_trace deploymentClient dep deploymentClient_ok
                (snd (deleteServiceAndWait r w))) as (tr2 & Htr2 & Hall2).
    exists tr1, tr2. split; [|split; assumption].
    subst svc dep. unfold deleteDeploymentAndWait, deleteServiceAndWait in *.
    rewrite Htr2, Htr1, <- app_assoc. reflexivity.
  - destruct (fst serviceRun), (fst deploymentRun); cbn; split;
      try discriminate; try (intros [? ?]; discriminate); auto.
  - intros a Ha. rewrite Ha.
    destruct (fst deploymentRun) as [b|]; cbn [aggregated]; eexists; split;
      try reflexivity.
    + rewrite <- append_assoc. apply contains_prefix.
    + apply contains_refl.
  - intros b Hb. rewrite Hb.
    destruct (fst serviceRun) as [a|]; cbn [aggregated]; eexists; split;
      try reflexivity.
    + change (" | error cleaning up deployment: " +:+ b)
        with (" | " +:+ "error cleaning up deployment: " +:+ b).
      rewrite <- !append_assoc. rewrite append_assoc. apply contains_append_r.
    + apply contains_refl.
Qed.

(** ** Delete and wait on a resource that is already gone *)

(** C9, as the spec words it, fails when the caller's context is already
    done (as it is when cleanup runs after the deadline or an interrupt):
    nothing is in the namespace, yet both functions return the timed-out
    error. *)
Lemma deleteAndWait_absent_done_context :
  let w := mkWorld [] emptyStore in
  ctxDone w = true
  /\ ~ In (CheckDeploymentName (cfg defaultRunner)) (map deploymentName (deployments (store w)))
  /\ ~ In (CheckServiceName (cfg defaultRunner)) (services (store w))
  /\ fst (deleteDeploymentAndWait defaultRunner w)
     = Some "timed out while waiting for deployment to delete"
  /\ fst (deleteServiceAndWait defaultRunner w)
     = Some "timed out while waiting for service to delete".
Proof. cbn. repeat split; auto. Qed.

(** C9 (amended): when the resource is already absent and the context stays
    live until a list request succeeds, [deleteServiceAndWait] and
    [deleteDeploymentAndWait] return nil and leave the namespace as it was,
    after exactly one delete request followed by one sleep and one list
    request per round, the rounds being the failed lists and the first list
    that succeeds; no delete is issued again. *)
Theorem deleteAndWait_absent_returns_nil (r : CheckRunner) (w : World)
    (t0 : Tick) (fails : list Tick) (t : Tick) (rest : list Tick) :
  script w = t0 :: fails ++ t :: rest ->
  Forall (fun f => apiErr f <> None) fails ->
  apiErr t = None ->
  (~ In (CheckServiceName (cfg r)) (services (store w)) ->
   deleteServiceAndWait r w
   = (None,
      mkWorld rest
        (addTrace (store w)
           (DeleteService (CheckServiceName (cfg r))
            :: polls serviceClient (CheckServiceName (cfg r)) (S (List.length fails))))))
  /\ (~ In (CheckDeploymentName (cfg r)) (map deploymentName (deployments (store w))) ->
      deleteDeploymentAndWait r w
      = (None,
         mkWorld rest
           (addTrace (store w)
              (DeleteDeployment (CheckDeploymentName (cfg r))
               :: polls deploymentClient (CheckDeploymentName (cfg r))
                        (S (List.length fails)))))).
Proof.
  intros Hs Hf Ht. split; intros Ha.
  - exact (deleteAndWait_absent serviceClient _ serviceClient_ok w t0 fails t rest
             Hs Hf Ht Ha).
  - exact (deleteAndWait_absent deploymentClient _ deploymentClient_ok w t0 fails t rest
             Hs Hf Ht Ha).
Qed.

Lemma deleteAndWait_absent_returns_nil_witness :
  deleteServiceAndWait defaultRunner
    (mkWorld [quietRound; failing "etcdserver: request timed out"; quietRound] emptyStore)
  = (None,
     mkWorld []
       (addTrace emptyStore
          [DeleteService "deployment-svc";
           Sleep (5 * Go.Second); ListServices "deployment-svc";
           Sleep (5 * Go.Second); ListServices "deployment-svc"])).
Proof.
  apply (proj1 (deleteAndWait_absent_returns_nil defaultRunner
                  (mkWorld [quietRound; failing "etcdserver: request timed out"; quietRound]
                           emptyStore)
                  quietRound [failing "etcdserver: request timed out"] quietRound []
                  eq_refl
                  ltac:(repeat constructor; discriminate)
                  eq_refl)).
  cbn. auto.
Defined.

(** ** The exits of the HTTP probe *)

Lemma probeCall_get (a : string) : probeCall (HttpGet a).
Proof. left. eexists. reflexivity. Qed.

Lemma probeCall_sleep (d : Z) : probeCall (Sleep d).
Proof. right. eexists. reflexivity. Qed.

Lemma exitFacts_step (r : CheckRunner) (st : Store) (address : string) (d : Z)
    (res : (ProbeExit * Go.error) * World) :
  exitFacts r (emit (Sleep d) (emit (HttpGet address) st)) res -> exitFacts r st res.
Proof.
  intros (tr & w0 & Htr & Hall & Hexit).
  exists ([HttpGet address; Sleep d] ++ tr), w0.
  split; [|split; [|exact Hexit]].
  - rewrite Htr. cbn [emit trace]. rewrite <- !app_assoc. reflexivity.
  - apply Forall_app. split; [|exact Hall].
    apply List.Forall_cons; [apply probeCall_get|].
    apply List.Forall_cons; [apply probeCall_sleep | apply List.Forall_nil].
Qed.

Lemma requestLoop_exitFacts (r : CheckRunner) (address : string) (deadline : Z)
    (s : list Tick) :
  forall (attempt : Z) (st : Store),
    1 <= attempt <= 11 ->
    exitFacts r st (requestLoop r address deadline attempt s st).
Proof.
  induction s as [|t rest IH]; intros attempt st Hattempt; cbn [requestLoop].
  - destruct (cleanup r (mkWorld [] st)) as [ce w'] eqn:Hc.
    exists [], (mkWorld [] st). rewrite app_nil_r.
    split; [reflexivity|]. split; [apply List.Forall_nil|].
    destruct ce as [e|]; cbn [fst snd]; (split; [eexists; exact Hc|]);
      eexists; (split; [reflexivity|]); reflexivity.
  - destruct (clock t >? deadline).
    + destruct (cleanup r (mkWorld rest st)) as [ce w'] eqn:Hc.
      exists [], (mkWorld rest st). rewrite app_nil_r.
      split; [reflexivity|]. split; [apply List.Forall_nil|].
      destruct ce as [e|]; cbn [fst snd]; (split; [eexists; exact Hc|]);
        eexists; (split; [reflexivity|]); reflexivity.
    + destruct (Z.gtb_spec attempt requestBackoffMaxRetries) as [Hmax|Hmax].
      * exists [], (mkWorld rest st). rewrite app_nil_r.
        split; [reflexivity|]. split; [apply List.Forall_nil|].
        cbn [fst snd]. unfold requestBackoffMaxRetries in Hmax.
        replace attempt with 11 by lia. split; reflexivity.
      * unfold requestBackoffMaxRetries in Hmax.
        destruct (httpGet t) as [code|msg].
        -- destruct (code =? StatusOK).
           ++ exists [HttpGet address], (mkWorld rest (emit (HttpGet address) st)).
              split; [reflexivity|].
              split; [apply List.Forall_cons; [apply probeCall_get | apply List.Forall_nil]|].
              cbn [fst snd]. split; reflexivity.
           ++ eapply exitFacts_step. apply IH. lia.
        -- eapply exitFacts_step. apply IH. lia.
Qed.

Lemma hasPrefix_cons (m : string) (c : ascii) (p : string) :
  Go.hasPrefix m (String c p) = true ->
  exists m', m = String c m' /\ Go.hasPrefix m' p = true.
Proof.
  destruct m as [|d m]; cbn [Go.hasPrefix]; [discriminate|].
  destruct (Ascii.eqb_spec c d) as [->|]; [|discriminate].
  intros H. exists m. split; [reflexivity | exact H].
Qed.

(** The messages of the three failing exits start differently. *)
Lemma probe_prefixes_exclusive (m : string) :
  (Go.hasPrefix m "context expired" = true -> Go.hasPrefix m "backoff loop" = false
                                             /\ m <> maxRetriesMessage)
  /\ (Go.hasPrefix m "backoff loop" = true -> m <> maxRetriesMessage).
Proof.
  split.
  - intros H. split.
    + apply hasPrefix_cons in H as (m1 & -> & _). reflexivity.
    + intros ->. discriminate H.
  - intros H ->. discriminate H.
Qed.

(** Every run of [cleanup] issues the service delete request. *)
Lemma cleanup_issues_delete (r : CheckRunner) (w : World) :
  In (DeleteService (CheckServiceName (cfg r))) (trace (store (snd (cleanup r w)))).
Proof.
  unfold cleanup, bind.
  destruct (deleteAndWait_trace serviceClient (CheckServiceName (cfg r))
              serviceClient_ok w) as (tr1 & Htr1 & _).
  fold (deleteServiceAndWait r) in Htr1.
  destruct (deleteServiceAndWait r w) as [e1 w1]. cbn [snd] in Htr1.
  destruct (deleteAndWait_trace deploymentClient (CheckDeploymentName (cfg r))
              deploymentClient_ok w1) as (tr2 & Htr2 & _).
  fold (deleteDeploymentAndWait r) in Htr2.
  destruct (deleteDeploymentAndWait r w1) as [e2 w2]. cbn [snd] in Htr2.
  assert (Hin : In (DeleteService (CheckServiceName (cfg r))) (trace (store w2))).
  { rewrite Htr2, Htr1. apply in_or_app. left. apply in_or_app. right. left. reflexivity. }
  destruct e1, e2; cbn; try rewrite ?append_empty, ?prefixed_nonblank; cbn; exact Hin.
Qed.

Lemma requestServiceEndpointExit_facts (r : CheckRunner) (address : string) (w : World) :
  address <> "" ->
  exitFacts r (store w) (requestServiceEndpointExit r address w).
Proof.
  intros Ha. unfold requestServiceEndpointExit.
  rewrite (nonempty_length _ Ha). unfold bind, nextTick.
  destruct (script w) as [|t rest]; cbn [script store];
    apply requestLoop_exitFacts; lia.
Qed.


(** Under a done context [cleanup] issues its two delete requests, gives up
    on both waits at once and reports both. *)
Lemma cleanup_done (r : CheckRunner) (st : Store) :
  cleanup r (mkWorld [] st)
  = (Some cleanupExpiredMessage,
     mkWorld [] (addTrace st [DeleteService (CheckServiceName (cfg r));
                              DeleteDeployment (CheckDeploymentName (cfg r))])).
Proof.
  unfold cleanup, bind, deleteServiceAndWait, deleteDeploymentAndWait.
  rewrite deleteAndWait_done, deleteAndWait_done, addTrace_app.
  reflexivity.
Qed.

(** On a clock that does not honour the sleeps the attempt-count branch
    can be entered: ten GETs answered 502 while the clock stands still end
    the loop with the attempt-count error after GETs and backoff sleeps
    only.  No run on a clock that honours the sleeps gets there. *)
Lemma requestServiceEndpoint_max_retries_no_cleanup :
  let w := mkWorld (repeat (round 0 (GetStatus StatusBadGateway)) 12) emptyStore in
  let run := requestServiceEndpointExit defaultRunner "10.0.0.7" w in
  fst run = (ExitMaxRetries, Some maxRetriesMessage)
  /\ requestServiceEndpoint defaultRunner "10.0.0.7" w = (Some maxRetriesMessage, snd run)
  /\ Forall probeCall (trace (store (snd run)))
  /\ ~ In (DeleteService "deployment-svc") (trace (store (snd run)))
  /\ (forall w0, snd (cleanup defaultRunner w0) <> snd run).
Proof.
  intros w run.
  assert (Hnot : ~ In (DeleteService "deployment-svc") (trace (store (snd run)))).
  { vm_compute. intros H.
    repeat (destruct H as [H|H]; [discriminate H|]). exact H. }
  split; [vm_compute; reflexivity|].
  split; [vm_compute; reflexivity|].
  split.
  - vm_compute.
    repeat (apply List.Forall_cons;
            [first [apply probeCall_get | apply probeCall_sleep]|]).
    apply List.Forall_nil.
  - split; [exact Hnot|].
    intros w0 Heq. apply Hnot. rewrite <- Heq.
    apply (cleanup_issues_delete defaultRunner w0).
Qed.

Lemma requestServiceEndpointExit_loop (r : CheckRunner) (address : string) (w : World) :
  address <> "" ->
  requestServiceEndpointExit r address w
  = requestLoop r (normalizeAddress address)
      (match script w with [] => 0 | t :: _ => clock t end + requestBackoffTimeout)
      1 (List.tl (script w)) (store w).
Proof.
  intros Ha. unfold requestServiceEndpointExit.
  rewrite (nonempty_length _ Ha). unfold bind, nextTick.
  destruct (script w) as [|t rest] eqn:Hs; cbn [script store List.tl].
  - rewrite Hs. reflexivity.
  - reflexivity.
Qed.

Lemma requestServiceEndpoint_run (r : CheckRunner) (address : string) (w : World) :
  requestServiceEndpoint r address w
  = (snd (fst (requestServiceEndpointExit r address w)),
     snd (requestServiceEndpointExit r address w)).
Proof.
  unfold requestServiceEndpoint, bind.
  destruct (requestServiceEndpointExit r address w) as [[exit err] w']. reflexivity.
Qed.






(** ** Context expiry during the create wait *)

Lemma createWaitLoop_expiry (r : CheckRunner) (s : list Tick) (st : Store) :
  Forall (quiet r) s ->
  createWaitLoop r s st
  = ((None, Some createExpiryMessage),
     mkWorld [] (addTrace st [DeleteService (CheckServiceName (cfg r));
                              DeleteDeployment (CheckDeploymentName (cfg r))])).
Proof.
  intros Hq. induction Hq as [|t rest Ht _ IH]; cbn [createWaitLoop].
  - unfold contextDoneBranch, bind. rewrite cleanup_done. reflexivity.
  - unfold quiet in Ht.
    destruct (woken t) as [[d|]|[e|]]; try exact IH; [|contradiction].
    rewrite Ht. exact IH.
Qed.

Lemma not_in_existsb (name : string) (l : list string) :
  ~ In name l -> existsb (String.eqb name) l = false.
Proof.
  intros Hn. destruct (existsb (String.eqb name) l) eqn:E; [|reflexivity].
  apply existsb_exists in E as (x & Hin & Heq).
  apply String.eqb_eq in Heq. subst x. contradiction.
Qed.

(** C3, as the spec words it, fails: the deployment is created and watched,
    no event arrives and the context expires.  Cleanup is invoked, but the
    error returned names only the cleanup failure, not the expiry of the
    context. *)
Lemma createDeploymentAndWait_expiry_hides_cause :
  let w := mkWorld [quietRound; quietRound; wake (WatchEvent None)] emptyStore in
  let run := createDeploymentAndWait defaultRunner (15 * Go.Minute) w in
  fst run = (None, Some createExpiryMessage)
  /\ In (DeleteService "deployment-svc") (trace (store (snd run)))
  /\ In (DeleteDeployment "deployment-deployment") (trace (store (snd run)))
  /\ Go.contains createExpiryMessage "context expired" = false
  /\ Go.contains (Go.toLower createExpiryMessage) "context" = false
  /\ Go.contains (Go.toLower createExpiryMessage) "deadline" = false.
Proof. vm_compute. repeat split; auto 10. Qed.

(** C3 (amended): when the deployment has been created and is being
    watched, and the caller's context expires before an event reports
    availability or a pod error arrives, [createDeploymentAndWait] invokes
    cleanup before it returns: the service delete and the deployment delete
    are requested, in that order, as its last calls.  The error it returns
    is the failure of that cleanup behind the prefix "failed to clean up
    after deployment create: "; the expiry of the context is not mentioned
    in it. *)
Theorem createDeploymentAndWait_context_expiry (r : CheckRunner) (deadline : Z)
    (w : World) (t0 t1 : Tick) (s : list Tick) :
  let config := createDeploymentConfig r (CheckImageURL (cfg r)) in
  script w = t0 :: t1 :: s ->
  apiErr t0 = None ->
  apiErr t1 = None ->
  ~ In (deploymentName config) (map deploymentName (deployments (store w))) ->
  Forall (quiet r) s ->
  let w0 :=
    mkWorld []
      (mkStore (services (store w)) (deployments (store w) ++ [config])
         (podView (store w))
         (trace (store w)
          ++ [CreateDeployment config;
              GoMonitor deadline createMonitorDivisor errDeploymentCreatePod;
              WatchDeployments (deploymentName config)])) in
  exists cleanupErr,
    cleanup r w0 = (Some cleanupErr, snd (createDeploymentAndWait r deadline w))
    /\ fst (createDeploymentAndWait r deadline w)
       = (None, Some ("failed to clean up after deployment create: " +:+ cleanupErr))
    /\ trace (store (snd (createDeploymentAndWait r deadline w)))
       = trace (store w0)
         ++ [DeleteService (CheckServiceName (cfg r));
             DeleteDeployment (CheckDeploymentName (cfg r))]
    /\ Go.contains ("failed to clean up after deployment create: " +:+ cleanupErr)
         "context expired" = false.
Proof.
  intros config Hs H0 H1 Hnew Hq w0.
  exists cleanupExpiredMessage.
  assert (Hrun : createDeploymentAndWait r deadline w
                 = ((None, Some createExpiryMessage),
                    mkWorld [] (addTrace (store w0)
                                  [DeleteService (CheckServiceName (cfg r));
                                   DeleteDeployment (CheckDeploymentName (cfg r))]))).
  { unfold createDeploymentAndWait. fold config.
    unfold request, bind, call, nextTick. cbn [script store]. rewrite Hs.
    cbn [script store]. unfold serveCreate. rewrite H0.
    cbn [emit services deployments podView trace].
    rewrite (not_in_existsb _ _ Hnew). cbn [script store emit services deployments podView trace].
    unfold serveWatch. rewrite H1. cbn [script store].
    rewrite (createWaitLoop_expiry r s _ Hq).
    unfold w0, addTrace, emit. cbn [store services deployments podView trace].
    rewrite <- !app_assoc. reflexivity. }
  rewrite Hrun. cbn [fst snd].
  split; [unfold w0; apply cleanup_done|].
  split; [reflexivity|]. split; reflexivity.
Qed.

Lemma createDeploymentAndWait_context_expiry_witness :
  exists cleanupErr,
    cleanup defaultRunner
      (mkWorld []
         (mkStore [] [createDeploymentConfig defaultRunner (CheckImageURL defaultConfig)]
            (inr [])
            [CreateDeployment (createDeploymentConfig defaultRunner (CheckImageURL defaultConfig));
             GoMonitor (15 * Go.Minute) createMonitorDivisor errDeploymentCreatePod;
             WatchDeployments "deployment-deployment"]))
    = (Some cleanupErr,
       snd (createDeploymentAndWait defaultRunner (15 * Go.Minute)
              (mkWorld [quietRound; quietRound; wake (WatchEvent None)] emptyStore)))
    /\ fst (createDeploymentAndWait defaultRunner (15 * Go.Minute)
              (mkWorld [quietRound; quietRound; wake (WatchEvent None)] emptyStore))
       = (None, Some ("failed to clean up after deployment create: " +:+ cleanupErr))
    /\ trace (store (snd (createDeploymentAndWait defaultRunner (15 * Go.Minute)
              (mkWorld [quietRound; quietRound; wake (WatchEvent None)] emptyStore))))
       = [CreateDeployment (createDeploymentConfig defaultRunner (CheckImageURL defaultConfig));
          GoMonitor (15 * Go.Minute) createMonitorDivisor errDeploymentCreatePod;
          WatchDeployments "deployment-deployment"]
         ++ [DeleteService "deployment-svc"; DeleteDeployment "deployment-deployment"]
    /\ Go.contains ("failed to clean up after deployment create: " +:+ cleanupErr)
         "context expired" = false.
Proof.
  apply (createDeploymentAndWait_context_expiry defaultRunner (15 * Go.Minute)
           (mkWorld [quietRound; quietRound; wake (WatchEvent None)] emptyStore)
           quietRound quietRound [wake (WatchEvent None)]).
  - reflexivity.
  - reflexivity.
  - reflexivity.
  - cbn. auto.
  - apply List.Forall_cons; [exact I | apply List.Forall_nil].
Defined.

(** ** An empty image *)

Lemma extends_refl (s : list Tick) (st : Store) : extends st (mkWorld s st).
Proof. exists []. cbn. rewrite app_nil_r. reflexivity. Qed.

Lemma extends_trans (st : Store) (w1 w2 : World) :
  extends st w1 -> extends (store w1) w2 -> extends st w2.
Proof.
  intros (tr1 & H1) (tr2 & H2). exists (tr1 ++ tr2).
  rewrite H2, H1, <- app_assoc. reflexivity.
Qed.

Lemma grows_ret {A} (a : A) : grows (ret a).
Proof. intros [s st]. apply extends_refl. Qed.

Lemma grows_bind {A B} (m : M A) (k : A -> M B) :
  grows m -> (forall a, grows (k a)) -> grows (bind m k).
Proof.
  intros Hm Hk w. unfold bind. specialize (Hm w).
  destruct (m w) as [a w1]. cbn [snd] in Hm.
  exact (extends_trans _ _ _ Hm (Hk a w1)).
Qed.

Lemma grows_call (c : Call) : grows (call c).
Proof. intros w. exists [c]. reflexivity. Qed.

(** A request records its call and nothing else. *)
Lemma request_trace {A} (c : Call) (serve : Tick -> Store -> (string + A) * Store)
    (w : World) :
  (forall t st, trace (snd (serve t st)) = trace st) ->
  trace (store (snd (request c serve w))) = trace (store w) ++ [c].
Proof.
  intros Hserve. unfold request, bind, call, nextTick. cbn [script store].
  destruct (script w) as [|t rest]; [reflexivity|]. cbn [script store].
  specialize (Hserve t (emit c (store w))).
  destruct (serve t (emit c (store w))) as [a st]. exact Hserve.
Qed.

Lemma grows_request {A} (c : Call) (serve : Tick -> Store -> (string + A) * Store) :
  (forall t st, trace (snd (serve t st)) = trace st) ->
  grows (request c serve).
Proof. intros Hserve w. exists [c]. apply request_trace, Hserve. Qed.

Lemma serveCreate_trace (d : Deployment) (t : Tick) (st : Store) :
  trace (snd (serveCreate d t st)) = trace st.
Proof.
  unfold serveCreate. destruct (apiErr t); [reflexivity|].
  destruct (existsb _ _); reflexivity.
Qed.

Lemma serveWatch_trace (t : Tick) (st : Store) :
  trace (snd (serveWatch t st)) = trace st.
Proof. unfold serveWatch. destruct (apiErr t); reflexivity. Qed.

Lemma grows_cleanup (r : CheckRunner) : grows (cleanup r).
Proof.
  intros w. unfold cleanup, bind.
  destruct (deleteAndWait_trace serviceClient (CheckServiceName (cfg r))
              serviceClient_ok w) as (tr1 & Htr1 & _).
  fold (deleteServiceAndWait r) in Htr1.
  destruct (deleteServiceAndWait r w) as [e1 w1]. cbn [snd] in Htr1.
  destruct (deleteAndWait_trace deploymentClient (CheckDeploymentName (cfg r))
              deploymentClient_ok w1) as (tr2 & Htr2 & _).
  fold (deleteDeploymentAndWait r) in Htr2.
  destruct (deleteDeploymentAndWait r w1) as [e2 w2]. cbn [snd] in Htr2.
  assert (Hext : extends (store w) w2).
  { eexists. rewrite Htr2, Htr1, <- app_assoc. reflexivity. }
  destruct e1, e2; cbn; try rewrite ?append_empty, ?prefixed_nonblank; cbn; exact Hext.
Qed.

Lemma grows_decorate (r : CheckRunner) (stage : string) (err : Go.error) :
  grows (decorateDeploymentError r stage err).
Proof.
  destruct err as [e|]; [|apply grows_ret].
  cbn [decorateDeploymentError].
  apply grows_bind; [|intros a; apply grows_ret].
  unfold deploymentPodSummary.
  apply grows_bind; [apply grows_call|].
  intros _ [s st]. cbn [store].
  destruct (podView st) as [msg|items]; [|destruct (Nat.eqb _ 0)]; apply extends_refl.
Qed.

Lemma grows_ctxExit (r : CheckRunner) (stage verb : string) :
  grows (contextDoneBranch r stage verb).
Proof.
  unfold contextDoneBranch. apply grows_bind; [apply grows_cleanup|].
  intros [e|]; [apply grows_ret | apply grows_decorate].
Qed.

Lemma createWaitLoop_extends (r : CheckRunner) (s : list Tick) (st : Store) :
  extends st (snd (createWaitLoop r s st)).
Proof.
  induction s as [|t rest IH]; cbn [createWaitLoop].
  - pose proof (grows_ctxExit r "deployment create" "create" (mkWorld [] st)) as H.
    destruct (contextDoneBranch r "deployment create" "create" (mkWorld [] st)) as [err w1].
    exact H.
  - destruct (woken t) as [[d|]|[e|]]; try exact IH.
    + destruct (deploymentAvailable _ _); [apply extends_refl | exact IH].
    + pose proof (grows_decorate r "deployment create" (Some e) (mkWorld rest st)) as H.
      destruct (decorateDeploymentError r "deployment create" (Some e) (mkWorld rest st))
        as [err w1].
      exact H.
Qed.




(** The update path does refuse a descriptor without containers: once the
    current deployment is fetched, an empty roll-to image ends the update
    with an error before any update request. *)
Lemma updateDeploymentAndWait_rejects_empty_spec (r : CheckRunner) (deadline : Z)
    (w : World) (t0 : Tick) (rest : list Tick) (current : Deployment) :
  CheckImageURLRollTo (cfg r) = "" ->
  script w = t0 :: rest ->
  apiErr t0 = None ->
  find (fun d => String.eqb (deploymentName d) (CheckDeploymentName (cfg r)))
       (deployments (store w)) = Some current ->
  updateDeploymentAndWait r deadline w
  = ((None, Some "updated deployment config did not include containers"),
     mkWorld rest (emit (GetDeployment (CheckDeploymentName (cfg r))) (store w))).
Proof.
  intros Himg Hs H0 Hfind.
  unfold updateDeploymentAndWait, request, bind, call, nextTick. cbn [script store].
  rewrite Hs. cbn [script store]. unfold serveGet. rewrite H0.
  cbn [emit deployments]. rewrite Hfind, Himg. reflexivity.
Qed.

(** ** The pod-error monitor *)

Lemma serveGet_trace (name : string) (t : Tick) (st : Store) :
  trace (snd (serveGet name t st)) = trace st.
Proof.
  unfold serveGet. destruct (apiErr t); [reflexivity|].
  destruct (find _ _); reflexivity.
Qed.

Lemma serveUpdate_trace (d : Deployment) (t : Tick) (st : Store) :
  trace (snd (serveUpdate d t st)) = trace st.
Proof.
  unfold serveUpdate. destruct (apiErr t); [reflexivity|].
  destruct (existsb _ _); reflexivity.
Qed.

Lemma updateWaitLoop_extends (r : CheckRunner) (s : list Tick) (st : Store) :
  extends st (snd (updateWaitLoop r s st)).
Proof.
  induction s as [|t rest IH]; cbn [updateWaitLoop].
  - pose proof (grows_ctxExit r "deployment update" "update" (mkWorld [] st)) as H.
    destruct (contextDoneBranch r "deployment update" "update" (mkWorld [] st)) as [err w1].
    exact H.
  - destruct (woken t) as [[d|]|[e|]]; try exact IH.
    + destruct (rolledPodsAreReady _ _); [apply extends_refl | exact IH].
    + pose proof (grows_decorate r "deployment update" (Some e) (mkWorld rest st)) as H.
      destruct (decorateDeploymentError r "deployment update" (Some e) (mkWorld rest st))
        as [err w1].
      exact H.
Qed.

Lemma bind_run {A B} (m : M A) (k : A -> M B) (w w1 : World) (a : A) :
  m w = (a, w1) -> bind m k w = k a w1.
Proof. intros H. unfold bind. rewrite H. reflexivity. Qed.

(** Once the create request has succeeded, the create wait starts the
    monitor with divisor 2 and the create-stage error. *)
Lemma createDeploymentAndWait_starts_monitor (r : CheckRunner) (deadline : Z)
    (w : World) (t0 : Tick) (rest : list Tick) :
  let config := createDeploymentConfig r (CheckImageURL (cfg r)) in
  script w = t0 :: rest ->
  apiErr t0 = None ->
  ~ In (deploymentName config) (map deploymentName (deployments (store w))) ->
  exists tr,
    trace (store (snd (createDeploymentAndWait r deadline w)))
    = trace (store w)
      ++ [CreateDeployment config; GoMonitor deadline 2 errDeploymentCreatePod] ++ tr.
Proof.
  intros config Hs H0 Hnew.
  pose proof (request_trace (CreateDeployment config) (serveCreate config) w
                (serveCreate_trace config)) as Hfirst.
  assert (Hok : exists w1, request (CreateDeployment config) (serveCreate config) w
                           = (inr config, w1)).
  { unfold request, bind, call, nextTick. cbn [script store]. rewrite Hs.
    cbn [script store]. unfold serveCreate. rewrite H0. cbn [emit deployments].
    rewrite (not_in_existsb _ _ Hnew). eexists. reflexivity. }
  destruct Hok as (w1 & Hreq). rewrite Hreq in Hfirst. cbn [snd] in Hfirst.
  unfold createDeploymentAndWait. fold config.
  rewrite (bind_run _ _ w w1 (inr config) Hreq). cbv beta iota.
  rewrite (bind_run (call (GoMonitor deadline createMonitorDivisor errDeploymentCreatePod))
             _ w1 _ tt eq_refl).
  assert (Hrest : forall (m : M (option Deployment * Go.error)),
             grows m ->
             exists tr,
               trace (store (snd (m (mkWorld (script w1)
                                       (emit (GoMonitor deadline createMonitorDivisor
                                                errDeploymentCreatePod) (store w1))))))
               = trace (store w)
                 ++ [CreateDeployment config; GoMonitor deadline 2 errDeploymentCreatePod]
                 ++ tr).
  { intros m Hm. destruct (Hm (mkWorld (script w1)
                                 (emit (GoMonitor deadline createMonitorDivisor
                                          errDeploymentCreatePod) (store w1))))
      as (tr & Htr).
    exists tr. rewrite Htr. cbn [store emit trace]. rewrite Hfirst, <- !app_assoc.
    reflexivity. }
  apply Hrest.
  apply grows_bind; [apply grows_request, serveWatch_trace|].
  intros [e|u]; [apply grows_ret|]. intros w3. apply createWaitLoop_extends.
Qed.

(** Once the deployment has been fetched and the update request has
    succeeded, the update wait starts the monitor with divisor 3 and the
    update-stage error. *)
Lemma updateDeploymentAndWait_starts_monitor (r : CheckRunner) (deadline : Z)
    (w : World) (t0 t1 : Tick) (rest : list Tick) (current : Deployment) :
  CheckImageURLRollTo (cfg r) <> "" ->
  script w = t0 :: t1 :: rest ->
  apiErr t0 = None ->
  apiErr t1 = None ->
  find (fun d => String.eqb (deploymentName d) (CheckDeploymentName (cfg r)))
       (deployments (store w)) = Some current ->
  exists updated tr,
    trace (store (snd (updateDeploymentAndWait r deadline w)))
    = trace (store w)
      ++ [GetDeployment (CheckDeploymentName (cfg r)); UpdateDeployment updated;
          GoMonitor deadline 3 errDeploymentUpdatePod] ++ tr.
Proof.
  intros Himg Hs H0 H1 Hfind.
  assert (Hin : existsb (String.eqb (deploymentName current))
                  (map deploymentName (deployments (store w))) = true).
  { apply find_some in Hfind as [Hin _]. apply existsb_exists.
    exists (deploymentName current). split; [apply in_map; exact Hin|].
    apply String.eqb_refl. }
  set (name := CheckDeploymentName (cfg r)) in *.
  assert (Hget : request (GetDeployment name) (serveGet name) w
                 = (inr current, mkWorld (t1 :: rest) (emit (GetDeployment name) (store w)))).
  { unfold request, bind, call, nextTick. cbn [script store]. rewrite Hs.
    cbn [script store]. unfold serveGet. rewrite H0. cbn [emit deployments].
    rewrite Hfind. reflexivity. }
  unfold updateDeploymentAndWait. fold name.
  rewrite (bind_run _ _ _ _ _ Hget). cbv beta iota.
  unfold createDeploymentConfig. rewrite (nonempty_length _ Himg).
  cbn [Spec Template TemplateSpec Containers List.length Nat.eqb
       Strategy MinReadySeconds SpecReplicas].
  set (updated := mkDeployment _ _ _).
  exists updated.
  set (st1 := emit (GetDeployment name) (store w)).
  assert (Hupd : request (UpdateDeployment updated) (serveUpdate updated)
                   (mkWorld (t1 :: rest) st1)
                 = (inr updated,
                    mkWorld rest
                      (snd (serveUpdate updated t1 (emit (UpdateDeployment updated) st1))))).
  { unfold request, bind, call, nextTick. cbn [script store].
    unfold serveUpdate. rewrite H1. unfold st1. cbn [emit deployments].
    change (deploymentName updated) with (deploymentName current).
    rewrite Hin. reflexivity. }
  rewrite (bind_run _ _ _ _ _ Hupd). cbv beta iota.
  rewrite (bind_run (call (GoMonitor deadline updateMonitorDivisor errDeploymentUpdatePod))
             _ _ _ tt eq_refl).
  cbn [script store].
  assert (Hrest : forall (m : M (option Deployment * Go.error)) (s : list Tick),
             grows m ->
             exists tr,
               trace (store (snd (m (mkWorld s
                 (emit (GoMonitor deadline updateMonitorDivisor errDeploymentUpdatePod)
                    (snd (serveUpdate updated t1 (emit (UpdateDeployment updated) st1))))))))
               = trace (store w)
                 ++ [GetDeployment name; UpdateDeployment updated;
                     GoMonitor deadline 3 errDeploymentUpdatePod] ++ tr).
  { intros m s0 Hm.
    destruct (Hm (mkWorld s0
                (emit (GoMonitor deadline updateMonitorDivisor errDeploymentUpdatePod)
                   (snd (serveUpdate updated t1 (emit (UpdateDeployment updated) st1))))))
      as (tr & Htr).
    exists tr. rewrite Htr. cbn [store emit trace]. rewrite serveUpdate_trace.
    unfold st1. cbn [emit trace]. rewrite <- !app_assoc. reflexivity. }
  apply Hrest.
  apply grows_bind; [apply grows_request, serveWatch_trace|].
  intros [e|u]; [apply grows_ret|]. intros w3. apply updateWaitLoop_extends.
Qed.

(** C1, as the spec words it, fails in both stages: the monitor is given a
    single observation, made inside its window, and that one bad pod is
    enough for the error to go onto the result channel: with the create
    arguments (8 of 15 minutes gone) and with the update arguments (11 of
    15 minutes gone). *)
Lemma monitor_surfaces_single_observation :
  monitorDeploymentPodErrors defaultRunner (15 * Go.Minute) createMonitorDivisor
    errDeploymentCreatePod [mkObservation (8 * Go.Minute) (inr [backoffPod])]
  = MonitorSent (backoffMessage errDeploymentCreatePod)
  /\ (List.length [mkObservation (8 * Go.Minute) (inr [backoffPod])] < 2)%nat
  /\ monitorDeploymentPodErrors defaultRunner (15 * Go.Minute) updateMonitorDivisor
       errDeploymentUpdatePod [mkObservation (11 * Go.Minute) (inr [backoffPod])]
     = MonitorSent (backoffMessage errDeploymentUpdatePod)
  /\ (List.length [mkObservation (11 * Go.Minute) (inr [backoffPod])] < 3)%nat.
Proof. vm_compute. repeat split; lia. Qed.

(** C1 (amended): the 2 of the create wait and the 3 of the update wait are
    the divisor of the monitor's time gate, not a count of bad pods.  An
    observation is evaluated exactly when the divisor is positive and the
    time left until the deadline is below the time limit divided by it (the
    last half of the budget for create, the last third for update); the
    monitor sends a pod error exactly when some observation is evaluated and
    found bad, and it sends the error of the first such observation: one
    bad observation is enough. *)
Theorem monitor_sends_first_bad_observation (r : CheckRunner) (deadline divisor : Z)
    (reason : string) (s : list Observation) :
  (forall podErr,
     monitorDeploymentPodErrors r deadline divisor reason s = MonitorSent podErr
     <-> exists before o after,
           s = before ++ o :: after
           /\ Forall (passedOver r deadline divisor reason) before
           /\ evaluating r deadline divisor o = true
           /\ checkDeploymentPodEvent reason (obsPods o) = Some podErr)
  /\ (forall o,
        evaluating r deadline divisor o = true
        <-> 0 < divisor
            /\ deadline - obsClock o < Z.quot (CheckTimeLimit (cfg r)) divisor)
  /\ createMonitorDivisor = 2 /\ updateMonitorDivisor = 3.
Proof.
  split; [|split; [|split; reflexivity]].
  - intros podErr. induction s as [|o rest IH]; cbn [monitorDeploymentPodErrors].
    + split; [discriminate|].
      intros (before & o & after & Heq & _). destruct before; discriminate.
    + destruct (evaluating r deadline divisor o) eqn:Hev.
      * destruct (checkDeploymentPodEvent reason (obsPods o)) as [e|] eqn:Hck.
        -- split.
           ++ intros H. injection H as <-.
              exists [], o, rest. repeat split; auto.
           ++ intros (before & o' & after & Heq & Hpass & Hev' & Hck').
              destruct before as [|b before]; cbn in Heq; injection Heq as Ho Hrest; subst.
              ** congruence.
              ** inversion Hpass as [|? ? [Hb|Hb] _]; subst; congruence.
        -- rewrite IH. split.
           ++ intros (before & o' & after & -> & Hpass & Hev' & Hck').
              exists (o :: before), o', after. repeat split; auto.
              apply List.Forall_cons; [right; exact Hck | exact Hpass].
           ++ intros (before & o' & after & Heq & Hpass & Hev' & Hck').
              destruct before as [|b before]; cbn in Heq; injection Heq as Ho Hrest; subst.
              ** congruence.
              ** exists before, o', after. inversion Hpass; subst. repeat split; auto.
      * rewrite IH. split.
        -- intros (before & o' & after & -> & Hpass & Hev' & Hck').
           exists (o :: before), o', after. repeat split; auto.
           apply List.Forall_cons; [left; exact Hev | exact Hpass].
        -- intros (before & o' & after & Heq & Hpass & Hev' & Hck').
           destruct before as [|b before]; cbn in Heq; injection Heq as Ho Hrest; subst.
           ** congruence.
           ** exists before, o', after. inversion Hpass; subst. repeat split; auto.
  - intros o. unfold evaluating. rewrite andb_true_iff.
    rewrite Z.gtb_lt, Z.ltb_lt. reflexivity.
Qed.

(** * Further properties *)

(** ** Descriptors *)

(** X1: for non-empty images, the selector of a deployment descriptor is the
    label set of the pod template of every descriptor of the same run,
    whatever the image; that label set has exactly the two labels
    [deployment-timestamp] (the run's value) and [source], and the label
    selector used to list the run's pods is that timestamp label. *)
Theorem run_labels_consistent (r : CheckRunner) (image image' : string) :
  image <> "" -> image' <> "" ->
  let labels := Labels (TemplateMeta (Template (Spec (createDeploymentConfig r image)))) in
  Selector (Spec (createDeploymentConfig r image'))
  = Some labels
  /\ labels !! "source" = Some "kuberhealthy"
  /\ size labels = 2%nat
  /\ exists value,
       labels !! deploymentLabelKey = Some value
       /\ runLabelSelector r = deploymentLabelKey +:+ "=" +:+ value.
Proof.
  intros Hi Hi' labels. subst labels.
  unfold createDeploymentConfig.
  rewrite (nonempty_length _ Hi), (nonempty_length _ Hi').
  cbn [Spec Template TemplateMeta Selector Labels].
  unfold runLabels.
  split; [reflexivity|].
  split; [apply lookup_insert_eq|].
  split.
  - rewrite map_size_insert_None.
    + rewrite map_size_insert_None; [reflexivity | apply lookup_empty].
    + rewrite lookup_insert_ne; [apply lookup_empty | discriminate].
  - eexists. split.
    + rewrite lookup_insert_ne; [apply lookup_insert_eq | discriminate].
    + reflexivity.
Qed.

Lemma run_labels_consistent_witness :
  let labels :=
    Labels (TemplateMeta (Template (Spec (createDeploymentConfig defaultRunner
                                            "nginxinc/nginx-unprivileged:1.17.8")))) in
  Selector (Spec (createDeploymentConfig defaultRunner "nginxinc/nginx-unprivileged:1.17.9"))
  = Some labels
  /\ labels !! "source" = Some "kuberhealthy"
  /\ size labels = 2%nat
  /\ exists value,
       labels !! deploymentLabelKey = Some value
       /\ runLabelSelector defaultRunner = deploymentLabelKey +:+ "=" +:+ value.
Proof.
  apply (run_labels_consistent defaultRunner "nginxinc/nginx-unprivileged:1.17.8"
           "nginxinc/nginx-unprivileged:1.17.9"); discriminate.
Defined.

(** X2: the service built for the labels of a deployment descriptor selects
    exactly the pods of that deployment, lives in its namespace, and has one
    TCP port that maps the load-balancer port to the one port the
    deployment's container exposes. *)
Theorem service_matches_deployment (r : CheckRunner) (image : string) :
  image <> "" ->
  let d := createDeploymentConfig r image in
  let svc := createServiceConfig r (Labels (TemplateMeta (Template (Spec d)))) in
  Some (ServiceSelector (ServiceSpecOf svc)) = Selector (Spec d)
  /\ Namespace (ServiceMeta svc) = Namespace (DeploymentMeta d)
  /\ ServiceKind (ServiceSpecOf svc) = ServiceTypeClusterIP
  /\ exists port container,
       ServicePorts (ServiceSpecOf svc) = [port]
       /\ Containers (TemplateSpec (Template (Spec d))) = [container]
       /\ Ports container = [IntVal (TargetPort port)]
       /\ Port port = CheckLoadBalancerPort (cfg r)
       /\ Protocol port = ProtocolTCP.
Proof.
  intros Hi d svc. subst d svc.
  unfold createDeploymentConfig. rewrite (nonempty_length _ Hi).
  cbn. repeat split. eexists _, _. repeat split.
Qed.

Lemma service_matches_deployment_witness :
  let d := createDeploymentConfig defaultRunner "nginx:latest" in
  let svc := createServiceConfig defaultRunner (Labels (TemplateMeta (Template (Spec d)))) in
  Some (ServiceSelector (ServiceSpecOf svc)) = Selector (Spec d)
  /\ Namespace (ServiceMeta svc) = Namespace (DeploymentMeta d)
  /\ ServiceKind (ServiceSpecOf svc) = ServiceTypeClusterIP
  /\ exists port container,
       ServicePorts (ServiceSpecOf svc) = [port]
       /\ Containers (TemplateSpec (Template (Spec d))) = [container]
       /\ Ports container = [IntVal (TargetPort port)]
       /\ Port port = CheckLoadBalancerPort (cfg defaultRunner)
       /\ Protocol port = ProtocolTCP.
Proof.
  apply (service_matches_deployment defaultRunner "nginx:latest"). discriminate.
Defined.

(** ** Status predicates *)

(** X3: the two predicates never hold of the same deployment for the same
    replica count: availability needs observed generation 1, a completed
    rollout needs it above 1. *)
Theorem available_excludes_rolled (d : option Deployment) (replicas : Z) :
  deploymentAvailable d replicas = true -> rolledPodsAreReady d replicas = false.
Proof.
  destruct d as [dep|]; [|discriminate].
  unfold deploymentAvailable, rolledPodsAreReady. rewrite availableLoop_spec.
  intros H. apply andb_true_iff in H as [_ Hgen]. apply Z.eqb_eq in Hgen.
  cbv zeta. rewrite Hgen. change (1 <=? 1) with true.
  destruct (negb (Replicas (Status dep) =? Go.int32 replicas)); [reflexivity|].
  destruct (negb (UpdatedReplicas (Status dep) =? Go.int32 replicas)); [reflexivity|].
  destruct (negb (AvailableReplicas (Status dep) =? Go.int32 replicas)); [reflexivity|].
  destruct (negb (ReadyReplicas (Status dep) =? Go.int32 replicas)); [reflexivity|].
  destruct (UnavailableReplicas (Status dep) >=? 1); reflexivity.
Qed.

Lemma available_excludes_rolled_witness :
  rolledPodsAreReady (Some (mkDeployment zeroMeta zeroSpec availableStatus)) 2 = false.
Proof.
  apply (available_excludes_rolled (Some (mkDeployment zeroMeta zeroSpec availableStatus)) 2).
  reflexivity.
Defined.

(** ** The service address *)

(** X4: [getServiceClusterIP] returns a nil error exactly when it returns a
    non-empty address; that address is the cluster IP of the object the
    request fetched (an object [serviceAvailable] accepts), never that of
    the object passed in, and the probe never rejects it as blank. *)
Theorem getServiceClusterIP_address (service : option Service)
    (fetched : string + option Service) :
  (snd (getServiceClusterIP service fetched) = None
   <-> fst (getServiceClusterIP service fetched) <> "")
  /\ (snd (getServiceClusterIP service fetched) = None ->
      service <> None
      /\ (exists svc, fetched = inr (Some svc)
                      /\ fst (getServiceClusterIP service fetched)
                         = ClusterIP (ServiceSpecOf svc)
                      /\ serviceAvailable (Some svc) = true)
      /\ forall r w,
           fst (fst (requestServiceEndpointExit r
                       (fst (getServiceClusterIP service fetched)) w))
           <> ExitBlankAddress)
  /\ (forall other, service <> None ->
        getServiceClusterIP (Some other) fetched = getServiceClusterIP service fetched).
Proof.
  split; [|split].
  - unfold getServiceClusterIP.
    destruct service as [s|]; [|cbn; split; [discriminate | congruence]].
    destruct fetched as [e|[svc|]]; cbn [fst snd];
      try (split; [discriminate | congruence]).
    destruct (ClusterIP (ServiceSpecOf svc)) as [|c ip]; cbn;
      (split; [intros Hx | intros Hx]); try discriminate; try congruence; auto.
  - unfold getServiceClusterIP.
    destruct service as [s|]; [|discriminate].
    destruct fetched as [e|[svc|]]; try discriminate.
    unfold serviceAvailable.
    destruct (ClusterIP (ServiceSpecOf svc)) as [|c ip] eqn:Hip; [discriminate|].
    cbn [String.length Nat.eqb negb fst snd]. intros _.
    split; [discriminate|]. split.
    + exists svc. rewrite Hip. repeat split.
    + intros r w Hexit.
      pose proof (requestServiceEndpointExit_facts r (String c ip) w ltac:(discriminate))
        as (tr & w0 & _ & _ & H).
      rewrite Hexit in H. exact H.
  - intros other Hs. destruct service; [reflexivity | contradiction].
Qed.

(** ** The HTTP probe *)

Lemma hasPrefix_literal (p s : string) : Go.hasPrefix (p +:+ s) p = true.
Proof.
  induction p as [|c p IH]; [destruct s; reflexivity|].
  rewrite append_cons. cbn [Go.hasPrefix]. rewrite Ascii.eqb_refl. exact IH.
Qed.

(** X5: the address the probe requests always starts with [http://], and
    normalising is idempotent: an address that already has the prefix is
    requested as it is. *)
Theorem normalizeAddress_idempotent (address : string) :
  Go.hasPrefix (normalizeAddress address) "http://" = true
  /\ normalizeAddress (normalizeAddress address) = normalizeAddress address
  /\ (Go.hasPrefix address "http://" = true -> normalizeAddress address = address).
Proof.
  assert (Hp : Go.hasPrefix (normalizeAddress address) "http://" = true).
  { unfold normalizeAddress.
    destruct (Go.hasPrefix address "http://") eqn:E; cbn [negb]; [exact E|].
    apply hasPrefix_literal. }
  split; [exact Hp|]. split.
  - unfold normalizeAddress at 1. rewrite Hp. reflexivity.
  - intros H. unfold normalizeAddress. rewrite H. reflexivity.
Qed.

(** The calls of [cleanup]: the service delete, service polling, the
    deployment delete, deployment polling. *)
Lemma cleanup_trace (r : CheckRunner) (w : World) :
  exists tr1 tr2,
    trace (store (snd (cleanup r w)))
    = trace (store w)
      ++ DeleteService (CheckServiceName (cfg r)) :: tr1
      ++ DeleteDeployment (CheckDeploymentName (cfg r)) :: tr2
    /\ Forall (pollCall serviceClient (CheckServiceName (cfg r))) tr1
    /\ Forall (pollCall deploymentClient (CheckDeploymentName (cfg r))) tr2.
Proof.
  unfold cleanup, bind.
  destruct (deleteAndWait_trace serviceClient (CheckServiceName (cfg r))
              serviceClient_ok w) as (tr1 & Htr1 & Hall1).
  fold (deleteServiceAndWait r) in Htr1.
  destruct (deleteServiceAndWait r w) as [e1 w1]. cbn [snd] in Htr1.
  destruct (deleteAndWait_trace deploymentClient (CheckDeploymentName (cfg r))
              deploymentClient_ok w1) as (tr2 & Htr2 & Hall2).
  fold (deleteDeploymentAndWait r) in Htr2.
  destruct (deleteDeploymentAndWait r w1) as [e2 w2]. cbn [snd] in Htr2.
  exists tr1, tr2. split; [|split; assumption].
  assert (Hw2 : trace (store w2)
                = trace (store w)
                  ++ DeleteService (CheckServiceName (cfg r)) :: tr1
                  ++ DeleteDeployment (CheckDeploymentName (cfg r)) :: tr2).
  { rewrite Htr2, Htr1, <- app_assoc. reflexivity. }
  destruct e1, e2; cbn; try rewrite ?append_empty, ?prefixed_nonblank; cbn; exact Hw2.
Qed.

Lemma pollCall_not_get (rc : ResourceClient) (name : string) (c : Call) :
  (rc = serviceClient \/ rc = deploymentClient) ->
  pollCall rc name c -> isHttpGet c = false.
Proof.
  intros [-> | ->] [-> | [-> | ->]]; reflexivity.
Qed.

Lemma cleanup_no_get (r : CheckRunner) (w : World) :
  exists tr,
    trace (store (snd (cleanup r w))) = trace (store w) ++ tr
    /\ Forall (fun c => isHttpGet c = false) tr.
Proof.
  destruct (cleanup_trace r w) as (tr1 & tr2 & Htr & H1 & H2).
  eexists. split; [exact Htr|].
  apply List.Forall_cons; [reflexivity|].
  apply Forall_app. split.
  - eapply List.Forall_impl; [|exact H1]. intros c Hc.
    eapply pollCall_not_get; [left; reflexivity | exact Hc].
  - apply List.Forall_cons; [reflexivity|].
    eapply List.Forall_impl; [|exact H2]. intros c Hc.
    eapply pollCall_not_get; [right; reflexivity | exact Hc].
Qed.

Lemma getsBounded_others (address : string) (tr : list Call) :
  Forall (fun c => isHttpGet c = false) tr -> getsBounded address 0 tr.
Proof.
  intros H. split.
  - induction H as [|c l Hc _ IH]; [reflexivity|].
    cbn [List.filter]. rewrite Hc. exact IH.
  - intros a Hin. rewrite List.Forall_forall in H. specialize (H _ Hin). discriminate.
Qed.

Lemma getsBounded_step (address : string) (budget : nat) (d : Z) (tr : list Call) :
  getsBounded address budget tr ->
  getsBounded address (S budget) (HttpGet address :: Sleep d :: tr).
Proof.
  intros [Hn Ha]. split.
  - cbn [List.filter isHttpGet List.length]. lia.
  - intros a [Heq | [Heq | Hin]]; [congruence | discriminate | auto].
Qed.

Lemma getsBounded_weaken (address : string) (m n : nat) (tr : list Call) :
  (m <= n)%nat -> getsBounded address m tr -> getsBounded address n tr.
Proof. intros Hmn [Hn Ha]. split; [lia | exact Ha]. Qed.

Lemma requestLoop_gets (r : CheckRunner) (address : string) (deadline : Z)
    (s : list Tick) :
  forall (attempt : Z) (st : Store),
    1 <= attempt <= 11 ->
    exists tr,
      trace (store (snd (requestLoop r address deadline attempt s st))) = trace st ++ tr
      /\ getsBounded address (Z.to_nat (11 - attempt)) tr.
Proof.
  assert (Hcleanup : forall s0 st n,
             exists tr,
               trace (store (snd (cleanup r (mkWorld s0 st)))) = trace st ++ tr
               /\ getsBounded address n tr).
  { intros s0 st n. destruct (cleanup_no_get r (mkWorld s0 st)) as (tr & Htr & Hall).
    exists tr. split; [exact Htr|].
    apply (getsBounded_weaken address 0 n); [lia | apply getsBounded_others, Hall]. }
  induction s as [|t rest IH]; intros attempt st Ha; cbn [requestLoop].
  - specialize (Hcleanup [] st (Z.to_nat (11 - attempt))).
    destruct (cleanup r (mkWorld [] st)) as [[e|] w']; exact Hcleanup.
  - destruct (clock t >? deadline).
    + specialize (Hcleanup rest st (Z.to_nat (11 - attempt))).
      destruct (cleanup r (mkWorld rest st)) as [[e|] w']; exact Hcleanup.
    + destruct (Z.gtb_spec attempt requestBackoffMaxRetries) as [Hmax|Hmax].
      * exists []. cbn. rewrite app_nil_r. split; [reflexivity|].
        split; [cbn; lia | intros a []].
      * unfold requestBackoffMaxRetries in Hmax.
        assert (Hnext : 1 <= attempt + 1 <= 11) by lia.
        assert (Hbudget : Z.to_nat (11 - attempt) = S (Z.to_nat (11 - (attempt + 1))))
          by lia.
        assert (Hretry : exists tr,
                   trace (store (snd (requestLoop r address deadline (attempt + 1) rest
                                        (emit (Sleep (attempt * 5 * Go.Second))
                                              (emit (HttpGet address) st)))))
                   = trace st ++ tr
                   /\ getsBounded address (Z.to_nat (11 - attempt)) tr).
        { destruct (IH (attempt + 1)
                      (emit (Sleep (attempt * 5 * Go.Second)) (emit (HttpGet address) st))
                      Hnext) as (tr & Htr & Hb).
          exists (HttpGet address :: Sleep (attempt * 5 * Go.Second) :: tr).
          split.
          - rewrite Htr. cbn [emit trace]. rewrite <- !app_assoc. reflexivity.
          - rewrite Hbudget. apply getsBounded_step, Hb. }
        destruct (httpGet t) as [code|msg]; [|exact Hretry].
        destruct (code =? StatusOK); [|exact Hretry].
        exists [HttpGet address]. split; [reflexivity|].
        split; [rewrite Hbudget; cbn; lia|].
        intros a [Heq | []]. congruence.
Qed.

(** The probe is its retry loop, started at attempt one on what is left of
    the script after the first clock reading. *)
(** X6: one call of the probe makes at most ten GET requests, all of them
    to the normalised address, whatever the endpoint, the clock and the
    cluster do. *)
Theorem requestServiceEndpoint_get_budget (r : CheckRunner) (address : string)
    (w : World) :
  address <> "" ->
  exists tr,
    trace (store (snd (requestServiceEndpoint r address w))) = trace (store w) ++ tr
    /\ (List.length (List.filter isHttpGet tr) <= 10)%nat
    /\ forall a, In (HttpGet a) tr -> a = normalizeAddress address.
Proof.
  intros Ha.
  rewrite requestServiceEndpoint_run. cbn [snd].
  rewrite (requestServiceEndpointExit_loop r address w Ha).
  destruct (requestLoop_gets r (normalizeAddress address)
              (match script w with [] => 0 | t :: _ => clock t end + requestBackoffTimeout)
              (List.tl (script w)) 1 (store w) ltac:(lia)) as (tr & Htr & Hn & Hall).
  exists tr. auto.
Qed.

Lemma requestServiceEndpoint_get_budget_witness :
  exists tr,
    trace (store (snd (requestServiceEndpoint defaultRunner "10.0.0.7"
                         (mkWorld (repeat (round 0 (GetStatus StatusBadGateway)) 12)
                                  emptyStore))))
    = trace emptyStore ++ tr
    /\ (List.length (List.filter isHttpGet tr) <= 10)%nat
    /\ forall a, In (HttpGet a) tr -> a = normalizeAddress "10.0.0.7".
Proof.
  apply (requestServiceEndpoint_get_budget defaultRunner "10.0.0.7"). discriminate.
Defined.

Lemma requestLoop_success (r : CheckRunner) (address : string) (deadline : Z)
    (fails : list Tick) :
  forall (attempt : Z) (st : Store) (ok : Tick) (rest : list Tick),
    1 <= attempt ->
    attempt + Z.of_nat (List.length fails) <= 10 ->
    Forall (retryRound deadline) fails ->
    clock ok <= deadline ->
    httpGet ok = GetStatus StatusOK ->
    requestLoop r address deadline attempt (fails ++ ok :: rest) st
    = ((ExitSuccess, None),
       mkWorld rest
         (addTrace st (backoffCalls address attempt (List.length fails)
                       ++ [HttpGet address]))).
Proof.
  induction fails as [|t fails IH]; intros attempt st ok rest H1 Hle Hf Hok Hget.
  - cbn [app requestLoop List.length backoffCalls].
    destruct (Z.gtb_spec (clock ok) deadline); [lia|].
    destruct (Z.gtb_spec attempt requestBackoffMaxRetries) as [Hmax|_];
      [unfold requestBackoffMaxRetries in Hmax; cbn in Hle; lia|].
    rewrite Hget, Z.eqb_refl. reflexivity.
  - inversion Hf as [|? ? [Hclock Hnot] Hf']; subst.
    cbn [app requestLoop List.length backoffCalls].
    destruct (Z.gtb_spec (clock t) deadline); [lia|].
    destruct (Z.gtb_spec attempt requestBackoffMaxRetries) as [Hmax|_];
      [unfold requestBackoffMaxRetries in Hmax; cbn [List.length] in Hle; lia|].
    assert (Hnext : requestLoop r address deadline (attempt + 1) (fails ++ ok :: rest)
                      (emit (Sleep (attempt * 5 * Go.Second)) (emit (HttpGet address) st))
                    = ((ExitSuccess, None),
                       mkWorld rest
                         (addTrace st
                            ((HttpGet address :: Sleep (attempt * 5 * Go.Second)
                              :: backoffCalls address (attempt + 1) (List.length fails))
                             ++ [HttpGet address])))).
    { rewrite (IH (attempt + 1) _ ok rest); try assumption;
        [|lia | cbn [List.length] in Hle; lia].
      rewrite !emit_addTrace, !addTrace_app. reflexivity. }
    destruct (httpGet t) as [code|msg]; [|exact Hnext].
    destruct (Z.eqb_spec code StatusOK) as [->|_]; [congruence | exact Hnext].
Qed.

(** X7: when the first [k] GETs (k at most 9) fail or answer another status
    than 200 and the next one answers 200, all inside the three-minute
    window, the probe returns nil without cleanup; it has slept 5, 10, ...,
    5k seconds after the failed attempts (linear backoff) and made exactly
    k + 1 GETs. *)
Theorem requestServiceEndpoint_succeeds_after_retries (r : CheckRunner)
    (address : string) (w : World) (t0 : Tick) (fails : list Tick) (ok : Tick)
    (rest : list Tick) :
  address <> "" ->
  script w = t0 :: fails ++ ok :: rest ->
  (List.length fails <= 9)%nat ->
  Forall (retryRound (clock t0 + requestBackoffTimeout)) fails ->
  clock ok <= clock t0 + requestBackoffTimeout ->
  httpGet ok = GetStatus StatusOK ->
  requestServiceEndpoint r address w
  = (None,
     mkWorld rest
       (addTrace (store w)
          (backoffCalls (normalizeAddress address) 1 (List.length fails)
           ++ [HttpGet (normalizeAddress address)]))).
Proof.
  intros Ha Hs Hlen Hf Hok Hget.
  rewrite requestServiceEndpoint_run, (requestServiceEndpointExit_loop r address w Ha).
  rewrite Hs. cbn [List.tl].
  rewrite (requestLoop_success r (normalizeAddress address) _ fails 1 (store w) ok rest);
    try assumption; [reflexivity | lia | lia].
Qed.

Lemma requestServiceEndpoint_succeeds_after_retries_witness :
  requestServiceEndpoint defaultRunner "10.0.0.7"
    (mkWorld (round 0 (GetStatus StatusOK)
              :: repeat (round Go.Minute (GetStatus StatusBadGateway)) 5
              ++ round (2 * Go.Minute) (GetStatus StatusOK) :: []) emptyStore)
  = (None,
     mkWorld []
       (addTrace emptyStore
          (backoffCalls (normalizeAddress "10.0.0.7") 1 5
           ++ [HttpGet (normalizeAddress "10.0.0.7")]))).
Proof.
  apply (requestServiceEndpoint_succeeds_after_retries defaultRunner "10.0.0.7"
           (mkWorld (round 0 (GetStatus StatusOK)
                     :: repeat (round Go.Minute (GetStatus StatusBadGateway)) 5
                     ++ round (2 * Go.Minute) (GetStatus StatusOK) :: []) emptyStore)
           (round 0 (GetStatus StatusOK))
           (repeat (round Go.Minute (GetStatus StatusBadGateway)) 5)
           (round (2 * Go.Minute) (GetStatus StatusOK)) []).
  - discriminate.
  - reflexivity.
  - simpl. lia.
  - repeat (apply List.Forall_cons; [split; [vm_compute; discriminate | discriminate]|]).
    apply List.Forall_nil.
  - vm_compute. discriminate.
  - reflexivity.
Defined.



(** ** Delete and wait, and cleanup: what is removed *)

Lemma filter_other_idempotent {A} (named : A -> string) (name : string) (l : list A) :
  List.filter (fun x => negb (String.eqb (named x) name))
    (List.filter (fun x => negb (String.eqb (named x) name)) l)
  = List.filter (fun x => negb (String.eqb (named x) name)) l.
Proof.
  induction l as [|x l IH]; [reflexivity|].
  cbn [List.filter]. destruct (negb (String.eqb (named x) name)) eqn:E; [|exact IH].
  cbn [List.filter]. rewrite E, IH. reflexivity.
Qed.

Lemma filter_other_absent {A} (named : A -> string) (name : string) (l : list A) :
  ~ In name (map named l) ->
  List.filter (fun x => negb (String.eqb (named x) name)) l = l.
Proof.
  induction l as [|x l IH]; intros Hn; [reflexivity|].
  cbn [List.filter]. destruct (String.eqb_spec (named x) name) as [Heq|_].
  - exfalso. apply Hn. left. exact Heq.
  - cbn [negb]. rewrite IH; [reflexivity|]. intros Hin. apply Hn. right. exact Hin.
Qed.

Lemma filter_other_gone {A} (named : A -> string) (name : string) (l : list A) :
  ~ In name (map named (List.filter (fun x => negb (String.eqb (named x) name)) l)).
Proof.
  induction l as [|x l IH]; [intros []|].
  cbn [List.filter]. destruct (String.eqb_spec (named x) name) as [_|Hne]; [exact IH|].
  cbn [negb map]. intros [Heq|Hin]; [congruence | exact (IH Hin)].
Qed.

Lemma serviceClient_removes : ClientRemoves serviceClient.
Proof.
  split.
  - intros n st. unfold absent. cbn.
    pose proof (filter_other_gone (fun x : string => x) n (services st)) as H.
    rewrite map_id in H. exact H.
  - reflexivity.
  - intros n st Ha. unfold absent in Ha. cbn in *. unfold withoutService.
    rewrite (filter_other_absent (fun x : string => x) n (services st));
      [destruct st; reflexivity | rewrite map_id; exact Ha].
Qed.

Lemma deploymentClient_removes : ClientRemoves deploymentClient.
Proof.
  split.
  - intros n st. unfold absent. cbn. apply filter_other_gone.
  - reflexivity.
  - intros n st Ha. unfold absent in Ha. cbn in *. unfold withoutDeployment.
    rewrite (filter_other_absent deploymentName n (deployments st) Ha).
    destruct st; reflexivity.
Qed.

Section DeleteAndWaitEffects.

Variable rc : ResourceClient.
Variable name : string.
Hypothesis rc_ok : ClientOk rc.

Lemma rescan_not_found (t : Tick) (items : list string) (st : Store) :
  fst (rescan rc name t items st) = false ->
  snd (rescan rc name t items st) = st /\ ~ In name items.
Proof.
  induction items as [|item rest IH]; cbn [rescan]; intros H.
  - split; [reflexivity | intros []].
  - destruct (String.eqb_spec item name) as [->|Hne]; [discriminate|].
    destruct (IH H) as [Hst Hnot]. split; [exact Hst|].
    intros [Heq|Hin]; [congruence | exact (Hnot Hin)].
Qed.

Lemma listItems_none_absent (st : Store) :
  ~ In name (listItems rc name st) -> absent rc name st.
Proof.
  unfold absent, listItems. intros Hnot Hin. apply Hnot.
  apply filter_In. split; [exact Hin | apply String.eqb_refl].
Qed.

(** The polling loop returns nil only from a store in which the object is
    absent. *)
Lemma waitDeleted_nil_absent (s : list Tick) (st : Store) :
  fst (waitDeleted rc name s st) = None ->
  absent rc name (store (snd (waitDeleted rc name s st))).
Proof.
  revert st. induction s as [|t rest IH]; intros st; cbn [waitDeleted]; [discriminate|].
  destruct (apiErr t); [apply IH|].
  pose proof (rescan_not_found t
                (listItems rc name (emit (listCall rc name) (emit (Sleep (5 * Go.Second)) st)))
                (emit (listCall rc name) (emit (Sleep (5 * Go.Second)) st))) as Hscan.
  destruct (rescan rc name t _ _) as [found st2].
  destruct found; cbn [negb fst snd] in *; [apply IH|].
  intros _. destruct (Hscan eq_refl) as [-> Hnot].
  cbn [store]. apply listItems_none_absent, Hnot.
Qed.

Lemma deleteAndWait_nil_absent (w : World) :
  fst (deleteAndWait rc name w) = None ->
  absent rc name (store (snd (deleteAndWait rc name w))).
Proof.
  unfold deleteAndWait, bind.
  destruct (deleteResource rc name w) as [e w1].
  apply waitDeleted_nil_absent.
Qed.

(** Whatever holds of the store, survives recording a call and survives
    removing the object, survives a delete-and-wait. *)
Lemma waitDeleted_preserves (P : Store -> Prop) :
  (forall st c, P st -> P (emit c st)) ->
  (forall st, P st -> P (removed rc name st)) ->
  forall s st, P st -> P (store (snd (waitDeleted rc name s st))).
Proof.
  intros Hemit Hrem.
  assert (Hserve : forall t st, P st -> P (snd (serveDelete rc name t st))).
  { intros t st Hp. unfold serveDelete. destruct (apiErr t); [exact Hp|].
    destruct (existsb _ _); [|exact Hp]. destruct (lingers t); cbn; auto. }
  assert (Hscan : forall t items st, P st -> P (snd (rescan rc name t items st))).
  { intros t items st Hp. induction items as [|item rest IH]; cbn [rescan]; [exact Hp|].
    destruct (String.eqb item name); [|exact IH]. cbn [snd]. auto. }
  induction s as [|t rest IH]; intros st Hp; cbn [waitDeleted]; [exact Hp|].
  destruct (apiErr t); [apply IH; auto|].
  pose proof (Hscan t (listItems rc name
                         (emit (listCall rc name) (emit (Sleep (5 * Go.Second)) st)))
                (emit (listCall rc name) (emit (Sleep (5 * Go.Second)) st))
                ltac:(auto)) as Hp2.
  destruct (rescan rc name t _ _) as [found st2]. cbn [snd] in Hp2.
  destruct found; cbn [negb]; [apply IH; exact Hp2 | exact Hp2].
Qed.

Lemma deleteAndWait_preserves (P : Store -> Prop) :
  (forall st c, P st -> P (emit c st)) ->
  (forall st, P st -> P (removed rc name st)) ->
  forall w, P (store w) -> P (store (snd (deleteAndWait rc name w))).
Proof.
  intros Hemit Hrem w Hp. unfold deleteAndWait, bind.
  assert (Hp1 : P (store (snd (deleteResource rc name w)))).
  { unfold deleteResource, bind, call, nextTick. cbn [script store].
    destruct (script w) as [|t rest]; cbn [script store snd ret]; [auto|].
    unfold serveDelete. destruct (apiErr t); cbn [snd store]; [auto|].
    destruct (existsb _ _); cbn [snd store]; [|auto].
    destruct (lingers t); cbn [snd store]; auto. }
  destruct (deleteResource rc name w) as [e w1]. cbn [snd] in Hp1.
  apply waitDeleted_preserves; assumption.
Qed.

Hypothesis rc_removes : ClientRemoves rc.

(** A cooperative API: the delete takes effect at once and the first list
    confirms it. *)
Lemma deleteAndWait_cooperative (w : World) (t0 t1 : Tick) (rest : list Tick) :
  script w = t0 :: t1 :: rest ->
  cooperative t0 ->
  apiErr t1 = None ->
  deleteAndWait rc name w
  = (None,
     mkWorld rest
       (addTrace (removed rc name (store w))
          [deleteCall rc name; Sleep (5 * Go.Second); listCall rc name])).
Proof.
  intros Hs [H0 Hl] H1.
  unfold deleteAndWait, deleteResource, bind, call, nextTick. cbn [script store]. rewrite Hs.
  cbn [script store]. rewrite emit_addTrace.
  assert (Hserve : snd (serveDelete rc name t0 (addTrace (store w) [deleteCall rc name]))
                   = addTrace (removed rc name (store w)) [deleteCall rc name]).
  { unfold serveDelete. rewrite H0, Hl.
    destruct (existsb (String.eqb name) (listed rc (addTrace (store w) [deleteCall rc name])))
      eqn:E; cbn [snd].
    - apply (removed_addTrace rc rc_removes).
    - rewrite <- (removed_addTrace rc rc_removes).
      symmetry. apply (removed_noop rc rc_removes).
      unfold absent. intros Hin.
      assert (existsb (String.eqb name)
                (listed rc (addTrace (store w) [deleteCall rc name])) = true) as Hex.
      { apply existsb_exists. exists name. split; [exact Hin | apply String.eqb_refl]. }
      congruence. }
  destruct (serveDelete rc name t0 (addTrace (store w) [deleteCall rc name])) as [e st1].
  cbn [snd] in Hserve. subst st1. cbn [script store waitDeleted]. rewrite H1.
  rewrite !emit_addTrace, !addTrace_app. cbn [app].
  assert (Habs : absent rc name
                   (addTrace (removed rc name (store w))
                      [deleteCall rc name; Sleep (5 * Go.Second); listCall rc name])).
  { apply (absent_addTrace rc name rc_ok), (removed_absent rc rc_removes). }
  rewrite (absent_listItems rc name _ Habs). reflexivity.
Qed.

(** An object that stays listed: every round finds it and deletes it again,
    until the context is done. *)
Lemma waitDeleted_lingering (s : list Tick) (st : Store) :
  Forall lingering s ->
  In name (listed rc st) ->
  waitDeleted rc name s st
  = (Some (timedOutWaiting rc), mkWorld [] (addTrace st (repolls rc name (List.length s)))).
Proof.
  intros Hl. revert st. induction Hl as [|t rest [Ht Hling] _ IH]; intros st Hin.
  - cbn. rewrite addTrace_nil. reflexivity.
  - cbn [waitDeleted List.length repolls]. rewrite Ht.
    rewrite !emit_addTrace, addTrace_app. cbn [app].
    set (st1 := addTrace st [Sleep (5 * Go.Second); listCall rc name]).
    assert (Hin1 : In name (listed rc st1)).
    { unfold st1. rewrite (listed_addTrace rc rc_ok). exact Hin. }
    assert (Hitems : exists more, listItems rc name st1 = name :: more).
    { unfold listItems. clear - Hin1. induction (listed rc st1) as [|x l IHl]; [destruct Hin1|].
      cbn [List.filter]. destruct (String.eqb_spec x name) as [->|Hne].
      - eexists. reflexivity.
      - destruct Hin1 as [Heq|Hin1]; [congruence | exact (IHl Hin1)]. }
    destruct Hitems as (more & ->). cbn [rescan]. rewrite String.eqb_refl.
    unfold serveDelete. rewrite Ht, Hling.
    rewrite emit_addTrace.
    assert (Hex : existsb (String.eqb name) (listed rc (addTrace st1 [deleteCall rc name]))
                  = true).
    { apply existsb_exists. exists name. split; [|apply String.eqb_refl].
      rewrite (listed_addTrace rc rc_ok). exact Hin1. }
    rewrite Hex. cbn [snd negb].
    rewrite IH.
    + unfold st1. rewrite !addTrace_app. reflexivity.
    + rewrite (listed_addTrace rc rc_ok). exact Hin1.
Qed.

Lemma deleteAndWait_lingering (w : World) (t0 : Tick) (s : list Tick) :
  script w = t0 :: s ->
  lingering t0 ->
  Forall lingering s ->
  In name (listed rc (store w)) ->
  deleteAndWait rc name w
  = (Some (timedOutWaiting rc),
     mkWorld [] (addTrace (store w) (deleteCall rc name :: repolls rc name (List.length s)))).
Proof.
  intros Hs [H0 Hl0] Hl Hin.
  unfold deleteAndWait, deleteResource, bind, call, nextTick. cbn [script store]. rewrite Hs.
  cbn [script store]. rewrite emit_addTrace. unfold serveDelete. rewrite H0, Hl0.
  assert (Hex : existsb (String.eqb name)
                  (listed rc (addTrace (store w) [deleteCall rc name])) = true).
  { apply existsb_exists. exists name. split; [|apply String.eqb_refl].
    rewrite (listed_addTrace rc rc_ok). exact Hin. }
  rewrite Hex. cbn [script store].
  rewrite waitDeleted_lingering; [|exact Hl|].
  - rewrite addTrace_app. reflexivity.
  - rewrite (listed_addTrace rc rc_ok). exact Hin.
Qed.

End DeleteAndWaitEffects.

(** X9: a delete-and-wait that returns nil leaves the namespace without the
    object it was asked to delete: nil is returned only after a list
    request that succeeded and did not show it. *)
Theorem deleteAndWait_nil_means_gone (r : CheckRunner) (w : World) :
  (fst (deleteServiceAndWait r w) = None ->
   ~ In (CheckServiceName (cfg r)) (services (store (snd (deleteServiceAndWait r w)))))
  /\ (fst (deleteDeploymentAndWait r w) = None ->
      ~ In (CheckDeploymentName (cfg r))
           (map deploymentName (deployments (store (snd (deleteDeploymentAndWait r w)))))).
Proof.
  split; intros H.
  - exact (deleteAndWait_nil_absent serviceClient _ w H).
  - exact (deleteAndWait_nil_absent deploymentClient _ w H).
Qed.

Lemma deleteAndWait_nil_means_gone_witness :
  ~ In "deployment-svc"
       (services (store (snd (deleteServiceAndWait defaultRunner
                                (mkWorld [quietRound; quietRound] strayStore))))).
Proof.
  apply (proj1 (deleteAndWait_nil_means_gone defaultRunner
                  (mkWorld [quietRound; quietRound] strayStore))).
  reflexivity.
Defined.

Lemma cleanup_preserves (r : CheckRunner) (P : Store -> Prop) :
  (forall st c, P st -> P (emit c st)) ->
  (forall st, P st -> P (withoutService (CheckServiceName (cfg r)) st)) ->
  (forall st, P st -> P (withoutDeployment (CheckDeploymentName (cfg r)) st)) ->
  forall w, P (store w) -> P (store (snd (cleanup r w))).
Proof.
  intros Hemit Hsvc Hdep w Hp. unfold cleanup, bind.
  pose proof (deleteAndWait_preserves serviceClient (CheckServiceName (cfg r)) P
                Hemit Hsvc w Hp) as H1.
  fold (deleteServiceAndWait r) in H1.
  destruct (deleteServiceAndWait r w) as [e1 w1]. cbn [snd] in H1.
  pose proof (deleteAndWait_preserves deploymentClient (CheckDeploymentName (cfg r)) P
                Hemit Hdep w1 H1) as H2.
  fold (deleteDeploymentAndWait r) in H2.
  destruct (deleteDeploymentAndWait r w1) as [e2 w2]. cbn [snd] in H2.
  destruct e1, e2; cbn; try rewrite ?append_empty, ?prefixed_nonblank; cbn; exact H2.
Qed.

(** X10: cleanup deletes no service and no deployment but its own two:
    afterwards the services are those from before, with or without the
    configured service, and the deployments are those from before, with or
    without the configured deployment; in particular every service and
    every deployment of another name is still there. *)
Theorem cleanup_touches_only_its_objects (r : CheckRunner) (w : World) :
  keptOrWithout (fun n : string => n) (CheckServiceName (cfg r))
    (services (store w)) (services (store (snd (cleanup r w))))
  /\ keptOrWithout deploymentName (CheckDeploymentName (cfg r))
       (deployments (store w)) (deployments (store (snd (cleanup r w))))
  /\ (forall name, name <> CheckServiceName (cfg r) ->
        In name (services (store w)) ->
        In name (services (store (snd (cleanup r w)))))
  /\ (forall d, deploymentName d <> CheckDeploymentName (cfg r) ->
        In d (deployments (store w)) ->
        In d (deployments (store (snd (cleanup r w))))).
Proof.
  assert (Hkept :
    keptOrWithout (fun n : string => n) (CheckServiceName (cfg r))
      (services (store w)) (services (store (snd (cleanup r w))))
    /\ keptOrWithout deploymentName (CheckDeploymentName (cfg r))
         (deployments (store w)) (deployments (store (snd (cleanup r w))))).
  { apply (cleanup_preserves r
             (fun st =>
                keptOrWithout (fun n : string => n) (CheckServiceName (cfg r))
                  (services (store w)) (services st)
                /\ keptOrWithout deploymentName (CheckDeploymentName (cfg r))
                     (deployments (store w)) (deployments st))).
    - intros st c H. exact H.
    - intros st (Hs & Hd). split; [|assumption].
      unfold withoutService. cbn [services]. right.
      destruct Hs as [-> | ->]; [reflexivity|].
      apply (filter_other_idempotent (fun n : string => n)).
    - intros st (Hs & Hd). split; [exact Hs|].
      unfold withoutDeployment. cbn [deployments]. right.
      destruct Hd as [-> | ->]; [reflexivity|].
      apply (filter_other_idempotent deploymentName).
    - split; left; reflexivity. }
  destruct Hkept as [Hs Hd]. split; [exact Hs|]. split; [exact Hd|]. split.
  - intros name Hne Hin. destruct Hs as [-> | ->]; [exact Hin|].
    apply filter_In. split; [exact Hin|].
    apply negb_true_iff, String.eqb_neq. exact Hne.
  - intros d Hne Hin. destruct Hd as [-> | ->]; [exact Hin|].
    apply filter_In. split; [exact Hin|].
    apply negb_true_iff, String.eqb_neq. exact Hne.
Qed.

(** X11: when cleanup returns nil, neither the configured service nor the
    configured deployment is left in the namespace. *)
Theorem cleanup_nil_means_both_gone (r : CheckRunner) (w : World) :
  fst (cleanup r w) = None ->
  ~ In (CheckServiceName (cfg r)) (services (store (snd (cleanup r w))))
  /\ ~ In (CheckDeploymentName (cfg r))
          (map deploymentName (deployments (store (snd (cleanup r w))))).
Proof.
  unfold cleanup, bind.
  pose proof (deleteAndWait_nil_absent serviceClient (CheckServiceName (cfg r)) w) as H1.
  fold (deleteServiceAndWait r) in H1.
  destruct (deleteServiceAndWait r w) as [e1 w1]. cbn [fst snd] in H1.
  pose proof (deleteAndWait_nil_absent deploymentClient (CheckDeploymentName (cfg r)) w1)
    as H2.
  pose proof (deleteAndWait_preserves deploymentClient (CheckDeploymentName (cfg r))
                (fun st => services st = services (store w1))
                ltac:(intros st c H; exact H) ltac:(intros st H; exact H) w1 eq_refl) as H3.
  fold (deleteDeploymentAndWait r) in H2, H3.
  destruct (deleteDeploymentAndWait r w1) as [e2 w2]. cbn [fst snd] in H2, H3.
  destruct e1 as [a|], e2 as [b|]; cbn;
    try rewrite ?append_empty, ?prefixed_nonblank; cbn; try discriminate.
  intros _. split.
  - rewrite H3. exact (H1 eq_refl).
  - exact (H2 eq_refl).
Qed.

Lemma cleanup_nil_means_both_gone_witness :
  ~ In "deployment-svc"
       (services (store (snd (cleanup defaultRunner
                                (mkWorld (repeat quietRound 4) strayStore)))))
  /\ ~ In "deployment-deployment"
          (map deploymentName
             (deployments (store (snd (cleanup defaultRunner
                                         (mkWorld (repeat quietRound 4) strayStore)))))).
Proof.
  apply (cleanup_nil_means_both_gone defaultRunner
           (mkWorld (repeat quietRound 4) strayStore)).
  vm_compute. reflexivity.
Defined.

(** X12: cleanup called with a context that is already done removes
    nothing, whatever is in the namespace: it issues its two delete
    requests, gives up on both waits at once and reports both as timed
    out. *)
Theorem cleanup_done_context_removes_nothing (r : CheckRunner) (w : World) :
  ctxDone w = true ->
  fst (cleanup r w) = Some cleanupExpiredMessage
  /\ services (store (snd (cleanup r w))) = services (store w)
  /\ deployments (store (snd (cleanup r w))) = deployments (store w)
  /\ trace (store (snd (cleanup r w)))
     = trace (store w) ++ [DeleteService (CheckServiceName (cfg r));
                           DeleteDeployment (CheckDeploymentName (cfg r))].
Proof.
  intros Hd. destruct w as [s st]. unfold ctxDone in Hd. cbn [script] in Hd.
  destruct s; [|discriminate].
  rewrite cleanup_done. repeat split.
Qed.

Lemma cleanup_done_context_removes_nothing_witness :
  fst (cleanup defaultRunner (mkWorld [] strayStore)) = Some cleanupExpiredMessage
  /\ services (store (snd (cleanup defaultRunner (mkWorld [] strayStore))))
     = services strayStore
  /\ deployments (store (snd (cleanup defaultRunner (mkWorld [] strayStore))))
     = deployments strayStore
  /\ trace (store (snd (cleanup defaultRunner (mkWorld [] strayStore))))
     = trace strayStore ++ [DeleteService "deployment-svc";
                            DeleteDeployment "deployment-deployment"].
Proof.
  apply (cleanup_done_context_removes_nothing defaultRunner (mkWorld [] strayStore)).
  reflexivity.
Defined.

(** X13: with a live context and an API that accepts the requests and lets
    deletes take effect at once, cleanup needs four rounds: it returns nil,
    the service and the deployment are gone (whether or not they existed),
    and its calls are delete, sleep, list for the service and then for the
    deployment. *)
Theorem cleanup_cooperative (r : CheckRunner) (w : World) (t0 t1 t2 t3 : Tick)
    (rest : list Tick) :
  script w = t0 :: t1 :: t2 :: t3 :: rest ->
  cooperative t0 -> apiErr t1 = None -> cooperative t2 -> apiErr t3 = None ->
  cleanup r w
  = (None,
     mkWorld rest
       (addTrace
          (withoutDeployment (CheckDeploymentName (cfg r))
             (withoutService (CheckServiceName (cfg r)) (store w)))
          [DeleteService (CheckServiceName (cfg r)); Sleep (5 * Go.Second);
           ListServices (CheckServiceName (cfg r));
           DeleteDeployment (CheckDeploymentName (cfg r)); Sleep (5 * Go.Second);
           ListDeployments (CheckDeploymentName (cfg r))])).
Proof.
  intros Hs H0 H1 H2 H3.
  unfold cleanup, bind, deleteServiceAndWait, deleteDeploymentAndWait.
  rewrite (deleteAndWait_cooperative serviceClient (CheckServiceName (cfg r))
             serviceClient_ok serviceClient_removes w t0 t1 (t2 :: t3 :: rest) Hs H0 H1).
  rewrite (deleteAndWait_cooperative deploymentClient (CheckDeploymentName (cfg r))
             deploymentClient_ok deploymentClient_removes
             (mkWorld (t2 :: t3 :: rest) _) t2 t3 rest eq_refl H2 H3).
  unfold ret, addTrace, withoutDeployment, withoutService. cbn.
  rewrite <- app_assoc. reflexivity.
Qed.

Lemma cleanup_cooperative_witness :
  cleanup defaultRunner (mkWorld (repeat quietRound 4) strayStore)
  = (None,
     mkWorld []
       (addTrace
          (withoutDeployment "deployment-deployment"
             (withoutService "deployment-svc" strayStore))
          [DeleteService "deployment-svc"; Sleep (5 * Go.Second);
           ListServices "deployment-svc";
           DeleteDeployment "deployment-deployment"; Sleep (5 * Go.Second);
           ListDeployments "deployment-deployment"])).
Proof.
  apply (cleanup_cooperative defaultRunner (mkWorld (repeat quietRound 4) strayStore)
           quietRound quietRound quietRound quietRound []).
  - reflexivity.
  - split; reflexivity.
  - reflexivity.
  - split; reflexivity.
  - reflexivity.
Defined.

(** X14: an object that stays listed after every accepted delete is deleted
    again in every polling round, each round being a sleep, a list and a
    delete, until the context is done; the wait then ends with the
    timed-out error and the object is still there. *)
Theorem deleteAndWait_lingering_object (r : CheckRunner) (w : World) (t0 : Tick)
    (s : list Tick) :
  script w = t0 :: s ->
  lingering t0 ->
  Forall lingering s ->
  (In (CheckServiceName (cfg r)) (services (store w)) ->
   deleteServiceAndWait r w
   = (Some "timed out while waiting for service to delete",
      mkWorld []
        (addTrace (store w)
           (DeleteService (CheckServiceName (cfg r))
            :: repolls serviceClient (CheckServiceName (cfg r)) (List.length s)))))
  /\ (In (CheckDeploymentName (cfg r)) (map deploymentName (deployments (store w))) ->
      deleteDeploymentAndWait r w
      = (Some "timed out while waiting for deployment to delete",
         mkWorld []
           (addTrace (store w)
              (DeleteDeployment (CheckDeploymentName (cfg r))
               :: repolls deploymentClient (CheckDeploymentName (cfg r))
                          (List.length s))))).
Proof.
  intros Hs H0 Hl. split; intros Hin.
  - exact (deleteAndWait_lingering serviceClient _ serviceClient_ok w t0 s Hs H0 Hl Hin).
  - exact (deleteAndWait_lingering deploymentClient _ deploymentClient_ok w t0 s Hs H0 Hl Hin).
Qed.

Lemma deleteAndWait_lingering_object_witness :
  deleteServiceAndWait defaultRunner (mkWorld [lingerRound; lingerRound; lingerRound] strayStore)
  = (Some "timed out while waiting for service to delete",
     mkWorld []
       (addTrace strayStore
          (DeleteService "deployment-svc" :: repolls serviceClient "deployment-svc" 2))).
Proof.
  apply (proj1 (deleteAndWait_lingering_object defaultRunner
                  (mkWorld [lingerRound; lingerRound; lingerRound] strayStore)
                  lingerRound [lingerRound; lingerRound] eq_refl
                  ltac:(split; reflexivity)
                  ltac:(repeat (apply List.Forall_cons; [split; reflexivity|]);
                        apply List.Forall_nil))).
  simpl. auto.
Defined.

(** ** Error decoration *)

Lemma join_summaries_nonblank (items : list Pod) :
  items <> [] -> Go.join (map formatDeploymentPodSummary items) "; " <> "".
Proof.
  destruct items as [|pod more]; [congruence|]. intros _.
  cbn [map Go.join]. destruct (map formatDeploymentPodSummary more); discriminate.
Qed.

(** X15: decorating keeps nil nil and leaves the world alone in that case;
    a non-nil error comes back as "<stage> failed: <error>; pod status:
    <summary>" with a non-empty summary, after one listing of the run's
    pods by the run label.  The listing uses a context of its own, so the
    decoration takes nothing from the caller's context and works when that
    context is already done. *)
Theorem decorateDeploymentError_keeps_cause (r : CheckRunner) (stage : string)
    (err : Go.error) (w : World) :
  (fst (decorateDeploymentError r stage err w) = None <-> err = None)
  /\ (err = None -> snd (decorateDeploymentError r stage err w) = w)
  /\ (forall e, err = Some e ->
        exists summary,
          summary <> ""
          /\ fst (decorateDeploymentError r stage err w)
             = Some (stage +:+ " failed: " +:+ e +:+ "; pod status: " +:+ summary)
          /\ snd (decorateDeploymentError r stage err w)
             = mkWorld (script w) (emit (ListPods (runLabelSelector r)) (store w))).
Proof.
  destruct err as [e|].
  - assert (H : exists summary,
               summary <> ""
               /\ decorateDeploymentError r stage (Some e) w
                  = (Some (stage +:+ " failed: " +:+ e +:+ "; pod status: " +:+ summary),
                     mkWorld (script w) (emit (ListPods (runLabelSelector r)) (store w)))).
    { unfold decorateDeploymentError, deploymentPodSummary, bind, call, ret.
      cbn [store script].
      destruct (podView (store w)) as [msg|items] eqn:Hv; cbn [emit podView]; rewrite Hv.
      - eexists. split; [|reflexivity]. discriminate.
      - destruct items as [|pod more].
        + eexists. split; [|reflexivity]. discriminate.
        + cbn [List.length Nat.eqb]. eexists. split; [|reflexivity].
          apply join_summaries_nonblank. discriminate. }
    destruct H as (summary & Hne & Hrun). rewrite Hrun. cbn [fst snd].
    split; [split; discriminate|]. split; [discriminate|].
    intros e' He'. injection He' as <-. exists summary. auto.
  - cbn. split; [split; reflexivity|]. split; [reflexivity|]. discriminate.
Qed.

(** ** The create wait *)

Lemma createWaitLoop_skip_quiet (r : CheckRunner) (quiets s : list Tick) (st : Store) :
  Forall (quiet r) quiets ->
  createWaitLoop r (quiets ++ s) st = createWaitLoop r s st.
Proof.
  intros Hq. induction Hq as [|t rest Ht _ IH]; [reflexivity|].
  cbn [app createWaitLoop]. unfold quiet in Ht.
  destruct (woken t) as [[d|]|[e|]]; try exact IH; [|contradiction].
  rewrite Ht. exact IH.
Qed.

(** After an accepted create and an accepted watch the function is in its
    select loop. *)
Lemma createDeploymentAndWait_enters_wait (r : CheckRunner) (deadline : Z) (w : World)
    (t0 t1 : Tick) (s : list Tick) :
  let config := createDeploymentConfig r (CheckImageURL (cfg r)) in
  script w = t0 :: t1 :: s ->
  apiErr t0 = None ->
  apiErr t1 = None ->
  ~ In (deploymentName config) (map deploymentName (deployments (store w))) ->
  createDeploymentAndWait r deadline w
  = createWaitLoop r s
      (mkStore (services (store w)) (deployments (store w) ++ [config])
         (podView (store w))
         (trace (store w)
          ++ [CreateDeployment config;
              GoMonitor deadline createMonitorDivisor errDeploymentCreatePod;
              WatchDeployments (deploymentName config)])).
Proof.
  intros config Hs H0 H1 Hnew.
  unfold createDeploymentAndWait. fold config.
  unfold request, bind, call, nextTick. cbn [script store]. rewrite Hs.
  cbn [script store]. unfold serveCreate. rewrite H0.
  cbn [emit services deployments podView trace].
  rewrite (not_in_existsb _ _ Hnew).
  cbn [script store emit services deployments podView trace].
  unfold serveWatch. rewrite H1. cbn [script store].
  unfold emit. cbn [services deployments podView trace].
  rewrite <- !app_assoc. reflexivity.
Qed.

(** X16: when the monitor reports a pod error during the create wait, the
    function returns it decorated as a "deployment create" failure and makes
    no delete request: the deployment it created is left in the
    namespace. *)
Theorem createDeploymentAndWait_pod_error (r : CheckRunner) (deadline : Z) (w : World)
    (t0 t1 : Tick) (quiets : list Tick) (t : Tick) (rest : list Tick) (podErr : string) :
  let config := createDeploymentConfig r (CheckImageURL (cfg r)) in
  script w = t0 :: t1 :: quiets ++ t :: rest ->
  apiErr t0 = None ->
  apiErr t1 = None ->
  ~ In (deploymentName config) (map deploymentName (deployments (store w))) ->
  Forall (quiet r) quiets ->
  woken t = PodErrorSignal (Some podErr) ->
  exists summary,
    createDeploymentAndWait r deadline w
    = ((None, Some ("deployment create failed: " +:+ podErr
                    +:+ "; pod status: " +:+ summary)),
       mkWorld rest
         (mkStore (services (store w)) (deployments (store w) ++ [config])
            (podView (store w))
            (trace (store w)
             ++ [CreateDeployment config;
                 GoMonitor deadline createMonitorDivisor errDeploymentCreatePod;
                 WatchDeployments (deploymentName config);
                 ListPods (runLabelSelector r)]))).
Proof.
  intros config Hs H0 H1 Hnew Hq Hw.
  rewrite (createDeploymentAndWait_enters_wait r deadline w t0 t1 _ Hs H0 H1 Hnew).
  rewrite (createWaitLoop_skip_quiet r quiets _ _ Hq).
  cbn [createWaitLoop]. rewrite Hw.
  unfold decorateDeploymentError, deploymentPodSummary, bind, call, ret.
  cbn [store script emit services deployments podView trace].
  unfold emit. cbn [services deployments podView trace].
  destruct (podView (store w)) as [msg|items];
    [|destruct (Nat.eqb (List.length items) 0)];
    eexists; rewrite <- !app_assoc; reflexivity.
Qed.

Lemma createDeploymentAndWait_pod_error_witness :
  exists summary,
    createDeploymentAndWait defaultRunner (15 * Go.Minute)
      (mkWorld [quietRound; quietRound; wake (WatchEvent None);
                wake (PodErrorSignal (Some (backoffMessage errDeploymentCreatePod)))]
               emptyStore)
    = ((None, Some ("deployment create failed: " +:+ backoffMessage errDeploymentCreatePod
                    +:+ "; pod status: " +:+ summary)),
       mkWorld []
         (mkStore [] ([] ++ [createDeploymentConfig defaultRunner (CheckImageURL defaultConfig)])
            (inr [])
            ([] ++ [CreateDeployment
                      (createDeploymentConfig defaultRunner (CheckImageURL defaultConfig));
                    GoMonitor (15 * Go.Minute) createMonitorDivisor errDeploymentCreatePod;
                    WatchDeployments "deployment-deployment";
                    ListPods (runLabelSelector defaultRunner)]))).
Proof.
  apply (createDeploymentAndWait_pod_error defaultRunner (15 * Go.Minute)
           (mkWorld [quietRound; quietRound; wake (WatchEvent None);
                     wake (PodErrorSignal (Some (backoffMessage errDeploymentCreatePod)))]
                    emptyStore)
           quietRound quietRound [wake (WatchEvent None)]
           (wake (PodErrorSignal (Some (backoffMessage errDeploymentCreatePod)))) []).
  - reflexivity.
  - reflexivity.
  - reflexivity.
  - simpl. auto.
  - apply List.Forall_cons; [exact I | apply List.Forall_nil].
  - reflexivity.
Defined.

(** X17: the create wait ends with success at the first watch event that
    carries an available deployment: that object is returned with a nil
    error, earlier events that are not available are passed over, and
    nothing is requested after the watch. *)
Theorem createDeploymentAndWait_available (r : CheckRunner) (deadline : Z) (w : World)
    (t0 t1 : Tick) (quiets : list Tick) (t : Tick) (rest : list Tick) (d : Deployment) :
  let config := createDeploymentConfig r (CheckImageURL (cfg r)) in
  script w = t0 :: t1 :: quiets ++ t :: rest ->
  apiErr t0 = None ->
  apiErr t1 = None ->
  ~ In (deploymentName config) (map deploymentName (deployments (store w))) ->
  Forall (quiet r) quiets ->
  woken t = WatchEvent (Some d) ->
  deploymentAvailable (Some d) (CheckDeploymentReplicas (cfg r)) = true ->
  createDeploymentAndWait r deadline w
  = ((Some d, None),
     mkWorld rest
       (mkStore (services (store w)) (deployments (store w) ++ [config])
          (podView (store w))
          (trace (store w)
           ++ [CreateDeployment config;
               GoMonitor deadline createMonitorDivisor errDeploymentCreatePod;
               WatchDeployments (deploymentName config)]))).
Proof.
  intros config Hs H0 H1 Hnew Hq Hw Hav.
  rewrite (createDeploymentAndWait_enters_wait r deadline w t0 t1 _ Hs H0 H1 Hnew).
  rewrite (createWaitLoop_skip_quiet r quiets _ _ Hq).
  cbn [createWaitLoop]. rewrite Hw, Hav. reflexivity.
Qed.

Lemma createDeploymentAndWait_available_witness :
  createDeploymentAndWait defaultRunner (15 * Go.Minute)
    (mkWorld [quietRound; quietRound; wake (WatchEvent None);
              wake (WatchEvent (Some (mkDeployment zeroMeta zeroSpec availableStatus)))]
             emptyStore)
  = ((Some (mkDeployment zeroMeta zeroSpec availableStatus), None),
     mkWorld []
       (mkStore [] ([] ++ [createDeploymentConfig defaultRunner (CheckImageURL defaultConfig)])
          (inr [])
          ([] ++ [CreateDeployment
                    (createDeploymentConfig defaultRunner (CheckImageURL defaultConfig));
                  GoMonitor (15 * Go.Minute) createMonitorDivisor errDeploymentCreatePod;
                  WatchDeployments "deployment-deployment"]))).
Proof.
  apply (createDeploymentAndWait_available defaultRunner (15 * Go.Minute)
           (mkWorld [quietRound; quietRound; wake (WatchEvent None);
                     wake (WatchEvent (Some (mkDeployment zeroMeta zeroSpec availableStatus)))]
                    emptyStore)
           quietRound quietRound [wake (WatchEvent None)]
           (wake (WatchEvent (Some (mkDeployment zeroMeta zeroSpec availableStatus)))) []).
  - reflexivity.
  - reflexivity.
  - reflexivity.
  - simpl. auto.
  - apply List.Forall_cons; [exact I | apply List.Forall_nil].
  - reflexivity.
  - reflexivity.
Defined.

(** ** The update *)

Lemma createDeploymentConfig_containers (r : CheckRunner) (image : string) :
  image <> "" ->
  Containers (TemplateSpec (Template (Spec (createDeploymentConfig r image))))
  = [createContainerConfig r image].
Proof.
  intros Himg. unfold createDeploymentConfig. rewrite (nonempty_length _ Himg).
  reflexivity.
Qed.

Lemma updateWaitLoop_skip_quiet (r : CheckRunner) (quiets s : list Tick) (st : Store) :
  Forall (quietRoll r) quiets ->
  updateWaitLoop r (quiets ++ s) st = updateWaitLoop r s st.
Proof.
  intros Hq. induction Hq as [|t rest Ht _ IH]; [reflexivity|].
  cbn [app updateWaitLoop]. unfold quietRoll in Ht.
  destruct (woken t) as [[d|]|[e|]]; try exact IH; [|contradiction].
  rewrite Ht. exact IH.
Qed.

(** X18: the object sent by the update is the fetched deployment with its
    strategy, min-ready seconds, replica count and pod template replaced
    from the roll-to descriptor: metadata, selector and status stay those of
    the fetched object and the one container runs the roll-to image.  With
    the fetch, the update and the watch accepted, the update wait ends with
    success at the first watch event whose pods are rolled and ready: that
    object is returned with a nil error, and earlier wake-ups (events that
    are not deployments, deployments not yet rolled, a monitor round
    without error) are passed over.  The calls made are the get, the
    update, the start of the monitor with divisor 3 and the watch, and the
    stored deployment of that name is the submitted one. *)
Theorem updateDeploymentAndWait_rolls (r : CheckRunner) (deadline : Z) (w : World)
    (t0 t1 t2 : Tick) (quiets : list Tick) (t : Tick) (rest : list Tick)
    (current d : Deployment) :
  let name := CheckDeploymentName (cfg r) in
  let rolled := rolledFrom r current in
  CheckImageURLRollTo (cfg r) <> "" ->
  script w = t0 :: t1 :: t2 :: quiets ++ t :: rest ->
  apiErr t0 = None ->
  apiErr t1 = None ->
  apiErr t2 = None ->
  find (fun d => String.eqb (deploymentName d) name) (deployments (store w))
  = Some current ->
  Forall (quietRoll r) quiets ->
  woken t = WatchEvent (Some d) ->
  rolledPodsAreReady (Some d) (CheckDeploymentReplicas (cfg r)) = true ->
  updateDeploymentAndWait r deadline w
  = ((Some d, None),
     mkWorld rest
       (mkStore (services (store w))
          (map (fun old => if String.eqb (deploymentName old) (deploymentName current)
                           then rolled else old)
               (deployments (store w)))
          (podView (store w))
          (trace (store w)
           ++ [GetDeployment name; UpdateDeployment rolled;
               GoMonitor deadline 3 errDeploymentUpdatePod;
               WatchDeployments (deploymentName current)])))
  /\ DeploymentMeta rolled = DeploymentMeta current
  /\ Selector (Spec rolled) = Selector (Spec current)
  /\ Status rolled = Status current
  /\ map Image (Containers (TemplateSpec (Template (Spec rolled))))
     = [CheckImageURLRollTo (cfg r)].
Proof.
  intros name rolled Himg Hs H0 H1 H2 Hfind Hq Hw Hready.
  assert (Hin : existsb (String.eqb (deploymentName current))
                  (map deploymentName (deployments (store w))) = true).
  { apply find_some in Hfind as [Hin _]. apply existsb_exists.
    exists (deploymentName current). split; [apply in_map; exact Hin|].
    apply String.eqb_refl. }
  split; [|split; [reflexivity|split; [reflexivity|split; [reflexivity|]]]].
  - assert (Hget : request (GetDeployment name) (serveGet name) w
                   = (inr current,
                      mkWorld (t1 :: t2 :: quiets ++ t :: rest)
                        (emit (GetDeployment name) (store w)))).
    { unfold request, bind, call, nextTick. cbn [script store]. rewrite Hs.
      cbn [script store]. unfold serveGet. rewrite H0. cbn [emit deployments].
      rewrite Hfind. reflexivity. }
    unfold updateDeploymentAndWait. fold name.
    rewrite (bind_run _ _ _ _ _ Hget). cbv beta iota zeta.
    rewrite (createDeploymentConfig_containers r _ Himg).
    cbn [List.length Nat.eqb].
    change (mkDeployment (DeploymentMeta current) _ (Status current)) with rolled.
    set (st1 := emit (GetDeployment name) (store w)).
    assert (Hupd : request (UpdateDeployment rolled) (serveUpdate rolled)
                     (mkWorld (t1 :: t2 :: quiets ++ t :: rest) st1)
                   = (inr rolled,
                      mkWorld (t2 :: quiets ++ t :: rest)
                        (snd (serveUpdate rolled t1 (emit (UpdateDeployment rolled) st1))))).
    { unfold request, bind, call, nextTick. cbn [script store].
      unfold serveUpdate. rewrite H1. unfold st1. cbn [emit deployments].
      change (deploymentName rolled) with (deploymentName current).
      rewrite Hin. reflexivity. }
    rewrite (bind_run _ _ _ _ _ Hupd). cbv beta iota.
    rewrite (bind_run (call (GoMonitor deadline updateMonitorDivisor errDeploymentUpdatePod))
               _ _ _ tt eq_refl).
    unfold request, bind, call, nextTick. cbn [script store].
    unfold serveWatch. rewrite H2. cbn [script store].
    rewrite (updateWaitLoop_skip_quiet r quiets _ _ Hq).
    cbn [updateWaitLoop]. rewrite Hw, Hready.
    unfold serveUpdate. rewrite H1. unfold st1, emit.
    cbn [services deployments podView trace].
    change (deploymentName rolled) with (deploymentName current).
    rewrite Hin. cbn [snd services deployments podView trace].
    rewrite <- !app_assoc. reflexivity.
  - unfold rolled, rolledFrom. cbn [Spec Template].
    rewrite (createDeploymentConfig_containers r _ Himg). reflexivity.
Qed.

Lemma updateDeploymentAndWait_rolls_witness :
  updateDeploymentAndWait defaultRunner (15 * Go.Minute)
    (mkWorld [quietRound; quietRound; quietRound;
              wake (WatchEvent None); wake (WatchEvent (Some twoAvailable));
              wake (PodErrorSignal None); wake (WatchEvent (Some twoRolled))]
             strayStore)
  = ((Some twoRolled, None),
     mkWorld []
       (mkStore ["deployment-svc"; "other-svc"]
          [rolledFrom defaultRunner (createDeploymentConfig defaultRunner "nginx:latest")]
          (inr [])
          [GetDeployment "deployment-deployment";
           UpdateDeployment
             (rolledFrom defaultRunner (createDeploymentConfig defaultRunner "nginx:latest"));
           GoMonitor (15 * Go.Minute) 3 errDeploymentUpdatePod;
           WatchDeployments "deployment-deployment"])).
Proof.
  apply (updateDeploymentAndWait_rolls defaultRunner (15 * Go.Minute)
           (mkWorld [quietRound; quietRound; quietRound;
                     wake (WatchEvent None); wake (WatchEvent (Some twoAvailable));
                     wake (PodErrorSignal None); wake (WatchEvent (Some twoRolled))]
                    strayStore)
           quietRound quietRound quietRound
           [wake (WatchEvent None); wake (WatchEvent (Some twoAvailable));
            wake (PodErrorSignal None)]
           (wake (WatchEvent (Some twoRolled))) []
           (createDeploymentConfig defaultRunner "nginx:latest") twoRolled).
  - discriminate.
  - reflexivity.
  - reflexivity.
  - reflexivity.
  - reflexivity.
  - reflexivity.
  - repeat (apply List.Forall_cons; [first [exact I | reflexivity]|]). apply List.Forall_nil.
  - reflexivity.
  - reflexivity.
Defined.

(** X19: when the fetch of the current deployment fails (the context is
    done, the request fails, or no deployment of the configured name
    exists), the update returns an error that starts with "failed to fetch
    deployment for update: " after that one get request: no update request
    is made, no monitor is started and the stored objects are untouched. *)
Theorem updateDeploymentAndWait_fetch_failure (r : CheckRunner) (deadline : Z) (w : World) :
  let name := CheckDeploymentName (cfg r) in
  (script w = []
   \/ exists t0 rest,
        script w = t0 :: rest
        /\ (apiErr t0 <> None
            \/ find (fun d => String.eqb (deploymentName d) name) (deployments (store w))
               = None)) ->
  exists e,
    updateDeploymentAndWait r deadline w
    = ((None, Some ("failed to fetch deployment for update: " +:+ e)),
       mkWorld (tl (script w)) (emit (GetDeployment name) (store w))).
Proof.
  intros name [Hs | (t0 & rest & Hs & Hfail)].
  - exists contextError.
    unfold updateDeploymentAndWait, request, bind, call, nextTick. cbn [script store].
    rewrite Hs. reflexivity.
  - unfold updateDeploymentAndWait, request, bind, call, nextTick. cbn [script store].
    rewrite Hs. cbn [script store tl]. unfold serveGet. fold name.
    destruct (apiErr t0) as [e|] eqn:He.
    + exists e. reflexivity.
    + destruct Hfail as [Hne | Hnone]; [congruence|].
      cbn [emit deployments]. rewrite Hnone. eexists. reflexivity.
Qed.

Lemma updateDeploymentAndWait_fetch_failure_witness :
  exists e,
    updateDeploymentAndWait defaultRunner (15 * Go.Minute) (mkWorld [quietRound] emptyStore)
    = ((None, Some ("failed to fetch deployment for update: " +:+ e)),
       mkWorld [] (emit (GetDeployment "deployment-deployment") emptyStore)).
Proof.
  apply (updateDeploymentAndWait_fetch_failure defaultRunner (15 * Go.Minute)
           (mkWorld [quietRound] emptyStore)).
  right. exists quietRound, []. split; [reflexivity|]. right. reflexivity.
Defined.

(** ** Pod inspection *)

Lemma isErrorReason_nonblank (reason : string) :
  isErrorReason reason = true -> reason <> "".
Proof. intros H ->. discriminate H. Qed.

(** The scan from any starting triple: the result is the start or an error
    event later than the start, it is never earlier than the start, and no
    error event of the list is later than it. *)
Lemma recentEvent_scan (items : list Event) (acc : Z * string * string) :
  let res :=
    fold_left
      (fun acc ev =>
         let '(recentEventTime, eventReason, eventMsg) := acc in
         if negb (isErrorReason (EventReason ev)) then acc
         else if LastTimestamp ev >? recentEventTime
              then (LastTimestamp ev, EventReason ev, EventMessage ev)
              else acc)
      items acc in
  (res = acc
   \/ exists ev,
        In ev items /\ isErrorReason (EventReason ev) = true
        /\ fst (fst acc) < LastTimestamp ev
        /\ res = (LastTimestamp ev, EventReason ev, EventMessage ev))
  /\ fst (fst acc) <= fst (fst res)
  /\ (forall ev, In ev items -> isErrorReason (EventReason ev) = true ->
        LastTimestamp ev <= fst (fst res)).
Proof.
  revert acc. induction items as [|ev rest IH]; intros acc; cbn [fold_left].
  - split; [left; reflexivity|]. split; [lia|]. intros ev [].
  - destruct acc as [[t0 r0] m0]. cbn [fst].
    destruct (isErrorReason (EventReason ev)) eqn:Herr; cbn [negb].
    + destruct (Z.gtb_spec (LastTimestamp ev) t0) as [Hgt|Hle].
      * specialize (IH (LastTimestamp ev, EventReason ev, EventMessage ev)).
        cbv zeta in IH. cbn [fst] in IH. destruct IH as (Hres & Hmono & Hmax).
        split; [|split].
        -- right. destruct Hres as [Hres | (ev' & Hin & He & Hlt & Hres)].
           ++ exists ev. split; [left; reflexivity|]. split; [exact Herr|].
              split; [lia | exact Hres].
           ++ exists ev'. split; [right; exact Hin|]. split; [exact He|].
              split; [lia | exact Hres].
        -- lia.
        -- intros ev' [<- | Hin] He; [exact Hmono | exact (Hmax ev' Hin He)].
      * specialize (IH (t0, r0, m0)). cbv zeta in IH. cbn [fst] in IH.
        destruct IH as (Hres & Hmono & Hmax). split; [|split].
        -- destruct Hres as [Hres | (ev' & Hin & He & Hlt & Hres)]; [left; exact Hres|].
           right. exists ev'. split; [right; exact Hin|]. auto.
        -- exact Hmono.
        -- intros ev' [<- | Hin] He; [lia | exact (Hmax ev' Hin He)].
    + specialize (IH (t0, r0, m0)). cbv zeta in IH. cbn [fst] in IH.
      destruct IH as (Hres & Hmono & Hmax). split; [|split].
      * destruct Hres as [Hres | (ev' & Hin & He & Hlt & Hres)]; [left; exact Hres|].
        right. exists ev'. split; [right; exact Hin|]. auto.
      * exact Hmono.
      * intros ev' [<- | Hin] He; [congruence | exact (Hmax ev' Hin He)].
Qed.

(** A reason written with the Kelvin sign for its K is an error reason, as
    it is for [strings.ToLower]. *)
Lemma isErrorReason_kelvin_sign :
  isErrorReason
    ("Bac" +:+ String (ascii_of_nat 226) (String (ascii_of_nat 132)
                 (String (ascii_of_nat 170) "Off")))
  = true.
Proof. vm_compute. reflexivity. Qed.

(** X20: the event scan reports the latest error event.  Its result is
    either the blank triple, exactly when no event with an error reason has
    a positive timestamp, or the timestamp, reason and message of one event
    of the list whose reason is an error reason and whose timestamp is
    positive; no error event of the list is later than the reported time.
    An error event whose timestamp is unset (zero) is therefore never
    reported. *)
Theorem recentEvent_latest_error (items : list Event) :
  (recentEvent items = (0, "", "")
   \/ exists ev,
        In ev items /\ isErrorReason (EventReason ev) = true
        /\ 0 < LastTimestamp ev
        /\ recentEvent items = (LastTimestamp ev, EventReason ev, EventMessage ev))
  /\ (forall ev, In ev items -> isErrorReason (EventReason ev) = true ->
        LastTimestamp ev <= fst (fst (recentEvent items)))
  /\ (snd (fst (recentEvent items)) = ""
      <-> Forall (fun ev => isErrorReason (EventReason ev) = true -> LastTimestamp ev <= 0)
                 items).
Proof.
  destruct (recentEvent_scan items (0, "", "")) as (Hres & _ & Hmax).
  fold (recentEvent items) in Hres, Hmax. cbn [fst] in Hres.
  split; [exact Hres|]. split; [exact Hmax|]. split.
  - intros Hblank. apply List.Forall_forall. intros ev Hin He.
    destruct Hres as [Hres | (ev' & Hin' & He' & Hpos & Hres)].
    + specialize (Hmax ev Hin He). rewrite Hres in Hmax. exact Hmax.
    + rewrite Hres in Hblank. cbn [fst snd] in Hblank.
      exfalso. exact (isErrorReason_nonblank _ He' Hblank).
  - intros Hall. destruct Hres as [Hres | (ev' & Hin' & He' & Hpos & Hres)].
    + rewrite Hres. reflexivity.
    + pose proof (proj1 (List.Forall_forall _ _) Hall ev' Hin' He'). lia.
Qed.

Lemma checkContainers_no_waiting (pod : Pod) (reason : string)
    (statuses : list ContainerStatus) :
  Forall (fun status => Waiting (State status) = None) statuses ->
  checkContainers pod reason statuses = None.
Proof.
  intros H. induction H as [|status rest Hs _ IH]; [reflexivity|].
  cbn [checkContainers]. rewrite Hs. exact IH.
Qed.

(** X21: a pod in phase Failed is always reported: whenever the listing
    holds such a pod the inspection returns an error, whatever its
    containers and events look like and wherever it stands in the list. *)
Theorem checkDeploymentPodEvent_failed_pod (reason : string) (items : list Pod) (pod : Pod) :
  In pod items ->
  Phase pod = PodFailed ->
  checkDeploymentPodEvent reason (inr items) <> None.
Proof.
  intros Hin Hfailed. cbn [checkDeploymentPodEvent].
  induction items as [|p rest IH]; [destruct Hin|].
  cbn [checkPods].
  destruct (checkContainers p reason (ContainerStatuses p)); [discriminate|].
  destruct (String.eqb (Phase p) PodFailed) eqn:Hp; [discriminate|].
  destruct Hin as [-> | Hin]; [|exact (IH Hin)].
  rewrite Hfailed, String.eqb_refl in Hp. discriminate.
Qed.

Lemma checkDeploymentPodEvent_failed_pod_witness :
  checkDeploymentPodEvent errDeploymentCreatePod
    (inr [mkPod "web-1" "node-1" "Running" "" "" [] (EventsOk []);
          mkPod "web-2" "node-2" "Failed" "Evicted" "low on memory" [] EventsNotFound])
  <> None.
Proof.
  apply (checkDeploymentPodEvent_failed_pod errDeploymentCreatePod _
           (mkPod "web-2" "node-2" "Failed" "Evicted" "low on memory" [] EventsNotFound)).
  - right. left. reflexivity.
  - reflexivity.
Defined.

(** X22: pods that are not failed and have no container in a waiting state
    are never reported, and their events are not consulted: the inspection
    of a listing of such pods returns nil even when listing their events
    would fail or would show error events. *)
Theorem checkDeploymentPodEvent_running_pods (reason : string) (items : list Pod) :
  Forall running items ->
  checkDeploymentPodEvent reason (inr items) = None.
Proof.
  intros H. cbn [checkDeploymentPodEvent].
  induction H as [|pod rest [Hphase Hwait] _ IH]; [reflexivity|].
  cbn [checkPods]. rewrite (checkContainers_no_waiting pod reason _ Hwait).
  apply String.eqb_neq in Hphase. rewrite Hphase. exact IH.
Qed.

Lemma checkDeploymentPodEvent_running_pods_witness :
  checkDeploymentPodEvent errDeploymentUpdatePod
    (inr [mkPod "web-1" "node-1" "Running" "" ""
            [mkContainerStatus "deployment-container" true (mkState None true None)]
            (EventsErr "events is forbidden");
          mkPod "web-2" "node-2" "Pending" "" "" []
            (EventsOk [mkEvent "BackOff" "Back-off restarting failed container" 5])])
  = None.
Proof.
  apply (checkDeploymentPodEvent_running_pods errDeploymentUpdatePod).
  apply List.Forall_cons.
  - split; [discriminate|]. apply List.Forall_cons; [reflexivity | apply List.Forall_nil].
  - apply List.Forall_cons; [|apply List.Forall_nil].
    split; [discriminate | apply List.Forall_nil].
Defined.

Lemma checkContainers_shape (pod : Pod) (reason : string)
    (statuses : list ContainerStatus) (e : string) :
  checkContainers pod reason statuses = Some e ->
  PodEvents pod = EventsErr e
  \/ exists body, e = body +:+ "; stage: " +:+ reason.
Proof.
  induction statuses as [|status rest IH]; cbn [checkContainers]; [discriminate|].
  destruct (Waiting (State status)) as [wait|]; [|exact IH].
  destruct (String.eqb (WaitingReason wait) ""); [exact IH|].
  destruct (negb (Ready status) && negb (String.eqb (WaitingReason wait) "ContainerCreating")).
  - intros H. injection H as <-. right. eexists. rewrite <- append_assoc. reflexivity.
  - destruct (PodEvents pod) as [items| |msg] eqn:Hev.
    + destruct (recentEvent items) as [[t eventReason] eventMsg].
      destruct (negb (Nat.eqb (String.length eventReason) 0)); [|exact IH].
      intros H. injection H as <-. right. eexists. rewrite <- append_assoc. reflexivity.
    + exact IH.
    + intros H. injection H as <-. left. reflexivity.
Qed.

(** X23: an error of the inspection is the error of the pod listing, the
    error of listing one pod's events, or a message built by the inspection
    itself, and every message it builds ends with "; stage: " followed by
    the stage reason it was given. *)
Theorem checkDeploymentPodEvent_names_stage (reason : string)
    (listing : string + list Pod) (e : string) :
  checkDeploymentPodEvent reason listing = Some e ->
  listing = inl e
  \/ (exists items pod, listing = inr items /\ In pod items /\ PodEvents pod = EventsErr e)
  \/ exists body, e = body +:+ "; stage: " +:+ reason.
Proof.
  destruct listing as [err|items]; cbn [checkDeploymentPodEvent].
  - intros H. injection H as <-. left. reflexivity.
  - intros H. right.
    assert (Hshape : (exists pod, In pod items /\ PodEvents pod = EventsErr e)
                     \/ exists body, e = body +:+ "; stage: " +:+ reason).
    { induction items as [|pod rest IH]; cbn [checkPods] in H; [discriminate|].
      destruct (checkContainers pod reason (ContainerStatuses pod)) as [e'|] eqn:Hc.
      - injection H as <-. destruct (checkContainers_shape _ _ _ _ Hc) as [Hev | Hbody].
        + left. exists pod. split; [left; reflexivity | exact Hev].
        + right. exact Hbody.
      - destruct (String.eqb (Phase pod) PodFailed).
        + injection H as <-. right. eexists.
          rewrite <- !append_assoc. reflexivity.
        + destruct (IH H) as [(p & Hin & Hev) | Hbody].
          * left. exists p. split; [right; exact Hin | exact Hev].
          * right. exact Hbody. }
    destruct Hshape as [(pod & Hin & Hev) | Hbody].
    + left. exists items, pod. auto.
    + right. exact Hbody.
Qed.

Lemma checkDeploymentPodEvent_names_stage_witness :
  @inr string (list Pod) [backoffPod] = inl (backoffMessage errDeploymentCreatePod)
  \/ (exists items pod,
        @inr string (list Pod) [backoffPod] = inr items /\ In pod items
        /\ PodEvents pod = EventsErr (backoffMessage errDeploymentCreatePod))
  \/ exists body,
       backoffMessage errDeploymentCreatePod
       = body +:+ "; stage: " +:+ errDeploymentCreatePod.
Proof.
  apply (checkDeploymentPodEvent_names_stage errDeploymentCreatePod (inr [backoffPod])
           (backoffMessage errDeploymentCreatePod)).
  reflexivity.
Defined.

(** X24: outside its window the monitor sends nothing, whatever the pods
    look like: with a divisor that is not positive, or with every
    observation taken when the time left until the deadline is at least the
    time limit divided by the divisor, the monitor ends by the cancellation
    of its context without a send. *)
Theorem monitor_silent_outside_window (r : CheckRunner) (deadline divisor : Z)
    (reason : string) (s : list Observation) :
  divisor <= 0 \/ Forall (outsideWindow r deadline divisor) s ->
  monitorDeploymentPodErrors r deadline divisor reason s = MonitorExited.
Proof.
  intros H. induction s as [|o rest IH]; [reflexivity|].
  cbn [monitorDeploymentPodErrors].
  assert (Hev : evaluating r deadline divisor o = false).
  { unfold evaluating. destruct H as [Hdiv | Hall].
    - destruct (Z.gtb_spec divisor 0); [lia | reflexivity].
    - apply List.Forall_inv in Hall. unfold outsideWindow in Hall.
      apply andb_false_iff. right. apply Z.ltb_ge. exact Hall. }
  rewrite Hev. apply IH. destruct H as [Hdiv | Hall]; [left; exact Hdiv|].
  right. exact (List.Forall_inv_tail Hall).
Qed.

Lemma monitor_silent_outside_window_witness :
  monitorDeploymentPodErrors defaultRunner (15 * Go.Minute) createMonitorDivisor
    errDeploymentCreatePod
    [mkObservation (1 * Go.Minute) (inr [backoffPod]);
     mkObservation (7 * Go.Minute) (inl "pods is forbidden")]
  = MonitorExited.
Proof.
  apply (monitor_silent_outside_window defaultRunner (15 * Go.Minute) createMonitorDivisor
           errDeploymentCreatePod).
  right. apply List.Forall_cons; [|apply List.Forall_cons; [|apply List.Forall_nil]];
    unfold outsideWindow; vm_compute; discriminate.
Defined.

(** ** Parsing of the list-valued settings *)

Lemma splitOn_length (sep : ascii) (s : string) :
  List.length (splitOn sep s) = S (countOf sep s).
Proof.
  induction s as [|c rest IH]; [reflexivity|].
  cbn [splitOn countOf]. destruct (Ascii.eqb c sep).
  - cbn [List.length]. rewrite IH. reflexivity.
  - destruct (splitOn sep rest) as [|head tail]; [discriminate IH|].
    cbn [List.length] in *. exact IH.
Qed.

Lemma splitOn_first (sep : ascii) (s : string) :
  firstPart (splitOn sep s) = upTo sep s.
Proof.
  induction s as [|c rest IH]; [reflexivity|].
  cbn [splitOn upTo]. destruct (Ascii.eqb c sep); [reflexivity|].
  pose proof (splitOn_length sep rest) as Hlen.
  destruct (splitOn sep rest) as [|head tail]; [discriminate Hlen|].
  cbn [firstPart] in *. rewrite IH. reflexivity.
Qed.

Lemma union_insert_present (acc rest : gmap string string) (key value old : string) :
  acc !! key = Some old -> acc ∪ <[key := value]> rest = acc ∪ rest.
Proof.
  intros Hold. apply map_eq. intros k.
  destruct (acc !! k) as [v|] eqn:Hk.
  - rewrite (lookup_union_Some_l acc _ k v Hk), (lookup_union_Some_l acc _ k v Hk).
    reflexivity.
  - rewrite !(lookup_union_r acc _ k Hk).
    apply lookup_insert_ne. intros ->. congruence.
Qed.

Lemma addPair_fold (entries : list string) (acc : gmap string string) :
  fold_left addPair entries acc
  = acc ∪ list_to_map
            (omap (fun entry =>
                     match splitOn equalsSign entry with
                     | [key; value] => Some (key, value)
                     | _ => None
                     end)
                  entries).
Proof.
  set (pair := fun entry : string => _).
  revert acc. induction entries as [|entry rest IH]; intros acc; cbn [fold_left].
  - change (omap pair []) with (@nil (string * string)).
    rewrite list_to_map_nil. symmetry. apply (right_id_L ∅ (∪)).
  - rewrite IH. unfold addPair.
    change (omap pair (entry :: rest))
      with (match pair entry with Some p => p :: omap pair rest | None => omap pair rest end).
    unfold pair at 2.
    destruct (splitOn equalsSign entry) as [|key [|value [|extra more]]]; try reflexivity.
    rewrite list_to_map_cons.
    destruct (acc !! key) as [old|] eqn:Hkey.
    + symmetry. exact (union_insert_present acc _ key value old Hkey).
    + rewrite <- insert_union_l. apply insert_union_r. exact Hkey.
Qed.

(** X25: the node-selector and the environment-variable parsers never
    return an error (a split always yields at least one entry, so their
    empty-list guard cannot fire), they compute the same map, and that map
    holds the well-formed key=value entries of the list with the first
    entry of a key winning: entries without exactly one "=" are left out
    and a later entry never overwrites an earlier one of the same key. *)
Theorem parse_pairs_first_key_wins (raw : string) :
  parseNodeSelectors raw = inr (list_to_map (keyValuePairs raw))
  /\ parseAdditionalEnvVars raw = inr (list_to_map (keyValuePairs raw))
  /\ (forall before key value after,
        keyValuePairs raw = before ++ (key, value) :: after ->
        ~ In key (map fst before) ->
        (list_to_map (keyValuePairs raw) : gmap string string) !! key = Some value).
Proof.
  assert (Hparse : forall msg,
             (if Nat.eqb (List.length (splitOn comma raw)) 0 then inl msg
              else inr (fold_left addPair (splitOn comma raw) ∅))
             = (inr (list_to_map (keyValuePairs raw)) : string + gmap string string)).
  { intros msg. rewrite splitOn_length. cbn [Nat.eqb].
    rewrite addPair_fold. unfold keyValuePairs. f_equal.
    apply (left_id_L ∅ (∪)). }
  split; [exact (Hparse _)|]. split; [exact (Hparse _)|].
  intros before key value after Heq Hfresh. rewrite Heq. clear Heq.
  induction before as [|[k v] before IH]; cbn [app].
  - rewrite list_to_map_cons. apply lookup_insert_eq.
  - rewrite list_to_map_cons. cbn [map fst In] in Hfresh.
    rewrite lookup_insert_ne; [|intros ->; apply Hfresh; left; reflexivity].
    apply IH. intros Hin. apply Hfresh. right. exact Hin.
Qed.

Lemma tolerations_fold (entries : list string) (acc : list Toleration) :
  fold_left (fun tolerations entry => tolerations ++ [tolerationOf entry]) entries acc
  = acc ++ map tolerationOf entries.
Proof.
  revert acc. induction entries as [|entry rest IH]; intros acc; cbn [fold_left map].
  - symmetry. apply app_nil_r.
  - rewrite IH, <- app_assoc. reflexivity.
Qed.

(** X26: the toleration parser never returns an error and yields one
    toleration per comma-separated entry, in order, so one more than the
    number of commas.  The key of each is the text of the entry before its
    first "="; the operator is Equal exactly when the entry holds exactly
    one "=", and Exists otherwise, with no value and no effect. *)
Theorem parseTolerations_one_per_entry (raw : string) :
  parseTolerations raw = inr (map tolerationOf (splitOn comma raw))
  /\ List.length (map tolerationOf (splitOn comma raw)) = S (countOf comma raw)
  /\ (forall entry,
        TolerationKey (tolerationOf entry) = upTo equalsSign entry
        /\ (Operator (tolerationOf entry) = TolerationOpEqual
            <-> countOf equalsSign entry = 1%nat)
        /\ (countOf equalsSign entry <> 1%nat ->
            tolerationOf entry
            = mkToleration (upTo equalsSign entry) TolerationOpExists "" "")).
Proof.
  split; [|split].
  - unfold parseTolerations. rewrite splitOn_length. cbn [Nat.eqb].
    rewrite tolerations_fold. reflexivity.
  - rewrite length_map. apply splitOn_length.
  - intros entry.
    pose proof (splitOn_length equalsSign entry) as Hlen.
    pose proof (splitOn_first equalsSign entry) as Hfirst.
    unfold tolerationOf.
    destruct (splitOn equalsSign entry) as [|key [|valueEffectRaw [|extra more]]];
      cbn [List.length firstPart] in *.
    + discriminate Hlen.
    + cbn [TolerationKey Operator]. split; [exact Hfirst|]. split.
      * split; [discriminate | intros H; lia].
      * intros _. rewrite Hfirst. reflexivity.
    + assert (Hone : countOf equalsSign entry = 1%nat) by lia.
      destruct (splitOn colon valueEffectRaw) as [|value [|effect [|x xs]]];
        cbn [TolerationKey Operator];
        (split; [exact Hfirst|]); (split; [split; [intros _; exact Hone | reflexivity]|]);
        intros Hne; contradiction.
    + cbn [TolerationKey Operator]. split; [exact Hfirst|]. split.
      * split; [discriminate | intros H; lia].
      * intros _. rewrite Hfirst. reflexivity.
Qed.
